(** * Relationship engine and registration guards of the fosscord API

    A shallow embedding of two route files of the server:

    - [src/api/routes/users/@me/relationships.ts]: the handlers
      [router.put], [router.delete] and their shared [updateRelationship];
    - the [/auth/register] route: the ordered guard checks of [router.post].

    Handlers are [async] functions that read and write the database, emit
    gateway events and throw.  They are embedded in a state-and-error monad
    over a [World]: the relationship table, the id generator, the events
    emitted so far and the database calls issued so far.  A [throw] keeps
    every effect performed before it, as in the source. *)

From Stdlib Require Import List String Bool Arith Lia ZArith Permutation.
From Stdlib Require Import Ascii DecimalString.
Import ListNotations.
Open Scope string_scope.
Open Scope list_scope.

(* ================================================================== *)
(** * Part I: relationships.ts                                         *)
(* ================================================================== *)

Module Relationships.

(** ** Data *)

(** The enum [RelationshipType] of the util package. *)
Inductive RelationshipType : Set := outgoing | incoming | blocked | friends.

(** One row of the [relationships] table: the edge that [from_id] holds
    toward [to_id].  Primary keys are snowflakes; only their freshness
    matters here, so they are numbers drawn from a counter. *)
Record Relationship : Set := mkRelationship {
  id : nat;
  from_id : string;
  to_id : string;
  type : RelationshipType
}.

(** [relationship.type = t] on a loaded entity. *)
Definition with_type (r : Relationship) (t : RelationshipType) : Relationship :=
  {| id := id r; from_id := from_id r; to_id := to_id r; type := t |}.

(** A [User] as the handlers load it: [relations: ["relationships"]]. *)
Record User : Set := mkUser {
  User_id : string;
  User_relationships : list Relationship
}.

Inductive EventName : Set := RELATIONSHIP_ADD | RELATIONSHIP_REMOVE.

(** An emitted event.  [data] is [toPublicRelationship()] of a row (a
    projection defined in the util package); the record keeps the row it is
    computed from, as it is when the event is built. *)
Record Event : Set := mkEvent {
  event : EventName;
  user_id : string;
  data : Relationship;
  should_notify : bool
}.

(** What a handler can throw.  [HTTPError] has status 400 unless one is
    given; [EntityNotFound] is what [findOneOrFail] raises. *)
Inductive Error : Set :=
| HTTPError (message : string) (code : nat)
| MAXIMUM_FRIENDS (maxFriends : nat)
| EntityNotFound (wanted : string).

(** The database: the users that exist and the relationship rows. *)
Record Store : Set := mkStore {
  users : list string;
  relationships : list Relationship
}.

(** Calls issued to the database, in order. *)
Inductive StoreCall : Set :=
| FindOneOrFail (wanted : string)
| Save (r : Relationship)
| Delete (pk : nat).

Record World : Set := mkWorld {
  db : Store;
  snowflake : nat;
  emitted : list Event;
  calls : list StoreCall
}.

(** [Config.get().limits.user] *)
Record Config : Set := mkConfig { maxFriends : nat }.

(** The request fields the handlers read. *)
Record Request : Set := mkRequest {
  req_user_id : string;
  params_id : string;
  body_type : option RelationshipType
}.

(** ** The handler monad *)

Definition M (A : Type) : Type := World -> (Error + A) * World.

Definition ret {A : Type} (a : A) : M A := fun w => (inr a, w).

Definition throw {A : Type} (e : Error) : M A := fun w => (inl e, w).

Definition bind {A B : Type} (m : M A) (k : A -> M B) : M B :=
  fun w =>
    match m w with
    | (inl e, w') => (inl e, w')
    | (inr a, w') => k a w'
    end.

Notation "x <- m ;; k" := (bind m (fun x => k))
  (at level 61, m at next level, right associativity).
Notation "m ;;; k" := (bind m (fun _ => k))
  (at level 61, right associativity).

(** ** Database and gateway primitives *)

Definition log_call (c : StoreCall) (w : World) : World :=
  {| db := db w; snowflake := snowflake w; emitted := emitted w;
     calls := calls w ++ [c] |}.

Definition set_rows (rows : list Relationship) (w : World) : World :=
  {| db := {| users := users (db w); relationships := rows |};
     snowflake := snowflake w; emitted := emitted w; calls := calls w |}.

(** [User.findOneOrFail({ where: { id }, relations: ["relationships"] })] *)
Definition findOneOrFail (wanted : string) : M User :=
  fun w =>
    let w' := log_call (FindOneOrFail wanted) w in
    if existsb (String.eqb wanted) (users (db w)) then
      (inr {| User_id := wanted;
              User_relationships :=
                filter (fun r => from_id r =? wanted) (relationships (db w)) |},
       w')
    else (inl (EntityNotFound wanted), w').

(** [new Relationship()] merged with its fields: a fresh primary key. *)
Definition new_Relationship (from to : string) (t : RelationshipType)
  : M Relationship :=
  fun w =>
    (inr {| id := snowflake w; from_id := from; to_id := to; type := t |},
     {| db := db w; snowflake := S (snowflake w); emitted := emitted w;
        calls := calls w |}).

Definition save_rows (r : Relationship) (rows : list Relationship)
  : list Relationship :=
  if existsb (fun x => id x =? id r)%nat rows
  then map (fun x => if (id x =? id r)%nat then r else x) rows
  else rows ++ [r].

(** [entity.save()]: update the row with this primary key, or insert. *)
Definition save (r : Relationship) : M unit :=
  fun w =>
    (inr tt,
     set_rows (save_rows r (relationships (db w))) (log_call (Save r) w)).

Definition delete_rows (pk : nat) (rows : list Relationship)
  : list Relationship :=
  filter (fun x => negb (id x =? pk)%nat) rows.

(** [Relationship.delete({ id })] *)
Definition delete (pk : nat) : M unit :=
  fun w =>
    (inr tt,
     set_rows (delete_rows pk (relationships (db w))) (log_call (Delete pk) w)).

Definition emitEvent (e : Event) : M unit :=
  fun w =>
    (inr tt,
     {| db := db w; snowflake := snowflake w; emitted := emitted w ++ [e];
        calls := calls w |}).

(** ** The handlers *)

(** [updateRelationship(req, res, friend, type)], lines 119-215. *)
Definition updateRelationship (cfg : Config) (req : Request) (friend : User)
    (ty : RelationshipType) : M nat :=
  let id_ := User_id friend in
  if id_ =? req_user_id req
  then throw (HTTPError "You can't add yourself as a friend" 400)
  else
    user <- findOneOrFail (req_user_id req) ;;
    let relationship :=
      find (fun x => to_id x =? id_) (User_relationships user) in
    let friendRequest :=
      find (fun x => to_id x =? req_user_id req) (User_relationships friend) in
    match ty with
    | blocked =>
        relationship' <-
          match relationship with
          | Some r =>
              match type r with
              | blocked => throw (HTTPError "You already blocked the user" 400)
              | _ => let r' := with_type r blocked in save r' ;;; ret r'
              end
          | None =>
              r <- new_Relationship (req_user_id req) id_ blocked ;;
              save r ;;; ret r
          end ;;
        match friendRequest with
        | Some fr =>
            match type fr with
            | blocked => ret tt
            | _ =>
                delete (id fr) ;;;
                emitEvent {| event := RELATIONSHIP_REMOVE; user_id := id_;
                             data := fr; should_notify := false |}
            end
        | None => ret tt
        end ;;;
        emitEvent {| event := RELATIONSHIP_ADD; user_id := req_user_id req;
                     data := relationship'; should_notify := false |} ;;;
        ret 204
    | _ =>
        if (maxFriends cfg <=? List.length (User_relationships user))%nat
        then throw (MAXIMUM_FRIENDS (maxFriends cfg))
        else
          incoming_new <-
            new_Relationship (User_id friend) (User_id user) incoming ;;
          outgoing_new <-
            new_Relationship (User_id user) (User_id friend) outgoing ;;
          incoming_relationship <-
            match friendRequest with
            | Some fr =>
                match type fr with
                | blocked => throw (HTTPError "The user blocked you" 400)
                | friends =>
                    throw (HTTPError "You are already friends with the user" 400)
                | _ => ret (with_type fr friends)
                end
            | None => ret incoming_new
            end ;;
          outgoing_relationship <-
            match relationship with
            | Some r =>
                match type r with
                | outgoing =>
                    throw (HTTPError "You already sent a friend request" 400)
                | blocked =>
                    throw (HTTPError
                             "Unblock the user before sending a friend request"
                             400)
                | friends =>
                    throw (HTTPError "You are already friends with the user" 400)
                | _ => ret (with_type r friends)
                end
            | None => ret outgoing_new
            end ;;
          save incoming_relationship ;;;
          save outgoing_relationship ;;;
          emitEvent {| event := RELATIONSHIP_ADD; user_id := req_user_id req;
                       data := outgoing_relationship;
                       should_notify := false |} ;;;
          emitEvent {| event := RELATIONSHIP_ADD; user_id := id_;
                       data := incoming_relationship;
                       should_notify := true |} ;;;
          ret 204
    end.

(** [router.put("/:id")], lines 41-52: the target is loaded first, and the
    type defaults to [friends]. *)
Definition router_put (cfg : Config) (req : Request) : M nat :=
  friend <- findOneOrFail (params_id req) ;;
  updateRelationship cfg req friend
    (match body_type req with Some t => t | None => friends end).

(** [router.delete("/:id")], lines 70-115. *)
Definition router_delete (req : Request) : M nat :=
  let id_ := params_id req in
  if id_ =? req_user_id req
  then throw (HTTPError "You can't remove yourself as a friend" 400)
  else
    user <- findOneOrFail (req_user_id req) ;;
    friend <- findOneOrFail id_ ;;
    let relationship :=
      find (fun x => to_id x =? id_) (User_relationships user) in
    let friendRequest :=
      find (fun x => to_id x =? req_user_id req) (User_relationships friend) in
    match relationship with
    | None => throw (HTTPError "You are not friends with the user" 404)
    | Some r =>
        match type r with
        | blocked =>
            delete (id r) ;;;
            emitEvent {| event := RELATIONSHIP_REMOVE;
                         user_id := req_user_id req;
                         data := r; should_notify := false |} ;;;
            ret 204
        | _ =>
            match friendRequest with
            | Some fr =>
                match type fr with
                | blocked => ret tt
                | _ =>
                    delete (id fr) ;;;
                    emitEvent {| event := RELATIONSHIP_REMOVE; user_id := id_;
                                 data := fr; should_notify := false |}
                end
            | None => ret tt
            end ;;;
            delete (id r) ;;;
            emitEvent {| event := RELATIONSHIP_REMOVE;
                         user_id := req_user_id req;
                         data := r; should_notify := false |} ;;;
            ret 204
        end
    end.

(** ** The engine's operations, as the routes expose them *)

Definition requestOrAccept (cfg : Config) (A B : string) : M nat :=
  router_put cfg {| req_user_id := A; params_id := B; body_type := None |}.

Definition block (cfg : Config) (A B : string) : M nat :=
  router_put cfg
    {| req_user_id := A; params_id := B; body_type := Some blocked |}.

Definition remove (A B : string) : M nat :=
  router_delete {| req_user_id := A; params_id := B; body_type := None |}.

(** The errors by the names the design gives them. *)
Definition SelfAction (e : Error) : Prop :=
  e = HTTPError "You can't add yourself as a friend" 400 \/
  e = HTTPError "You can't remove yourself as a friend" 400.
Definition AlreadyBlocked : Error := HTTPError "You already blocked the user" 400.
Definition NotRelated : Error := HTTPError "You are not friends with the user" 404.
Definition FriendLimitExceeded (n : nat) : Error := MAXIMUM_FRIENDS n.

(** ** Views of the store *)

(** [r] is the row [owner] holds toward [other]. *)
Definition matches (owner other : string) (r : Relationship) : bool :=
  (from_id r =? owner) && (to_id r =? other).

(** The row that [owner] holds toward [other]: the first match, as
    [user.relationships.find] returns it. *)
Definition findEdge (rows : list Relationship) (owner other : string)
  : option Relationship :=
  find (matches owner other) rows.

Definition edge (w : World) (owner other : string) : option RelationshipType :=
  option_map type (findEdge (relationships (db w)) owner other).

Definition count_type (t : RelationshipType) (rows : list Relationship) : nat :=
  List.length (filter (fun r => match type r, t with
                           | outgoing, outgoing | incoming, incoming
                           | blocked, blocked | friends, friends => true
                           | _, _ => false
                           end) rows).

(** The rows [owner] holds, and how many are of kind [friends]. *)
Definition edges_of (w : World) (owner : string) : list Relationship :=
  filter (fun r => from_id r =? owner) (relationships (db w)).

Definition friends_count (w : World) (owner : string) : nat :=
  count_type friends (edges_of w owner).

Definition empty_world (us : list string) : World :=
  {| db := {| users := us; relationships := [] |}; snowflake := 0;
     emitted := []; calls := [] |}.

(** ** Consistent stores *)

Definition key (r : Relationship) : string * string := (from_id r, to_id r).

(** A well-formed table: primary keys are unique and below the generator,
    and there is at most one row per ordered pair (owner, other). *)
Record wf (n : nat) (rows : list Relationship) : Prop := mk_wf {
  wf_ids : NoDup (map id rows);
  wf_fresh : Forall (fun r => id r < n) rows;
  wf_keys : NoDup (map key rows)
}.

(** A block hides its holder: whoever is blocked by [a] holds no edge toward
    [a] other than a block of their own. *)
Definition hides (rows : list Relationship) : Prop :=
  forall a b r r',
    findEdge rows a b = Some r -> type r = blocked ->
    findEdge rows b a = Some r' -> type r' = blocked.

Record consistent (w : World) : Prop := mk_consistent {
  c_wf : wf (snowflake w) (relationships (db w));
  c_hides : hides (relationships (db w))
}.

Definition is_user (w : World) (u : string) : Prop :=
  existsb (String.eqb u) (users (db w)) = true.

(** A decision procedure for [consistent], for concrete stores. *)
Fixpoint nodupb {A : Type} (eqb : A -> A -> bool) (l : list A) : bool :=
  match l with
  | [] => true
  | x :: l' => negb (existsb (eqb x) l') && nodupb eqb l'
  end.

Definition key_eqb (k1 k2 : string * string) : bool :=
  (fst k1 =? fst k2) && (snd k1 =? snd k2).

Definition is_blocked (r : Relationship) : bool :=
  match type r with blocked => true | _ => false end.

Definition consistentb (w : World) : bool :=
  let rows := relationships (db w) in
  nodupb Nat.eqb (map id rows)
  && forallb (fun r => id r <? snowflake w)%nat rows
  && nodupb key_eqb (map key rows)
  && forallb (fun r =>
                negb (is_blocked r) ||
                match findEdge rows (to_id r) (from_id r) with
                | Some r' => is_blocked r'
                | None => true
                end) rows.

(** ** Histories *)

(** The requests a client can make, and the stores they lead to. *)
Inductive Intent : Set :=
| RequestOrAccept (A B : string)
| Block (A B : string)
| Remove (A B : string).

Definition perform (cfg : Config) (i : Intent) : M nat :=
  match i with
  | RequestOrAccept A B => requestOrAccept cfg A B
  | Block A B => block cfg A B
  | Remove A B => remove A B
  end.

(** Requests in sequence; one that fails leaves what it did and the next
    one runs. *)
Fixpoint perform_all (cfg : Config) (todo : list Intent) (w : World) : World :=
  match todo with
  | [] => w
  | i :: todo' => perform_all cfg todo' (snd (perform cfg i w))
  end.

(** Stores the routes can produce from one without relationships. *)
Inductive reachable : World -> Prop :=
| reach_empty us : reachable (empty_world us)
| reach_put cfg req w :
    reachable w -> reachable (snd (router_put cfg req w))
| reach_delete req w :
    reachable w -> reachable (snd (router_delete req w)).

(** [rows'] differs from [rows] at most in the two edges between [A] and
    [B], which are now [eAB] and [eBA]. *)
Definition edges_updated (rows rows' : list Relationship) (A B : string)
    (eAB eBA : option Relationship) : Prop :=
  findEdge rows' A B = eAB /\ findEdge rows' B A = eBA /\
  forall a b, ~ (a = A /\ b = B) -> ~ (a = B /\ b = A) ->
    findEdge rows' a b = findEdge rows a b.

(** What a block or a removal by the other side leaves of an edge, and the
    event it sends to the edge's owner: a block is kept, silently. *)
Definition kept_block (o : option Relationship) : option Relationship :=
  match o with
  | Some fr => if is_blocked fr then Some fr else None
  | None => None
  end.

Definition removal (owner : string) (o : option Relationship) : list Event :=
  match o with
  | Some fr =>
      if is_blocked fr then []
      else [{| event := RELATIONSHIP_REMOVE; user_id := owner; data := fr;
               should_notify := false |}]
  | None => []
  end.

(** The calls in [after] beyond those in [before] are lookups. *)
Definition reads_only (before after : list StoreCall) : Prop :=
  exists cs, after = before ++ cs /\
             Forall (fun c => exists u, c = FindOneOrFail u) cs.

(** The table without primary keys, for comparing two stores. *)
Definition edge_of (r : Relationship) : string * string * RelationshipType :=
  (from_id r, to_id r, type r).

(** ** Sample stores *)

Definition four_users : World := empty_world ["1"; "2"; "3"; "4"].

(** User 1 has blocked users 3 and 4 and has no friend. *)
Definition two_blocks : World :=
  perform_all {| maxFriends := 2 |} [Block "1" "3"; Block "1" "4"] four_users.

(** User 1 is friends with users 3 and 4. *)
Definition two_friends : World :=
  perform_all {| maxFriends := 2 |}
    [RequestOrAccept "1" "3"; RequestOrAccept "3" "1";
     RequestOrAccept "1" "4"; RequestOrAccept "4" "1"] four_users.

(** User 2 has sent a friend request to user 1. *)
Definition pending_request : World :=
  perform_all {| maxFriends := 5 |} [RequestOrAccept "2" "1"] four_users.

(** Users 1 and 2 are friends. *)
Definition friendship : World :=
  perform_all {| maxFriends := 5 |}
    [RequestOrAccept "1" "2"; RequestOrAccept "2" "1"] four_users.

(** User 2 has blocked user 1. *)
Definition blocked_by_2 : World :=
  perform_all {| maxFriends := 5 |} [Block "2" "1"] four_users.

End Relationships.

(* ================================================================== *)
(** * Part II: the /auth/register route                                *)
(* ================================================================== *)

Module Dates.
Local Open Scope Z_scope.

(** ** Time values

    A [Date] holds a time value: milliseconds from the epoch, or no value
    (an invalid [Date]).  [getFullYear] and [setFullYear] of line 126 are
    the abstract operations of the language on time values, written out
    here on [Z]; a time value is an integer, so the arithmetic is exact. *)

Definition msPerDay : Z := 86400000.

Definition Day (t : Z) : Z := t / msPerDay.

Definition TimeWithinDay (t : Z) : Z := t mod msPerDay.

Definition leap (y : Z) : bool :=
  (y mod 4 =? 0) && (negb (y mod 100 =? 0) || (y mod 400 =? 0)).

Definition DaysInYear (y : Z) : Z := if leap y then 366 else 365.

(** The day number of the first day of year [y]. *)
Definition DayFromYear (y : Z) : Z :=
  365 * (y - 1970) + (y - 1969) / 4 - (y - 1901) / 100 + (y - 1601) / 400.

(** The largest year that starts at or before [t]: an estimate from the
    mean length of a year, corrected by one year either way. *)
Definition YearFromTime (t : Z) : Z :=
  let d := Day t in
  let y := 1970 + (400 * d) / 146097 in
  if d <? DayFromYear y then y - 1
  else if DayFromYear (y + 1) <=? d then y + 1
  else y.

Definition InLeapYear (t : Z) : bool := leap (YearFromTime t).

Definition DayWithinYear (t : Z) : Z := Day t - DayFromYear (YearFromTime t).

(** The day of the year on which month [m] (0 to 11) starts. *)
Definition month_start (m : Z) (lp : bool) : Z :=
  let l := if lp then 1 else 0 in
  match m with
  | 0 => 0
  | 1 => 31
  | 2 => 59 + l
  | 3 => 90 + l
  | 4 => 120 + l
  | 5 => 151 + l
  | 6 => 181 + l
  | 7 => 212 + l
  | 8 => 243 + l
  | 9 => 273 + l
  | 10 => 304 + l
  | _ => 334 + l
  end.

Definition month_len (m : Z) (lp : bool) : Z :=
  match m with
  | 1 => if lp then 29 else 28
  | 3 | 5 | 8 | 10 => 30
  | _ => 31
  end.

(** The month of day [d] of a year. *)
Definition month_of (d : Z) (lp : bool) : Z :=
  let l := if lp then 1 else 0 in
  if d <? 31 then 0
  else if d <? 59 + l then 1
  else if d <? 90 + l then 2
  else if d <? 120 + l then 3
  else if d <? 151 + l then 4
  else if d <? 181 + l then 5
  else if d <? 212 + l then 6
  else if d <? 243 + l then 7
  else if d <? 273 + l then 8
  else if d <? 304 + l then 9
  else if d <? 334 + l then 10
  else 11.

Definition MonthFromTime (t : Z) : Z :=
  month_of (DayWithinYear t) (InLeapYear t).

Definition DateFromTime (t : Z) : Z :=
  DayWithinYear t - month_start (MonthFromTime t) (InLeapYear t) + 1.

(** The day number of the given year, month and day of the month; a day
    past the end of the month runs into the next one. *)
Definition MakeDay (year month date : Z) : Z :=
  let ym := year + month / 12 in
  let mn := month mod 12 in
  DayFromYear ym + month_start mn (leap ym) + date - 1.

Definition MakeDate (day time : Z) : Z := day * msPerDay + time.

(** A time value more than 8.64e15 ms from the epoch is no time value. *)
Definition TimeClip (time : Z) : option Z :=
  if 8640000000000000 <? Z.abs time then None else Some time.

End Dates.

Module Registration.
Import Dates.

(** ** Data *)

(** [body.date_of_birth]: the text of the request, until line 127 replaces
    it by a [Date]; an invalid [Date] has no time value. *)
Inductive DateOfBirth : Set :=
| dob_text (s : string)
| dob_Date (ms : option Z).

(** The fields of [RegisterSchema] that the route reads. *)
Record RegisterSchema : Set := mkRegisterSchema {
  username : string;
  password : option string;
  consent : bool;
  email : option string;
  fingerprint : option string;
  invite : option string;
  date_of_birth : option DateOfBirth;
  captcha_key : option string
}.

(** [Config.get().register] and [Config.get().security.captcha]. *)
Record RegisterConfig : Set := mkRegisterConfig {
  allowNewRegistration : bool;
  disabled : bool;
  allowGuests : bool;
  requireCaptcha : bool;
  allowMultipleAccounts : bool;
  blockProxies : bool;
  email_required : bool;
  dateOfBirth_required : bool;
  dateOfBirth_minimum : Z;
  password_required : bool;
  requireInvite : bool;
  guestsRequireInvite : bool
}.

Record CaptchaConfig : Set := mkCaptchaConfig {
  enabled : bool;
  sitekey : option string;
  service : option string
}.

Record Config : Set := mkConfig {
  register : RegisterConfig;
  captcha : CaptchaConfig
}.

(** [req.t(key)], [req.t(key, { years })], or a literal message. *)
Inductive Message : Set :=
| t (key : string)
| t_years (key : string) (years : Z)
| literal (s : string).

(** What the route throws: its own [FieldErrors] and [HTTPError], or the
    rejection of a call it awaited. *)
Inductive Error : Set :=
| FieldErrors (field code : string) (message : Message)
| HTTPError (message : string)
| Rejected (callee reason : string).

(** The body of a 400 answer to a missing or refused captcha. *)
Record CaptchaChallenge : Set := mkCaptchaChallenge {
  challenge_captcha_key : list string;
  captcha_sitekey : option string;
  captcha_service : option string
}.

(** How the handler ends. *)
Inductive Exit : Set :=
| Threw (e : Error)
| Status400 (json : CaptchaChallenge).

Record CaptchaResult : Set := mkCaptchaResult {
  success : bool;
  error_codes : list string
}.

(** The collaborators of the route, all defined outside it: each awaited
    call either rejects with a reason or resolves.  [Date_now] is the time
    value of [new Date()], [LocalTZA t isUTC] the offset of the server's
    local time at [t], and [Date_parse] the time value a text parses to, if
    any. *)
Record Env : Set := mkEnv {
  getIpAdress : string;
  adjustEmail : option string -> option string;
  verifyCaptcha : string -> string -> string + CaptchaResult;
  findOne_fingerprints : option string -> string + bool;
  isProxy_IPAnalysis : string -> string + bool;
  findOne_email : string -> string + bool;
  bcrypt_hash : string -> nat -> string + string;
  User_register : RegisterSchema -> string + string;
  Invite_joinGuild : string -> string -> string + unit;
  generateToken : string -> string + string;
  Date_now : Z;
  LocalTZA : Z -> bool -> Z;
  Date_parse : string -> option Z
}.

(** Calls that leave the process, in order. *)
Inductive Call : Set :=
| call_verifyCaptcha (key ip : string)
| call_findOne_fingerprints (fp : option string)
| call_IPAnalysis (ip : string)
| call_findOne_email (e : string)
| call_bcrypt_hash (pw : string)
| call_User_register (body : RegisterSchema)
| call_Invite_joinGuild (user_id code : string)
| call_generateToken (user_id : string).

(** The accounts created so far (their ids) and the calls made. *)
Record World : Set := mkWorld {
  accounts : list string;
  calls : list Call
}.

(** ** The handler monad *)

Definition M (A : Type) : Type := World -> (Exit + A) * World.

Definition ret {A : Type} (a : A) : M A := fun w => (inr a, w).

Definition exit {A : Type} (x : Exit) : M A := fun w => (inl x, w).

Definition throw {A : Type} (e : Error) : M A := exit (Threw e).

Definition bind {A B : Type} (m : M A) (k : A -> M B) : M B :=
  fun w =>
    match m w with
    | (inl x, w') => (inl x, w')
    | (inr a, w') => k a w'
    end.

Notation "x <- m ;; k" := (bind m (fun x => k))
  (at level 61, m at next level, right associativity).
Notation "m ;;; k" := (bind m (fun _ => k))
  (at level 61, right associativity).

(** [await] of an outside call: it is recorded, and a rejection is thrown. *)
Definition await {A : Type} (c : Call) (callee : string) (r : string + A)
  : M A :=
  fun w =>
    let w' := {| accounts := accounts w; calls := calls w ++ [c] |} in
    match r with
    | inl reason => (inl (Threw (Rejected callee reason)), w')
    | inr a => (inr a, w')
    end.

(** ** JavaScript values *)

(** Truthiness of an optional string: [undefined], [null] and the empty
    string are falsy. *)
Definition truthy (o : option string) : bool :=
  match o with
  | Some s => negb (s =? EmptyString)
  | None => false
  end.

Definition truthy_dob (o : option DateOfBirth) : bool :=
  match o with
  | Some (dob_text s) => negb (s =? EmptyString)
  | Some (dob_Date _) => true
  | None => false
  end.

(** [new Date(value)]: its time value, if any.  [new Date(undefined)] and
    [new Date] of the empty string are invalid. *)
Definition new_Date (env : Env) (o : option DateOfBirth) : option Z :=
  match o with
  | None => None
  | Some (dob_text s) => if s =? EmptyString then None else Date_parse env s
  | Some (dob_Date ms) => ms
  end.

(** [a > b] on two [Date]s: false when either is invalid. *)
Definition Date_gt (a b : option Z) : bool :=
  match a, b with
  | Some x, Some y => (y <? x)%Z
  | _, _ => false
  end.

(** Local time of the server: the offset is the environment's. *)
Definition LocalTime (env : Env) (t : Z) : Z := (t + LocalTZA env t true)%Z.

Definition UTC (env : Env) (t : Z) : Z := (t - LocalTZA env t false)%Z.

(** [date.getFullYear()] of a valid [Date]. *)
Definition getFullYear (env : Env) (t : Z) : Z :=
  YearFromTime (LocalTime env t).

(** The instant [date.setFullYear(year)] computes from the valid [Date]
    [t]: the local month, day and time of day of [t] in the year [year]. *)
Definition setFullYear_instant (env : Env) (t year : Z) : Z :=
  let local := LocalTime env t in
  UTC env (MakeDate (MakeDay year (MonthFromTime local) (DateFromTime local))
                    (TimeWithinDay local)).

(** [date.setFullYear(year)]: the [Date] is invalid afterwards when that
    instant is out of range. *)
Definition setFullYear (env : Env) (t year : Z) : option Z :=
  TimeClip (setFullYear_instant env t year).

(** Lines 125-126 before the range check: now, with the year lowered by
    [years]. *)
Definition cutoff_instant (env : Env) (years : Z) : Z :=
  let minimum := Date_now env in
  setFullYear_instant env minimum (getFullYear env minimum - years)%Z.

(** [minimum] of lines 125-126: [new Date()], then
    [minimum.setFullYear(minimum.getFullYear() - years)]. *)
Definition minimum_date (env : Env) (years : Z) : option Z :=
  let minimum := Date_now env in
  setFullYear env minimum (getFullYear env minimum - years)%Z.

Definition with_date_of_birth (body : RegisterSchema) (d : option DateOfBirth)
  : RegisterSchema :=
  {| username := username body; password := password body;
     consent := consent body; email := email body;
     fingerprint := fingerprint body; invite := invite body;
     date_of_birth := d; captcha_key := captcha_key body |}.

Definition with_password (body : RegisterSchema) (p : option string)
  : RegisterSchema :=
  {| username := username body; password := p;
     consent := consent body; email := email body;
     fingerprint := fingerprint body; invite := invite body;
     date_of_birth := date_of_birth body; captcha_key := captcha_key body |}.

(** ** The checks, in the order of the source *)

(** Lines 23-28. *)
Definition check_allowNewRegistration (cfg : Config) : M unit :=
  if negb (allowNewRegistration (register cfg))
  then throw (FieldErrors "email" "REGISTRATION_DISABLED"
                (t "auth:register.REGISTRATION_DISABLED"))
  else ret tt.

(** Lines 30-35. *)
Definition check_consent (body : RegisterSchema) : M unit :=
  if negb (consent body)
  then throw (FieldErrors "consent" "CONSENT_REQUIRED"
                (t "auth:register.CONSENT_REQUIRED"))
  else ret tt.

(** Lines 37-44. *)
Definition check_disabled (cfg : Config) : M unit :=
  if disabled (register cfg)
  then throw (FieldErrors "email" "DISABLED"
                (literal "registration is disabled on this instance"))
  else ret tt.

(** Lines 46-50. *)
Definition check_allowGuests (cfg : Config) : M unit :=
  if negb (allowGuests (register cfg))
  then throw (FieldErrors "email" "GUESTS_DISABLED"
                (t "auth:register.GUESTS_DISABLED"))
  else ret tt.

(** Lines 52-70. *)
Definition check_captcha (env : Env) (cfg : Config) (body : RegisterSchema)
  : M unit :=
  if requireCaptcha (register cfg) && enabled (captcha cfg)
  then
    match captcha_key body with
    | Some key =>
        if key =? EmptyString
        then exit (Status400
                     {| challenge_captcha_key := ["captcha-required"];
                        captcha_sitekey := sitekey (captcha cfg);
                        captcha_service := service (captcha cfg) |})
        else
          verify <- await (call_verifyCaptcha key (getIpAdress env))
                      "verifyCaptcha"
                      (verifyCaptcha env key (getIpAdress env)) ;;
          if negb (success verify)
          then exit (Status400
                       {| challenge_captcha_key := error_codes verify;
                          captcha_sitekey := sitekey (captcha cfg);
                          captcha_service := service (captcha cfg) |})
          else ret tt
    | None =>
        exit (Status400
                {| challenge_captcha_key := ["captcha-required"];
                   captcha_sitekey := sitekey (captcha cfg);
                   captcha_service := service (captcha cfg) |})
    end
  else ret tt.

(** Lines 72-84. *)
Definition check_fingerprint (env : Env) (cfg : Config) (body : RegisterSchema)
  : M unit :=
  if negb (allowMultipleAccounts (register cfg))
  then
    exists_ <- await (call_findOne_fingerprints (fingerprint body))
                 "User.findOne"
                 (findOne_fingerprints env (fingerprint body)) ;;
    if exists_ : bool
    then throw (FieldErrors "email" "EMAIL_ALREADY_REGISTERED"
                  (t "auth:register.EMAIL_ALREADY_REGISTERED"))
    else ret tt
  else ret tt.

(** Lines 86-91. *)
Definition check_proxy (env : Env) (cfg : Config) : M unit :=
  if blockProxies (register cfg)
  then
    proxy <- await (call_IPAnalysis (getIpAdress env)) "IPAnalysis"
               (isProxy_IPAnalysis env (getIpAdress env)) ;;
    if proxy : bool
    then throw (HTTPError "Your IP is blocked from registration")
    else ret tt
  else ret tt.

(** Lines 96-117, on [email = adjustEmail(body.email)] of line 21. *)
Definition check_email (env : Env) (cfg : Config) (email_ : option string)
  : M unit :=
  match email_ with
  | Some e =>
      if truthy email_
      then
        if negb (truthy email_)
        then throw (FieldErrors "email" "INVALID_EMAIL"
                      (t "auth:register.INVALID_EMAIL"))
        else
          exists_ <- await (call_findOne_email e) "User.findOne"
                       (findOne_email env e) ;;
          if exists_ : bool
          then throw (FieldErrors "email" "EMAIL_ALREADY_REGISTERED"
                        (t "auth:register.EMAIL_ALREADY_REGISTERED"))
          else ret tt
      else if email_required (register cfg)
      then throw (FieldErrors "email" "BASE_TYPE_REQUIRED"
                    (t "common:field.BASE_TYPE_REQUIRED"))
      else ret tt
  | None =>
      if email_required (register cfg)
      then throw (FieldErrors "email" "BASE_TYPE_REQUIRED"
                    (t "common:field.BASE_TYPE_REQUIRED"))
      else ret tt
  end.

(** Lines 119-138.  The body comes back with [date_of_birth] replaced by a
    [Date] when the age is compared. *)
Definition check_date_of_birth (env : Env) (cfg : Config)
    (body : RegisterSchema) : M RegisterSchema :=
  if dateOfBirth_required (register cfg)
     && negb (truthy_dob (date_of_birth body))
     && truthy (password body)
  then throw (FieldErrors "date_of_birth" "BASE_TYPE_REQUIRED"
                (t "common:field.BASE_TYPE_REQUIRED"))
  else if dateOfBirth_required (register cfg)
          && negb (dateOfBirth_minimum (register cfg) =? 0)%Z
  then
    let minimum := minimum_date env (dateOfBirth_minimum (register cfg)) in
    let date := new_Date env (date_of_birth body) in
    let body := with_date_of_birth body (Some (dob_Date date)) in
    if Date_gt date minimum
    then throw (FieldErrors "date_of_birth" "DATE_OF_BIRTH_UNDERAGE"
                  (t_years "auth:register.DATE_OF_BIRTH_UNDERAGE"
                     (dateOfBirth_minimum (register cfg))))
    else ret body
  else ret body.

(** Lines 140-147. *)
Definition check_password (env : Env) (cfg : Config) (body : RegisterSchema)
  : M RegisterSchema :=
  match password body with
  | Some pw =>
      if truthy (password body)
      then
        hash <- await (call_bcrypt_hash pw) "bcrypt.hash"
                  (bcrypt_hash env pw 12) ;;
        ret (with_password body (Some hash))
      else if password_required (register cfg)
      then throw (FieldErrors "password" "BASE_TYPE_REQUIRED"
                    (t "common:field.BASE_TYPE_REQUIRED"))
      else ret body
  | None =>
      if password_required (register cfg)
      then throw (FieldErrors "password" "BASE_TYPE_REQUIRED"
                    (t "common:field.BASE_TYPE_REQUIRED"))
      else ret body
  end.

(** Lines 149-154.  [register.email] is an object, so [!register.email] is
    false. *)
Definition check_invite (cfg : Config) (body : RegisterSchema) : M unit :=
  if negb (truthy (invite body))
     && (requireInvite (register cfg)
         || (guestsRequireInvite (register cfg) && false))
  then throw (FieldErrors "email" "INVITE_ONLY"
                (t "auth:register.INVITE_ONLY"))
  else ret tt.

(** Modelled from the spec: [User.register] is defined in the util package;
    it is [UserDirectory.create(payload)], which stores the account and
    returns it, or fails without storing.  Line 156. *)
Definition create_account (env : Env) (body : RegisterSchema) : M string :=
  fun w =>
    let w' := {| accounts := accounts w;
                 calls := calls w ++ [call_User_register body] |} in
    match User_register env body with
    | inl reason => (inl (Threw (Rejected "User.register" reason)), w')
    | inr user =>
        (inr user, {| accounts := accounts w' ++ [user]; calls := calls w' |})
    end.

(** Lines 158-161. *)
Definition redeem_invite (env : Env) (user : string) (body : RegisterSchema)
  : M unit :=
  match invite body with
  | Some code =>
      if truthy (invite body)
      then await (call_Invite_joinGuild user code) "Invite.joinGuild"
             (Invite_joinGuild env user code)
      else ret tt
  | None => ret tt
  end.

(** Lines 21-117: the checks before the date of birth. *)
Definition checks_before_date_of_birth (env : Env) (cfg : Config)
    (body : RegisterSchema) : M unit :=
  let email_ := adjustEmail env (email body) in
  check_allowNewRegistration cfg ;;;
  check_consent body ;;;
  check_disabled cfg ;;;
  check_allowGuests cfg ;;;
  check_captcha env cfg body ;;;
  check_fingerprint env cfg body ;;;
  check_proxy env cfg ;;;
  check_email env cfg email_.

(** Lines 140-163: what follows the date of birth. *)
Definition after_date_of_birth (env : Env) (cfg : Config)
    (body : RegisterSchema) : M string :=
  body <- check_password env cfg body ;;
  check_invite cfg body ;;;
  user <- create_account env body ;;
  redeem_invite env user body ;;;
  await (call_generateToken user) "generateToken" (generateToken env user).

(** Lines 21-154: every guard, returning the body as the checks leave it. *)
Definition guards (env : Env) (cfg : Config) (body : RegisterSchema)
  : M RegisterSchema :=
  checks_before_date_of_birth env cfg body ;;;
  body <- check_date_of_birth env cfg body ;;
  body <- check_password env cfg body ;;
  check_invite cfg body ;;;
  ret body.

(** [router.post("/")], lines 15-164: the token of the new account. *)
Definition router_post (env : Env) (cfg : Config) (body : RegisterSchema)
  : M string :=
  checks_before_date_of_birth env cfg body ;;;
  body <- check_date_of_birth env cfg body ;;
  after_date_of_birth env cfg body.

Definition fresh_world : World := {| accounts := []; calls := [] |}.

(** The two errors of the date-of-birth check. *)
Definition underage (cfg : Config) : Exit :=
  Threw (FieldErrors "date_of_birth" "DATE_OF_BIRTH_UNDERAGE"
           (t_years "auth:register.DATE_OF_BIRTH_UNDERAGE"
              (dateOfBirth_minimum (register cfg)))).

Definition date_of_birth_required : Exit :=
  Threw (FieldErrors "date_of_birth" "BASE_TYPE_REQUIRED"
           (t "common:field.BASE_TYPE_REQUIRED")).

(** ** A sample environment and payloads *)

Definition sample_env : Env :=
  {| getIpAdress := "203.0.113.7";
     adjustEmail := fun e => e;
     verifyCaptcha := fun _ _ => inr {| success := true; error_codes := [] |};
     findOne_fingerprints := fun _ => inr false;
     isProxy_IPAnalysis := fun _ => inr false;
     findOne_email := fun _ => inr false;
     bcrypt_hash := fun pw _ => inr (String.append "$2b$12$" pw);
     User_register := fun body => inr (String.append "id-of-" (username body));
     Invite_joinGuild := fun _ code =>
       if code =? "expired" then inl "Unknown Invite" else inr tt;
     generateToken := fun user => inr (String.append "token-of-" user);
     Date_now := 1410227200000;
     LocalTZA := fun _ _ => 0%Z;
     Date_parse := fun s =>
       if s =? "2001-09-09T01:46:40.000Z" then Some 1000000000000%Z
       else if s =? "2001-09-10T01:46:40.000Z" then Some 1000086400000%Z
       else None |}.

Definition open_config : Config :=
  {| register :=
       {| allowNewRegistration := true; disabled := false;
          allowGuests := true; requireCaptcha := false;
          allowMultipleAccounts := true; blockProxies := false;
          email_required := false; dateOfBirth_required := true;
          dateOfBirth_minimum := 13; password_required := false;
          requireInvite := false; guestsRequireInvite := true |};
     captcha := {| enabled := false; sitekey := None; service := None |} |}.

(** The same policies with a minimum age of 300000 years. *)
Definition long_minimum_config : Config :=
  {| register :=
       {| allowNewRegistration := true; disabled := false;
          allowGuests := true; requireCaptcha := false;
          allowMultipleAccounts := true; blockProxies := false;
          email_required := false; dateOfBirth_required := true;
          dateOfBirth_minimum := 300000; password_required := false;
          requireInvite := false; guestsRequireInvite := true |};
     captcha := {| enabled := false; sitekey := None; service := None |} |}.

(** The payload of the precedence scenario: no consent, a short password. *)
Definition no_consent : RegisterSchema :=
  {| username := "x"; password := Some "abc"; consent := false;
     email := Some "x@gmail.com"; fingerprint := None; invite := None;
     date_of_birth := None; captcha_key := None |}.

Definition born (s : string) : RegisterSchema :=
  {| username := "x"; password := Some "wtp9gep9gw"; consent := true;
     email := Some "x@gmail.com"; fingerprint := None; invite := None;
     date_of_birth := Some (dob_text s); captcha_key := None |}.

Definition invited (code : string) : RegisterSchema :=
  {| username := "x"; password := Some "wtp9gep9gw"; consent := true;
     email := Some "x@gmail.com"; fingerprint := None; invite := Some code;
     date_of_birth := Some (dob_text "2001-09-09T01:46:40.000Z");
     captcha_key := None |}.

Definition guest : RegisterSchema :=
  {| username := "x"; password := None; consent := true;
     email := None; fingerprint := None; invite := None;
     date_of_birth := None; captcha_key := None |}.

End Registration.

(* ================================================================== *)
(** * Part III: the other routes of relationships.ts                   *)
(* ================================================================== *)

Module RelationshipRoutes.
Import Relationships.

(** ** [router.get("/")], lines 21-39 *)

(** One entry of the answer: [id] and [type].  [nickname] is always [null]
    and [user] is the public projection of [r.to], the user with id
    [to_id]; both are left out. *)
Record RelatedUser : Set := mkRelatedUser {
  related_id : string;
  related_type : RelationshipType
}.

Definition router_get (req : Request) : M (list RelatedUser) :=
  user <- findOneOrFail (req_user_id req) ;;
  ret (map (fun r => {| related_id := to_id r; related_type := type r |})
           (User_relationships user)).

(** ** [router.post("/")], lines 54-68 *)

(** [req.body.discriminator]: clients send a number or a string. *)
Inductive Discriminator : Set :=
| disc_number (n : nat)
| disc_string (s : string).

(** [String(value)]: a number in decimal, a string as it is. *)
Definition String_of (d : Discriminator) : string :=
  match d with
  | disc_number n => NilZero.string_of_uint (Nat.to_uint n)
  | disc_string s => s
  end.

(** The first [k] characters of [pad] repeated; [cur] is what is left of the
    current copy. *)
Fixpoint pad_fill (pad cur : string) (k : nat) : string :=
  match k with
  | 0 => EmptyString
  | S k' =>
      match cur with
      | String c rest => String c (pad_fill pad rest k')
      | EmptyString =>
          match pad with
          | String c rest => String c (pad_fill pad rest k')
          | EmptyString => EmptyString
          end
      end
  end.

(** [s.padStart(targetLength, padString)] *)
Definition padStart (targetLength : nat) (padString s : string) : string :=
  if (targetLength <=? String.length s)%nat then s
  else String.append
         (pad_fill padString padString (targetLength - String.length s)) s.

(** The columns of the users table that the lookup by handle reads. *)
Record UserRow : Set := mkUserRow {
  row_id : string;
  row_username : string;
  row_discriminator : string
}.

Record PostBody : Set := mkPostBody {
  body_username : string;
  body_discriminator : Discriminator;
  post_type : option RelationshipType
}.

(** How a lookup by handle appears among the database calls. *)
Definition handle (username discriminator : string) : string :=
  String.append username (String.append "#" discriminator).

(** [User.findOneOrFail({ where: { discriminator, username },
    relations: ["relationships"] })] on the users table [directory]. *)
Definition findOneOrFail_where (directory : list UserRow)
    (username discriminator : string) : M User :=
  fun w =>
    let w' := log_call (FindOneOrFail (handle username discriminator)) w in
    match find (fun u => (row_discriminator u =? discriminator)
                         && (row_username u =? username)) directory with
    | Some u =>
        (inr {| User_id := row_id u;
                User_relationships :=
                  filter (fun r => from_id r =? row_id u)
                         (relationships (db w)) |}, w')
    | None => (inl (EntityNotFound (handle username discriminator)), w')
    end.

(** The route.  [req.body.type] is passed as it is; [updateRelationship]
    only compares it with [blocked], so an absent type takes the friend
    path, as [friends] does. *)
Definition router_post (directory : list UserRow) (cfg : Config)
    (caller : string) (body : PostBody) : M nat :=
  friend <- findOneOrFail_where directory (body_username body)
              (padStart 4 "0" (String_of (body_discriminator body))) ;;
  updateRelationship cfg
    {| req_user_id := caller; params_id := EmptyString;
       body_type := post_type body |}
    friend
    (match post_type body with Some t => t | None => friends end).

(** ** Invariants of the reachable stores *)

(** The kind the other side holds: a request sent is a request received. *)
Definition mirror (t : RelationshipType) : RelationshipType :=
  match t with
  | outgoing => incoming
  | incoming => outgoing
  | blocked => blocked
  | friends => friends
  end.

(** Every edge that is not a block has its mirror on the other side. *)
Definition paired (rows : list Relationship) : Prop :=
  forall a b r,
    findEdge rows a b = Some r -> type r <> blocked ->
    exists r', findEdge rows b a = Some r' /\ type r' = mirror (type r).

(** Requests sent and friendships: the edges a user got by asking or by
    accepting. *)
Definition sent_or_friend (r : Relationship) : bool :=
  match type r with
  | outgoing | friends => true
  | incoming | blocked => false
  end.

Definition sent_or_friends (w : World) (owner : string) : nat :=
  List.length (filter sent_or_friend (edges_of w owner)).

Definition b2n (b : bool) : nat := if b then 1 else 0.

(** [U]'s requests sent and friendships, counted on the table. *)
Definition counted (U : string) (r : Relationship) : bool :=
  (from_id r =? U) && sent_or_friend r.

(** Stores the routes can produce under one configuration. *)
Inductive reachable_with (cfg : Config) : World -> Prop :=
| reach_with_empty us : reachable_with cfg (empty_world us)
| reach_with_put req w :
    reachable_with cfg w -> reachable_with cfg (snd (router_put cfg req w))
| reach_with_delete req w :
    reachable_with cfg w -> reachable_with cfg (snd (router_delete req w)).

(** The caller and the target of a request. *)
Definition parties (i : Intent) : string * string :=
  match i with
  | RequestOrAccept A B | Block A B | Remove A B => (A, B)
  end.

(** The events emitted between two worlds. *)
Definition emitted_since (w w' : World) : list Event :=
  skipn (List.length (emitted w)) (emitted w').

(** ** Sample data *)

Definition sample_directory : list UserRow :=
  [ {| row_id := "1"; row_username := "ada"; row_discriminator := "0042" |};
    {| row_id := "2"; row_username := "bob"; row_discriminator := "0007" |};
    {| row_id := "3"; row_username := "bob"; row_discriminator := "1234" |} ].

End RelationshipRoutes.

(* ================================================================== *)
(** * Part II, continued: policies of the /auth/register route         *)
(* ================================================================== *)

Module RegistrationPolicies.
Import Registration.

(** The configuration with [register.guestsRequireInvite] set to [b]. *)
Definition with_guestsRequireInvite (cfg : Config) (b : bool) : Config :=
  {| register :=
       {| allowNewRegistration := allowNewRegistration (register cfg);
          disabled := disabled (register cfg);
          allowGuests := allowGuests (register cfg);
          requireCaptcha := requireCaptcha (register cfg);
          allowMultipleAccounts := allowMultipleAccounts (register cfg);
          blockProxies := blockProxies (register cfg);
          email_required := email_required (register cfg);
          dateOfBirth_required := dateOfBirth_required (register cfg);
          dateOfBirth_minimum := dateOfBirth_minimum (register cfg);
          password_required := password_required (register cfg);
          requireInvite := requireInvite (register cfg);
          guestsRequireInvite := b |};
     captcha := captcha (cfg) |}.

(** What the configuration must allow for a call to be made. *)
Definition configured (cfg : Config) (c : Call) : Prop :=
  match c with
  | call_verifyCaptcha _ _ =>
      requireCaptcha (register cfg) = true /\ enabled (captcha cfg) = true
  | call_findOne_fingerprints _ =>
      allowMultipleAccounts (register cfg) = false
  | call_IPAnalysis _ => blockProxies (register cfg) = true
  | _ => True
  end.

(** A step of the handler that creates no account. *)
Definition keeps_accounts {A : Type} (m : M A) : Prop :=
  forall w r w1, m w = (r, w1) -> accounts w1 = accounts w.

(** A step of the handler whose calls are all allowed by [cfg]. *)
Definition calls_configured {A : Type} (cfg : Config) (m : M A) : Prop :=
  forall w r w1, m w = (r, w1) ->
    forall c, In c (calls w1) -> In c (calls w) \/ configured cfg c.

(** A step of the handler that can only end early in a way [P] allows. *)
Definition exits_in {A : Type} (P : Exit -> Prop) (m : M A) : Prop :=
  forall w x w1, m w = (inl x, w1) -> P x.

(** The field errors of the route, by field and code, in the order of the
    source; the one of line 99 is left out. *)
Definition field_errors : list (string * string) :=
  [("email", "REGISTRATION_DISABLED"); ("consent", "CONSENT_REQUIRED");
   ("email", "DISABLED"); ("email", "GUESTS_DISABLED");
   ("email", "EMAIL_ALREADY_REGISTERED"); ("email", "BASE_TYPE_REQUIRED");
   ("date_of_birth", "BASE_TYPE_REQUIRED");
   ("date_of_birth", "DATE_OF_BIRTH_UNDERAGE");
   ("password", "BASE_TYPE_REQUIRED"); ("email", "INVITE_ONLY")].

(** The calls the route awaits. *)
Definition awaited : list string :=
  ["verifyCaptcha"; "User.findOne"; "IPAnalysis"; "bcrypt.hash";
   "User.register"; "Invite.joinGuild"; "generateToken"].

Definition listed_exit (cfg : Config) (x : Exit) : Prop :=
  match x with
  | Threw (FieldErrors field code _) => In (field, code) field_errors
  | Threw (HTTPError m) => m = "Your IP is blocked from registration"
  | Threw (Rejected callee _) => In callee awaited
  | Status400 json =>
      captcha_sitekey json = sitekey (captcha cfg) /\
      captcha_service json = service (captcha cfg) /\
      requireCaptcha (register cfg) = true /\ enabled (captcha cfg) = true
  end.

(** A configuration that requires a captcha, and a refusing verifier. *)
Definition captcha_config : Config :=
  {| register :=
       {| allowNewRegistration := true; disabled := false;
          allowGuests := true; requireCaptcha := true;
          allowMultipleAccounts := true; blockProxies := false;
          email_required := false; dateOfBirth_required := true;
          dateOfBirth_minimum := 13; password_required := false;
          requireInvite := true; guestsRequireInvite := false |};
     captcha := {| enabled := true; sitekey := Some "site-key";
                   service := Some "hcaptcha" |} |}.

Definition no_guests_config : Config :=
  {| register :=
       {| allowNewRegistration := true; disabled := false;
          allowGuests := false; requireCaptcha := false;
          allowMultipleAccounts := true; blockProxies := false;
          email_required := false; dateOfBirth_required := false;
          dateOfBirth_minimum := 0; password_required := false;
          requireInvite := false; guestsRequireInvite := false |};
     captcha := {| enabled := false; sitekey := None; service := None |} |}.

End RegistrationPolicies.

(* ================================================================== *)
(** * Part I, theory: the relationship table                           *)
(* ================================================================== *)

Module RelationshipTable.
Import Relationships.

Lemma matches_iff owner other r :
  matches owner other r = true <-> from_id r = owner /\ to_id r = other.
Proof.
  unfold matches. rewrite andb_true_iff, !String.eqb_eq. tauto.
Qed.

Lemma matches_key owner other r :
  matches owner other r = true <-> key r = (owner, other).
Proof.
  rewrite matches_iff. unfold key. split.
  - intros [-> ->]. reflexivity.
  - intros H. inversion H. auto.
Qed.

Lemma matches_with_type owner other r t :
  matches owner other (with_type r t) = matches owner other r.
Proof. reflexivity. Qed.

Lemma findEdge_unfold rows owner other :
  findEdge rows owner other = find (matches owner other) rows.
Proof. reflexivity. Qed.

(** [user.relationships.find(x => x.to_id === other)] on the rows loaded for
    [owner] is the table lookup [findEdge]. *)
Lemma find_loaded rows owner other :
  find (fun x => to_id x =? other)
       (filter (fun r => from_id r =? owner) rows)
  = findEdge rows owner other.
Proof.
  unfold findEdge, matches. induction rows as [|x rows IH]; simpl; auto.
  destruct (from_id x =? owner); simpl; auto.
  destruct (to_id x =? other); auto.
Qed.

Lemma findEdge_Some rows owner other r :
  findEdge rows owner other = Some r ->
  In r rows /\ from_id r = owner /\ to_id r = other.
Proof.
  intros H. apply find_some in H. destruct H as [Hin Hm].
  apply matches_iff in Hm. tauto.
Qed.

Lemma findEdge_None rows owner other r :
  findEdge rows owner other = None -> In r rows -> matches owner other r = false.
Proof.
  intros H Hin. exact (find_none _ _ H r Hin).
Qed.

Lemma In_map_key r rows : In r rows -> In (key r) (map key rows).
Proof. apply in_map. Qed.

(** With one row per pair, membership is lookup. *)
Lemma findEdge_In rows r :
  NoDup (map key rows) -> In r rows ->
  findEdge rows (from_id r) (to_id r) = Some r.
Proof.
  unfold findEdge. induction rows as [|x rows IH]; simpl; intros Hnd Hin.
  - contradiction.
  - inversion Hnd as [|? ? Hnotin Hnd']; subst.
    destruct Hin as [->|Hin].
    + replace (matches (from_id r) (to_id r) r) with true; auto.
      symmetry. apply matches_iff. auto.
    + destruct (matches (from_id r) (to_id r) x) eqn:Hm.
      * apply matches_key in Hm. exfalso. apply Hnotin.
        rewrite Hm. apply (In_map_key r rows Hin).
      * auto.
Qed.

Lemma wf_mono n m rows : wf n rows -> n <= m -> wf m rows.
Proof.
  intros [H1 H2 H3] Hle. split; auto.
  eapply Forall_impl; [|exact H2]. simpl. intros. lia.
Qed.

Lemma wf_nil n : wf n [].
Proof. split; simpl; constructor. Qed.

(** *** Insert: [save] of an entity whose primary key is fresh *)

Lemma existsb_fresh n i rows r :
  Forall (fun x => id x < n) rows -> n <= i -> id r = i ->
  existsb (fun x => (id x =? id r)%nat) rows = false.
Proof.
  intros HF Hle Hid. induction HF as [|x l Hx HF IH]; simpl; auto.
  rewrite IH, orb_false_r. apply Nat.eqb_neq. lia.
Qed.

Lemma save_rows_fresh n rows r :
  Forall (fun x => id x < n) rows -> n <= id r ->
  save_rows r rows = rows ++ [r].
Proof.
  intros HF Hle. unfold save_rows.
  rewrite (existsb_fresh n (id r) rows r); auto.
Qed.

Lemma findEdge_app rows r owner other :
  findEdge (rows ++ [r]) owner other =
  match findEdge rows owner other with
  | Some x => Some x
  | None => if matches owner other r then Some r else None
  end.
Proof.
  unfold findEdge. induction rows as [|x rows IH]; simpl; auto.
  destruct (matches owner other x); auto.
Qed.

Lemma save_new_spec n rows r :
  wf n rows -> n <= id r ->
  findEdge rows (from_id r) (to_id r) = None ->
  wf (S (id r)) (save_rows r rows) /\
  forall owner other,
    findEdge (save_rows r rows) owner other =
    if matches owner other r then Some r else findEdge rows owner other.
Proof.
  intros [Hids Hfresh Hkeys] Hle Hnone.
  rewrite (save_rows_fresh n); auto. split.
  - split.
    + rewrite map_app. simpl.
      apply NoDup_app; auto.
      * constructor; [intros []|constructor].
      * intros i Hi [Hj|[]]. subst i.
        apply in_map_iff in Hi. destruct Hi as [x [Hx Hin]].
        rewrite Forall_forall in Hfresh. specialize (Hfresh x Hin). lia.
    + apply Forall_app. split.
      * eapply Forall_impl; [|exact Hfresh]. simpl. intros. lia.
      * constructor; auto.
    + rewrite map_app. simpl.
      apply NoDup_app; auto.
      * constructor; [intros []|constructor].
      * intros k Hk [Hj|[]]. subst k.
        apply in_map_iff in Hk. destruct Hk as [x [Hx Hin]].
        pose proof (findEdge_None _ _ _ x Hnone Hin) as Hm.
        assert (matches (from_id r) (to_id r) x = true) as Hm'.
        { apply matches_key. exact Hx. }
        congruence.
  - intros owner other. rewrite findEdge_app.
    destruct (matches owner other r) eqn:Hm.
    + apply matches_iff in Hm. destruct Hm as [<- <-]. rewrite Hnone. auto.
    + destruct (findEdge rows owner other); auto.
Qed.

(** *** Update: [save] of a loaded row whose [type] was reassigned *)

Lemma replace_absent (r' : Relationship) pk rows :
  ~ In pk (map id rows) ->
  map (fun x => if (id x =? pk)%nat then r' else x) rows = rows.
Proof.
  induction rows as [|x rows IH]; simpl; intros Hn; auto.
  destruct (Nat.eqb_spec (id x) pk) as [E|E].
  - exfalso. apply Hn. auto.
  - rewrite IH; auto.
Qed.

Lemma existsb_present r pk rows :
  In r rows -> id r = pk ->
  existsb (fun x => (id x =? pk)%nat) rows = true.
Proof.
  intros Hin E. apply existsb_exists. exists r. split; auto.
  apply Nat.eqb_eq. exact E.
Qed.

(** Replacing the row with primary key [id r] by [r'], which has the same
    primary key and the same pair. *)
Lemma replace_spec rows r r' :
  NoDup (map id rows) -> NoDup (map key rows) -> In r rows ->
  id r' = id r -> key r' = key r ->
  let rows' := map (fun x => if (id x =? id r)%nat then r' else x) rows in
  map id rows' = map id rows /\
  map key rows' = map key rows /\
  forall owner other,
    findEdge rows' owner other =
    if matches owner other r then Some r' else findEdge rows owner other.
Proof.
  intros Hids Hkeys Hin Eid Ekey. simpl.
  assert (Hsame : forall y, In y rows -> id y = id r -> y = r).
  { clear -Hids Hin. induction rows as [|z rows IH]; [contradiction|].
    simpl in Hids. inversion Hids as [|? ? Hz Hids']; subst.
    intros y Hy Ey. destruct Hin as [->|Hin]; destruct Hy as [->|Hy]; auto.
    - exfalso. apply Hz. rewrite <- Ey. apply in_map. exact Hy.
    - exfalso. apply Hz. rewrite Ey. apply in_map. exact Hin. }
  split; [|split].
  - rewrite map_map. apply map_ext_in. intros y Hy.
    destruct (Nat.eqb_spec (id y) (id r)); congruence.
  - rewrite map_map. apply map_ext_in. intros y Hy.
    destruct (Nat.eqb_spec (id y) (id r)) as [Ey|Ey]; auto.
    rewrite (Hsame y Hy Ey). exact Ekey.
  - intros owner other. unfold findEdge.
    assert (Hm' : matches owner other r' = matches owner other r).
    { unfold matches. unfold key in Ekey. inversion Ekey as [[E1 E2]].
      reflexivity. }
    clear Hsame. induction rows as [|x rows IH]; [contradiction|].
    simpl in Hids, Hkeys.
    inversion Hids as [|? ? Hxid Hids']; subst.
    inversion Hkeys as [|? ? Hxkey Hkeys']; subst.
    simpl. destruct (Nat.eqb_spec (id x) (id r)) as [E|E].
    + assert (x = r) as ->.
      { destruct Hin as [->|Hin]; auto. exfalso. apply Hxid. rewrite E.
        apply in_map. exact Hin. }
      rewrite (replace_absent _ _ _ Hxid). rewrite Hm'.
      destruct (matches owner other r); auto.
    + destruct Hin as [->|Hin]; [congruence|].
      destruct (matches owner other x) eqn:Hmx.
      * destruct (matches owner other r) eqn:Hmr; auto.
        exfalso. apply Hxkey.
        apply matches_key in Hmx. apply matches_key in Hmr.
        rewrite Hmx, <- Hmr. apply in_map. exact Hin.
      * apply IH; auto.
Qed.

Lemma save_existing_spec n rows r t :
  wf n rows -> findEdge rows (from_id r) (to_id r) = Some r ->
  wf n (save_rows (with_type r t) rows) /\
  forall owner other,
    findEdge (save_rows (with_type r t) rows) owner other =
    if matches owner other r then Some (with_type r t)
    else findEdge rows owner other.
Proof.
  intros [Hids Hfresh Hkeys] Hfind.
  apply findEdge_Some in Hfind. destruct Hfind as [Hin _].
  unfold save_rows. rewrite (existsb_present r (id (with_type r t)) rows Hin eq_refl).
  change (id (with_type r t)) with (id r).
  destruct (replace_spec rows r (with_type r t) Hids Hkeys Hin eq_refl eq_refl)
    as [E1 [E2 E3]].
  split; [split|exact E3].
  - rewrite E1. exact Hids.
  - rewrite Forall_forall in *. intros y Hy.
    apply in_map_iff in Hy. destruct Hy as [x [Hx Hxin]].
    destruct (id x =? id r)%nat; subst y.
    + exact (Hfresh r Hin).
    + exact (Hfresh x Hxin).
  - rewrite E2. exact Hkeys.
Qed.

(** *** Delete by primary key *)

Lemma delete_absent pk rows :
  ~ In pk (map id rows) -> delete_rows pk rows = rows.
Proof.
  unfold delete_rows. induction rows as [|x rows IH]; simpl; intros Hn; auto.
  destruct (Nat.eqb_spec (id x) pk) as [E|E]; simpl.
  - exfalso. apply Hn. auto.
  - rewrite IH; auto.
Qed.

Lemma NoDup_map_filter {A B : Type} (f : A -> B) (p : A -> bool) l :
  NoDup (map f l) -> NoDup (map f (filter p l)).
Proof.
  induction l as [|x l IH]; simpl; intros Hnd; [constructor|].
  inversion Hnd as [|? ? Hx Hnd']; subst.
  destruct (p x); simpl; auto.
  constructor; auto.
  intros Hin. apply Hx. apply in_map_iff in Hin.
  destruct Hin as [y [Hy Hyin]]. apply filter_In in Hyin.
  rewrite <- Hy. apply in_map. tauto.
Qed.

Lemma findEdge_absent rows owner other r :
  ~ In (key r) (map key rows) -> matches owner other r = true ->
  findEdge rows owner other = None.
Proof.
  intros Hn Hm. unfold findEdge.
  destruct (find (matches owner other) rows) as [y|] eqn:E; auto.
  apply find_some in E. destruct E as [Hin Hy].
  exfalso. apply Hn. apply matches_key in Hm. apply matches_key in Hy.
  rewrite Hm, <- Hy. apply in_map. exact Hin.
Qed.

Lemma delete_spec n rows r :
  wf n rows -> findEdge rows (from_id r) (to_id r) = Some r ->
  wf n (delete_rows (id r) rows) /\
  forall owner other,
    findEdge (delete_rows (id r) rows) owner other =
    if matches owner other r then None else findEdge rows owner other.
Proof.
  intros [Hids Hfresh Hkeys] Hfind.
  apply findEdge_Some in Hfind. destruct Hfind as [Hin _].
  split.
  - unfold delete_rows. split.
    + apply NoDup_map_filter. exact Hids.
    + rewrite Forall_forall in *. intros y Hy. apply filter_In in Hy.
      apply Hfresh. tauto.
    + apply NoDup_map_filter. exact Hkeys.
  - intros owner other. clear n Hfresh.
    induction rows as [|x rows IH]; [contradiction|].
    simpl in Hids, Hkeys.
    inversion Hids as [|? ? Hxid Hids']; subst.
    inversion Hkeys as [|? ? Hxkey Hkeys']; subst.
    change (delete_rows (id r) (x :: rows))
      with (if negb (id x =? id r)%nat
            then x :: delete_rows (id r) rows else delete_rows (id r) rows).
    destruct (Nat.eqb_spec (id x) (id r)) as [E|E]; simpl.
    + assert (x = r) as ->.
      { destruct Hin as [->|Hin]; auto. exfalso. apply Hxid. rewrite E.
        apply in_map. exact Hin. }
      rewrite (delete_absent _ _ Hxid).
      unfold findEdge at 2. simpl.
      destruct (matches owner other r) eqn:Hm; auto.
      apply (findEdge_absent rows owner other r Hxkey Hm).
    + destruct Hin as [->|Hin]; [congruence|].
      unfold findEdge at 1 2. simpl.
      destruct (matches owner other x) eqn:Hmx.
      * destruct (matches owner other r) eqn:Hmr; auto.
        exfalso. apply Hxkey.
        apply matches_key in Hmx. apply matches_key in Hmr.
        rewrite Hmx, <- Hmr. apply in_map. exact Hin.
      * apply IH; auto.
Qed.

End RelationshipTable.

(* ================================================================== *)
(** * Part I, theory: the handlers                                     *)
(* ================================================================== *)

Module Engine.
Import Relationships RelationshipTable.

Arguments findEdge : simpl never.
Arguments save_rows : simpl never.
Arguments delete_rows : simpl never.

(** Unfold a handler down to the primitives and compute. *)
Ltac run :=
  unfold perform, block, requestOrAccept, remove, router_put, router_delete,
    updateRelationship, bind, findOneOrFail, save, delete, emitEvent,
    new_Relationship, ret, throw, log_call, set_rows; cbn.

Ltac open_world w :=
  let us := fresh "us" in let rows := fresh "rows" in
  let n := fresh "n" in let ev := fresh "ev" in let cs := fresh "cs" in
  destruct w as [[us rows] n ev cs]; unfold is_user, edge in *; cbn in *.

(** ** Local updates of the table *)

Lemma matches_self A B r :
  from_id r = A -> to_id r = B -> matches A B r = true.
Proof. intros. apply matches_iff. auto. Qed.

Lemma matches_swap A B r :
  A <> B -> from_id r = A -> to_id r = B -> matches B A r = false.
Proof.
  intros Hne H1 H2. destruct (matches B A r) eqn:E; auto.
  apply matches_iff in E. destruct E. congruence.
Qed.

Lemma matches_other A B a b r :
  from_id r = A -> to_id r = B -> ~ (a = A /\ b = B) ->
  matches a b r = false.
Proof.
  intros H1 H2 Hn. destruct (matches a b r) eqn:E; auto.
  apply matches_iff in E. destruct E. exfalso. apply Hn. split; congruence.
Qed.

Lemma edges_updated_refl rows A B :
  edges_updated rows rows A B (findEdge rows A B) (findEdge rows B A).
Proof. repeat split. Qed.

Lemma edges_updated_sym rows rows' A B x y :
  edges_updated rows rows' A B x y -> edges_updated rows rows' B A y x.
Proof.
  intros [H1 [H2 H3]]. repeat split; auto.
Qed.

Lemma edges_updated_trans rows rows1 rows2 A B x y x' y' :
  edges_updated rows rows1 A B x y ->
  edges_updated rows1 rows2 A B x' y' ->
  edges_updated rows rows2 A B x' y'.
Proof.
  intros [H1 [H2 H3]] [K1 [K2 K3]]. repeat split; auto.
  intros a b Ha Hb. rewrite K3, H3; auto.
Qed.

(** An update of the row found for (A, B). *)
Lemma save_found n rows A B r t :
  wf n rows -> A <> B -> findEdge rows A B = Some r ->
  wf n (save_rows (with_type r t) rows) /\
  edges_updated rows (save_rows (with_type r t) rows) A B
    (Some (with_type r t)) (findEdge rows B A).
Proof.
  intros Hwf Hne Hr. destruct (findEdge_Some _ _ _ _ Hr) as [_ [E1 E2]].
  assert (Hr' : findEdge rows (from_id r) (to_id r) = Some r) by congruence.
  destruct (save_existing_spec n rows r t Hwf Hr') as [W E].
  split; auto. repeat split.
  - rewrite E, (matches_self A B r); auto.
  - rewrite E, (matches_swap A B r); auto.
  - intros a b Ha _. rewrite E, (matches_other A B a b r); auto.
Qed.

(** An insert for (A, B), where no row was found. *)
Lemma save_missing n i rows A B t :
  wf n rows -> A <> B -> n <= i -> findEdge rows A B = None ->
  let r := {| id := i; from_id := A; to_id := B; type := t |} in
  wf (S i) (save_rows r rows) /\
  edges_updated rows (save_rows r rows) A B (Some r) (findEdge rows B A).
Proof.
  intros Hwf Hne Hle Hr r.
  destruct (save_new_spec n rows r Hwf Hle Hr) as [W E].
  split; auto. repeat split.
  - rewrite E, (matches_self A B r); auto.
  - rewrite E, (matches_swap A B r); auto.
  - intros a b Ha _. rewrite E, (matches_other A B a b r); auto.
Qed.

(** A delete of the row found for (A, B). *)
Lemma delete_found n rows A B r :
  wf n rows -> A <> B -> findEdge rows A B = Some r ->
  wf n (delete_rows (id r) rows) /\
  edges_updated rows (delete_rows (id r) rows) A B None (findEdge rows B A).
Proof.
  intros Hwf Hne Hr. destruct (findEdge_Some _ _ _ _ Hr) as [_ [E1 E2]].
  assert (Hr' : findEdge rows (from_id r) (to_id r) = Some r) by congruence.
  destruct (delete_spec n rows r Hwf Hr') as [W E].
  split; auto. repeat split.
  - rewrite E, (matches_self A B r); auto.
  - rewrite E, (matches_swap A B r); auto.
  - intros a b Ha _. rewrite E, (matches_other A B a b r); auto.
Qed.

(** A local update keeps [hides] when the two edges it leaves agree on being
    blocks. *)
Lemma hides_updated rows rows' A B eAB eBA :
  hides rows -> edges_updated rows rows' A B eAB eBA ->
  (forall r r', eAB = Some r -> eBA = Some r' ->
                (type r = blocked <-> type r' = blocked)) ->
  hides rows'.
Proof.
  intros Hh [H1 [H2 H3]] Hloc a b x x' Hx Hb Hx'.
  destruct (string_dec a A) as [EA|NA]; destruct (string_dec b B) as [EB|NB];
    destruct (string_dec a B) as [EA'|NA']; destruct (string_dec b A) as [EB'|NB'];
    subst;
    try (rewrite H1 in Hx); try (rewrite H2 in Hx');
    try (rewrite H2 in Hx); try (rewrite H1 in Hx');
    try (apply (Hloc _ _ Hx Hx'); exact Hb);
    try (apply (Hloc _ _ Hx' Hx); exact Hb);
    try (rewrite H3 in Hx by tauto; rewrite H3 in Hx' by tauto;
         exact (Hh _ _ _ _ Hx Hb Hx')).
Qed.

(** ** [block] *)

(** Blocking again: lines 134-135. *)
Lemma block_again cfg A B w r :
  is_user w A -> is_user w B -> A <> B ->
  findEdge (relationships (db w)) A B = Some r -> type r = blocked ->
  block cfg A B w =
  (inl AlreadyBlocked,
   {| db := db w; snowflake := snowflake w; emitted := emitted w;
      calls := calls w ++ [FindOneOrFail B; FindOneOrFail A] |}).
Proof.
  intros HA HB Hne Hr Ht. open_world w. run.
  rewrite HB. cbn. destruct (String.eqb_spec B A) as [E|E]; [congruence|]. cbn.
  rewrite HA. cbn. rewrite !find_loaded, Hr, Ht. cbn.
  rewrite <- app_assoc. reflexivity.
Qed.

(** A first block: lines 133-161. *)
Lemma block_ok cfg A B w :
  consistent w -> is_user w A -> is_user w B -> A <> B ->
  (forall r, findEdge (relationships (db w)) A B = Some r ->
             type r <> blocked) ->
  exists w' rb,
    block cfg A B w = (inr 204, w') /\
    consistent w' /\ users (db w') = users (db w) /\
    from_id rb = A /\ to_id rb = B /\ type rb = blocked /\
    edges_updated (relationships (db w)) (relationships (db w')) A B
      (Some rb) (kept_block (findEdge (relationships (db w)) B A)) /\
    emitted w' =
      emitted w ++ removal B (findEdge (relationships (db w)) B A) ++
      [{| event := RELATIONSHIP_ADD; user_id := A; data := rb;
          should_notify := false |}].
Proof.
  intros [Hwf Hh] HA HB Hne Hnb. open_world w. run.
  assert (Hne' : B <> A) by congruence.
  rewrite HB. cbn. destruct (String.eqb_spec B A) as [E|_]; [congruence|]. cbn.
  rewrite HA. cbn. rewrite !find_loaded.
  unfold kept_block, removal, is_blocked.
  destruct (findEdge rows A B) as [r|] eqn:Hr.
  - destruct (save_found n rows A B r blocked Hwf Hne Hr) as [W1 U1].
    destruct (findEdge_Some _ _ _ _ Hr) as [_ [F T]].
    specialize (Hnb r eq_refl).
    destruct (findEdge rows B A) as [fr|] eqn:Hfr.
    + assert (Hfr1 : findEdge (save_rows (with_type r blocked) rows) B A
                     = Some fr) by apply U1.
      destruct (delete_found n _ B A fr W1 Hne' Hfr1) as [W2 U2].
      replace (findEdge (save_rows (with_type r blocked) rows) A B)
        with (Some (with_type r blocked)) in U2 by (symmetry; apply U1).
      pose proof (edges_updated_trans _ _ _ _ _ _ _ _ _ U1
                    (edges_updated_sym _ _ _ _ _ _ U2)) as U.
      destruct (type r) eqn:Ht; try congruence;
        destruct (type fr) eqn:Hf; cbn;
        eexists _, (with_type r blocked);
        (split; [reflexivity|]); cbn; rewrite <- ?app_assoc;
        (split; [constructor; cbn|repeat split; auto; apply U || apply U1]);
        first [ exact W2 | exact W1
              | eapply hides_updated; [exact Hh|exact U|]; intros ? ? _ [=]
              | eapply hides_updated; [exact Hh|exact U1|];
                intros r1 r2 [= <-] [= <-]; cbn; tauto ].
    + destruct (type r) eqn:Ht; try congruence; cbn;
        eexists _, (with_type r blocked);
        (split; [reflexivity|]); cbn; rewrite <- ?app_assoc;
        (split; [constructor; cbn|repeat split; auto; apply U1]);
        first [ exact W1
              | eapply hides_updated; [exact Hh|exact U1|]; intros ? ? _ [=] ].
  - destruct (save_missing n n rows A B blocked Hwf Hne (le_n n) Hr) as [W1 U1].
    cbn in W1, U1.
    destruct (findEdge rows B A) as [fr|] eqn:Hfr.
    + match type of U1 with edges_updated _ ?rows1 _ _ _ _ =>
        assert (Hfr1 : findEdge rows1 B A = Some fr) by apply U1 end.
      destruct (delete_found (S n) _ B A fr W1 Hne' Hfr1) as [W2 U2].
      match type of U2 with edges_updated _ _ _ _ _ ?x =>
        replace x with (Some {| id := n; from_id := A; to_id := B;
                                type := blocked |}) in U2
          by (symmetry; apply U1) end.
      pose proof (edges_updated_trans _ _ _ _ _ _ _ _ _ U1
                    (edges_updated_sym _ _ _ _ _ _ U2)) as U.
      destruct (type fr) eqn:Hf; cbn;
        eexists _, {| id := n; from_id := A; to_id := B; type := blocked |};
        (split; [reflexivity|]); cbn; rewrite <- ?app_assoc;
        (split; [constructor; cbn|repeat split; auto; apply U || apply U1]);
        first [ exact W2 | exact W1
              | eapply hides_updated; [exact Hh|exact U|]; intros ? ? _ [=]
              | eapply hides_updated; [exact Hh|exact U1|];
                intros r1 r2 [= <-] [= <-]; cbn; tauto ].
    + cbn. eexists _, {| id := n; from_id := A; to_id := B; type := blocked |}.
      split; [reflexivity|]. cbn.
      split; [constructor; cbn|repeat split; auto; apply U1].
      * exact W1.
      * eapply hides_updated; [exact Hh|exact U1|]. intros ? ? _ [=].
Qed.

(** ** [requestOrAccept] *)

(** Any type other than [blocked] takes the friend path of lines 164-214. *)
Lemma router_put_friend_path cfg A B t w :
  t <> blocked ->
  router_put cfg {| req_user_id := A; params_id := B; body_type := Some t |} w
  = requestOrAccept cfg A B w.
Proof.
  intros Ht. unfold requestOrAccept, router_put, updateRelationship. cbn.
  destruct t; try congruence; reflexivity.
Qed.

(** The cap of lines 164-165: it compares the number of rows loaded for the
    caller, whatever their kind. *)
Lemma request_at_cap cfg A B w :
  is_user w A -> is_user w B -> A <> B ->
  maxFriends cfg <= List.length (edges_of w A) ->
  requestOrAccept cfg A B w =
  (inl (MAXIMUM_FRIENDS (maxFriends cfg)),
   {| db := db w; snowflake := snowflake w; emitted := emitted w;
      calls := calls w ++ [FindOneOrFail B; FindOneOrFail A] |}).
Proof.
  intros HA HB Hne Hcap. unfold edges_of in Hcap. open_world w. run.
  rewrite HB. cbn. destruct (String.eqb_spec B A) as [E|E]; [congruence|]. cbn.
  rewrite HA. cbn.
  destruct (Nat.leb_spec (maxFriends cfg)
              (List.length (filter (fun r => from_id r =? A) rows))); [|lia].
  cbn. rewrite <- app_assoc. reflexivity.
Qed.

(** A request or an acceptance that passes every guard: lines 167-214. *)
Lemma request_ok cfg A B w :
  consistent w -> is_user w A -> is_user w B -> A <> B ->
  List.length (edges_of w A) < maxFriends cfg ->
  (forall fr, findEdge (relationships (db w)) B A = Some fr ->
              type fr = outgoing \/ type fr = incoming) ->
  (forall r, findEdge (relationships (db w)) A B = Some r ->
             type r = incoming) ->
  let ri := match findEdge (relationships (db w)) B A with
            | Some fr => with_type fr friends
            | None => {| id := snowflake w; from_id := B; to_id := A;
                         type := incoming |}
            end in
  let ro := match findEdge (relationships (db w)) A B with
            | Some r => with_type r friends
            | None => {| id := S (snowflake w); from_id := A; to_id := B;
                         type := outgoing |}
            end in
  exists w',
    requestOrAccept cfg A B w = (inr 204, w') /\
    consistent w' /\ users (db w') = users (db w) /\
    relationships (db w') = save_rows ro (save_rows ri (relationships (db w))) /\
    edges_updated (relationships (db w)) (relationships (db w')) A B
      (Some ro) (Some ri) /\
    emitted w' =
      emitted w ++
      [{| event := RELATIONSHIP_ADD; user_id := A; data := ro;
          should_notify := false |};
       {| event := RELATIONSHIP_ADD; user_id := B; data := ri;
          should_notify := true |}].
Proof.
  intros [Hwf Hh] HA HB Hne Hcap Hfr Hr. unfold edges_of in Hcap.
  open_world w. run.
  assert (Hne' : B <> A) by congruence.
  rewrite HB. cbn. destruct (String.eqb_spec B A) as [E|_]; [congruence|]. cbn.
  rewrite HA. cbn. rewrite !find_loaded.
  destruct (Nat.leb_spec (maxFriends cfg)
              (List.length (filter (fun r => from_id r =? A) rows))); [lia|].
  cbn.
  (* the edge of B toward A *)
  assert (H1 : exists n1,
             n1 <= S n /\
             wf n1 (save_rows
                      match findEdge rows B A with
                      | Some fr => with_type fr friends
                      | None => {| id := n; from_id := B; to_id := A;
                                   type := incoming |}
                      end rows) /\
             edges_updated rows
               (save_rows
                  match findEdge rows B A with
                  | Some fr => with_type fr friends
                  | None => {| id := n; from_id := B; to_id := A;
                               type := incoming |}
                  end rows) B A
               (Some match findEdge rows B A with
                     | Some fr => with_type fr friends
                     | None => {| id := n; from_id := B; to_id := A;
                                  type := incoming |}
                     end) (findEdge rows A B)).
  { destruct (findEdge rows B A) as [fr|] eqn:Efr.
    - exists n. split; [lia|]. apply (save_found n rows B A fr friends); auto.
    - exists (S n). split; [lia|].
      apply (save_missing n n rows B A incoming); auto. }
  destruct H1 as [n1 [Hn1 [W1 U1]]].
  set (ri := match findEdge rows B A with
             | Some fr => with_type fr friends
             | None => {| id := n; from_id := B; to_id := A; type := incoming |}
             end) in *.
  (* the edge of A toward B *)
  assert (HAB1 : findEdge (save_rows ri rows) A B = findEdge rows A B)
    by exact (proj1 (proj2 U1)).
  assert (HBA1 : findEdge (save_rows ri rows) B A = Some ri)
    by exact (proj1 U1).
  assert (H2 : wf (S (S n))
                 (save_rows
                    match findEdge rows A B with
                    | Some r => with_type r friends
                    | None => {| id := S n; from_id := A; to_id := B;
                                 type := outgoing |}
                    end (save_rows ri rows)) /\
               edges_updated (save_rows ri rows)
                 (save_rows
                    match findEdge rows A B with
                    | Some r => with_type r friends
                    | None => {| id := S n; from_id := A; to_id := B;
                                 type := outgoing |}
                    end (save_rows ri rows)) A B
                 (Some match findEdge rows A B with
                       | Some r => with_type r friends
                       | None => {| id := S n; from_id := A; to_id := B;
                                    type := outgoing |}
                       end) (Some ri)).
  { rewrite <- HBA1. destruct (findEdge rows A B) as [r|] eqn:Er.
    - destruct (save_found n1 _ A B r friends W1 Hne HAB1) as [W U].
      split; [eapply wf_mono; [exact W|lia]|exact U].
    - apply (save_missing n1 (S n) _ A B outgoing); auto. }
  destruct H2 as [W2 U2].
  set (ro := match findEdge rows A B with
             | Some r => with_type r friends
             | None => {| id := S n; from_id := A; to_id := B;
                          type := outgoing |}
             end) in *.
  pose proof (edges_updated_trans _ _ _ _ _ _ _ _ _
                (edges_updated_sym _ _ _ _ _ _ U1) U2) as U.
  assert (Hloc : forall r r', Some ro = Some r -> Some ri = Some r' ->
                              (type r = blocked <-> type r' = blocked)).
  { intros r r' [= <-] [= <-]. subst ro ri.
    destruct (findEdge rows A B); destruct (findEdge rows B A); cbn;
      split; discriminate. }
  assert (Hgoal : forall w', w' =
            {| db := {| users := us; relationships := save_rows ro (save_rows ri rows) |};
               snowflake := S (S n);
               emitted := ev ++
                 [{| event := RELATIONSHIP_ADD; user_id := A; data := ro;
                     should_notify := false |};
                  {| event := RELATIONSHIP_ADD; user_id := B; data := ri;
                     should_notify := true |}];
               calls := cs ++ [FindOneOrFail B; FindOneOrFail A; Save ri; Save ro] |} ->
            consistent w' /\ users (db w') = us /\
            relationships (db w') = save_rows ro (save_rows ri rows) /\
            edges_updated rows (relationships (db w')) A B (Some ro) (Some ri) /\
            emitted w' = ev ++
                 [{| event := RELATIONSHIP_ADD; user_id := A; data := ro;
                     should_notify := false |};
                  {| event := RELATIONSHIP_ADD; user_id := B; data := ri;
                     should_notify := true |}]).
  { intros w' ->. cbn. split; [constructor; cbn|auto].
    - exact W2.
    - eapply hides_updated; [exact Hh|exact U|exact Hloc]. }
  eexists. split; [|apply Hgoal; reflexivity].
  subst ro ri.
  destruct (findEdge rows B A) as [fr|] eqn:Efr;
    [destruct (Hfr fr eq_refl) as [Et|Et]; rewrite Et|];
    (destruct (findEdge rows A B) as [r|] eqn:Er;
     [rewrite (Hr r eq_refl)|]); cbn; rewrite <- ?app_assoc; reflexivity.
Qed.

(** ** [remove] *)

(** Nothing to remove: line 80. *)
Lemma remove_missing A B w :
  is_user w A -> is_user w B -> A <> B ->
  findEdge (relationships (db w)) A B = None ->
  remove A B w =
  (inl NotRelated,
   {| db := db w; snowflake := snowflake w; emitted := emitted w;
      calls := calls w ++ [FindOneOrFail A; FindOneOrFail B] |}).
Proof.
  intros HA HB Hne Hr. open_world w. run.
  destruct (String.eqb_spec B A) as [E|E]; [congruence|]. cbn.
  rewrite HA. cbn. rewrite HB. cbn. rewrite !find_loaded, Hr. cbn.
  rewrite <- app_assoc. reflexivity.
Qed.

(** Unblocking, or removing a friend or a request: lines 81-114. *)
Lemma remove_ok A B w r :
  consistent w -> is_user w A -> is_user w B -> A <> B ->
  findEdge (relationships (db w)) A B = Some r ->
  exists w',
    remove A B w = (inr 204, w') /\
    consistent w' /\ users (db w') = users (db w) /\
    edges_updated (relationships (db w)) (relationships (db w')) A B None
      (if is_blocked r then findEdge (relationships (db w)) B A
       else kept_block (findEdge (relationships (db w)) B A)) /\
    emitted w' =
      emitted w ++
      (if is_blocked r then []
       else removal B (findEdge (relationships (db w)) B A)) ++
      [{| event := RELATIONSHIP_REMOVE; user_id := A; data := r;
          should_notify := false |}].
Proof.
  intros [Hwf Hh] HA HB Hne Hr. open_world w. run.
  assert (Hne' : B <> A) by congruence.
  destruct (String.eqb_spec B A) as [E|_]; [congruence|]. cbn.
  rewrite HA. cbn. rewrite HB. cbn. rewrite !find_loaded, Hr.
  unfold kept_block, removal, is_blocked.
  (* deleting the caller's row alone *)
  destruct (delete_found n rows A B r Hwf Hne Hr) as [Wa Ua].
  destruct (findEdge rows B A) as [fr|] eqn:Hfr.
  - (* deleting the other side's row first *)
    destruct (delete_found n rows B A fr Hwf Hne' Hfr) as [W1 U1].
    rewrite Hr in U1.
    assert (Hr1 : findEdge (delete_rows (id fr) rows) A B = Some r)
      by exact (proj1 (proj2 U1)).
    destruct (delete_found n _ A B r W1 Hne Hr1) as [W2 U2].
    replace (findEdge (delete_rows (id fr) rows) B A)
      with (@None Relationship) in U2 by (symmetry; exact (proj1 U1)).
    pose proof (edges_updated_trans _ _ _ _ _ _ _ _ _
                  (edges_updated_sym _ _ _ _ _ _ U1) U2) as U.
    destruct (type r) eqn:Ht; destruct (type fr) eqn:Hf; cbn;
      eexists; (split; [reflexivity|]); cbn; rewrite <- ?app_assoc;
      (split; [constructor; cbn|repeat split; auto; apply U || apply Ua]);
      first [ exact W2 | exact Wa
            | eapply hides_updated; [exact Hh|exact U|]; intros ? ? [=]
            | eapply hides_updated; [exact Hh|exact Ua|]; intros ? ? [=] ].
  - destruct (type r) eqn:Ht; cbn;
      eexists; (split; [reflexivity|]); cbn; rewrite <- ?app_assoc;
      (split; [constructor; cbn|repeat split; auto; apply Ua]);
      first [ exact Wa
            | eapply hides_updated; [exact Hh|exact Ua|]; intros ? ? [=] ].
Qed.

(** ** Failures write nothing *)

Lemma reads_only_1 cs u : reads_only cs (cs ++ [FindOneOrFail u]).
Proof. eexists. split; [reflexivity|]. repeat constructor. eauto. Qed.

Lemma reads_only_2 cs u v :
  reads_only cs ((cs ++ [FindOneOrFail u]) ++ [FindOneOrFail v]).
Proof.
  exists [FindOneOrFail u; FindOneOrFail v]. rewrite <- app_assoc.
  split; [reflexivity|]. repeat constructor; eauto.
Qed.

Lemma reads_only_0 cs : reads_only cs cs.
Proof. exists []. rewrite app_nil_r. split; [reflexivity|constructor]. Qed.

Create HintDb engine.
#[local] Hint Resolve reads_only_0 reads_only_1 reads_only_2 : engine.

(** Every [throw] of [router.put] comes before its first write, and a
    success means that every guard was passed. *)
Lemma router_put_outcome cfg req w res w' :
  router_put cfg req w = (res, w') ->
  match res with
  | inl _ =>
      db w' = db w /\ emitted w' = emitted w /\
      snowflake w <= snowflake w' /\ reads_only (calls w) (calls w')
  | inr _ =>
      let A := req_user_id req in
      let B := params_id req in
      let rows := relationships (db w) in
      is_user w A /\ is_user w B /\ A <> B /\
      match body_type req with
      | Some blocked =>
          forall r, findEdge rows A B = Some r -> type r <> blocked
      | _ =>
          List.length (edges_of w A) < maxFriends cfg /\
          (forall fr, findEdge rows B A = Some fr ->
                      type fr = outgoing \/ type fr = incoming) /\
          (forall r, findEdge rows A B = Some r -> type r = incoming)
      end
  end.
Proof.
  destruct req as [A B bt]. unfold edges_of. open_world w. run.
  destruct (existsb (String.eqb B) us) eqn:HB; cbn;
    [|intros [= <- <-]; cbn; auto with engine].
  destruct (String.eqb_spec B A) as [E|E]; cbn;
    [intros [= <- <-]; cbn; auto with engine|].
  destruct (existsb (String.eqb A) us) eqn:HA; cbn;
    [|intros [= <- <-]; cbn; auto 6 with engine].
  rewrite !find_loaded.
  assert (Hne : A <> B) by congruence.
  destruct bt as [[]|]; cbn;
    try (destruct (Nat.leb_spec (maxFriends cfg)
           (List.length (filter (fun r => from_id r =? A) rows))); cbn;
         [intros [= <- <-]; cbn; auto 6 with engine|]);
    destruct (findEdge rows A B) as [r|] eqn:Hr;
    try (destruct (type r) eqn:Ht);
    destruct (findEdge rows B A) as [fr|] eqn:Hfr;
    try (destruct (type fr) eqn:Hf);
    cbn; intros [= <- <-]; cbn;
    repeat split; auto 6 with engine;
    try (intros ? [= <-]; auto; congruence);
    try (intros ? [=]).
Qed.

(** Every [throw] of [router.delete] comes before its first write. *)
Lemma router_delete_outcome req w res w' :
  router_delete req w = (res, w') ->
  match res with
  | inl _ =>
      db w' = db w /\ emitted w' = emitted w /\
      snowflake w <= snowflake w' /\ reads_only (calls w) (calls w')
  | inr _ =>
      let A := req_user_id req in
      let B := params_id req in
      is_user w A /\ is_user w B /\ A <> B /\
      exists r, findEdge (relationships (db w)) A B = Some r
  end.
Proof.
  destruct req as [A B bt]. open_world w. run.
  destruct (String.eqb_spec B A) as [E|E]; cbn;
    [intros [= <- <-]; cbn; auto with engine|].
  destruct (existsb (String.eqb A) us) eqn:HA; cbn;
    [|intros [= <- <-]; cbn; auto 6 with engine].
  destruct (existsb (String.eqb B) us) eqn:HB; cbn;
    [|intros [= <- <-]; cbn; auto 6 with engine].
  rewrite !find_loaded.
  assert (Hne : A <> B) by congruence.
  destruct (findEdge rows A B) as [r|] eqn:Hr;
    try (destruct (type r) eqn:Ht);
    destruct (findEdge rows B A) as [fr|] eqn:Hfr;
    try (destruct (type fr) eqn:Hf);
    cbn; intros [= <- <-]; cbn;
    repeat split; eauto 6 with engine.
Qed.

(** ** Consistency is an invariant of the routes *)

Lemma consistent_unchanged w w' :
  consistent w -> db w' = db w -> snowflake w <= snowflake w' ->
  consistent w'.
Proof.
  intros [Hwf Hh] Hdb Hle. constructor; rewrite Hdb; auto.
  eapply wf_mono; eauto.
Qed.

Lemma router_put_consistent cfg req w :
  consistent w -> consistent (snd (router_put cfg req w)).
Proof.
  intros Hc. destruct (router_put cfg req w) as [res w'] eqn:Hrun.
  pose proof (router_put_outcome cfg req w res w' Hrun) as Hout.
  destruct res as [e|s]; cbn.
  - destruct Hout as [Hdb [_ [Hle _]]].
    exact (consistent_unchanged w w' Hc Hdb Hle).
  - destruct req as [A B bt]. cbn in Hout.
    destruct Hout as [HA [HB [Hne Hguards]]].
    assert (Hblock : bt = Some blocked ->
                     (forall r, findEdge (relationships (db w)) A B = Some r ->
                                type r <> blocked) -> consistent w').
    { intros -> Hnb.
      destruct (block_ok cfg A B w Hc HA HB Hne Hnb) as [w1 [rb [Hrun1 [Hc1 _]]]].
      unfold block in Hrun1. congruence. }
    assert (Hreq : router_put cfg {| req_user_id := A; params_id := B;
                                     body_type := bt |} w
                   = requestOrAccept cfg A B w ->
                   List.length (edges_of w A) < maxFriends cfg /\
                   (forall fr, findEdge (relationships (db w)) B A = Some fr ->
                               type fr = outgoing \/ type fr = incoming) /\
                   (forall r, findEdge (relationships (db w)) A B = Some r ->
                              type r = incoming) -> consistent w').
    { intros Heq [Hcap [Hfr Hr]].
      destruct (request_ok cfg A B w Hc HA HB Hne Hcap Hfr Hr)
        as [w1 [Hrun1 [Hc1 _]]].
      congruence. }
    destruct bt as [[]|]; auto;
      apply Hreq; auto; apply router_put_friend_path; discriminate.
Qed.

Lemma router_delete_consistent req w :
  consistent w -> consistent (snd (router_delete req w)).
Proof.
  intros Hc. destruct (router_delete req w) as [res w'] eqn:Hrun.
  pose proof (router_delete_outcome req w res w' Hrun) as Hout.
  destruct res as [e|s]; cbn.
  - destruct Hout as [Hdb [_ [Hle _]]].
    exact (consistent_unchanged w w' Hc Hdb Hle).
  - destruct req as [A B bt]. cbn in Hout.
    destruct Hout as [HA [HB [Hne [r Hr]]]].
    destruct (remove_ok A B w r Hc HA HB Hne Hr) as [w1 [Hrun1 [Hc1 _]]].
    unfold remove in Hrun1.
    assert (router_delete {| req_user_id := A; params_id := B; body_type := bt |} w
            = router_delete {| req_user_id := A; params_id := B; body_type := None |} w)
      as Heq by reflexivity.
    congruence.
Qed.

Lemma empty_world_consistent us : consistent (empty_world us).
Proof.
  constructor; cbn.
  - apply wf_nil.
  - intros a b r r' H. discriminate H.
Qed.

(** Every store the routes can reach is consistent. *)
Theorem reachable_consistent w : reachable w -> consistent w.
Proof.
  induction 1.
  - apply empty_world_consistent.
  - apply router_put_consistent. assumption.
  - apply router_delete_consistent. assumption.
Qed.

Lemma perform_consistent cfg i w :
  consistent w -> consistent (snd (perform cfg i w)).
Proof.
  intros Hc. destruct i as [A B|A B|A B]; cbn.
  - apply router_put_consistent. exact Hc.
  - apply router_put_consistent. exact Hc.
  - apply router_delete_consistent. exact Hc.
Qed.

(** ** Deciding consistency of a concrete store *)

Lemma nodupb_sound {A : Type} (eqb : A -> A -> bool) (l : list A) :
  (forall x y, x = y -> eqb x y = true) ->
  nodupb eqb l = true -> NoDup l.
Proof.
  intros Heqb. induction l as [|x l IH]; cbn; intros H; constructor.
  - apply andb_true_iff in H. destruct H as [H _].
    intros Hin. rewrite negb_true_iff in H.
    assert (existsb (eqb x) l = true) as Hex.
    { apply existsb_exists. exists x. split; auto. }
    congruence.
  - apply andb_true_iff in H. apply IH. tauto.
Qed.

Lemma consistentb_sound w : consistentb w = true -> consistent w.
Proof.
  unfold consistentb. rewrite !andb_true_iff.
  intros [[[H1 H2] H3] H4]. constructor.
  - constructor.
    + apply (nodupb_sound Nat.eqb); auto. intros x y ->. apply Nat.eqb_refl.
    + apply Forall_forall. intros r Hr.
      rewrite forallb_forall in H2. apply Nat.ltb_lt. auto.
    + apply (nodupb_sound key_eqb); auto.
      intros x y ->. unfold key_eqb. rewrite !String.eqb_refl. reflexivity.
  - intros a b r r' Hr Hb Hr'.
    destruct (findEdge_Some _ _ _ _ Hr) as [Hin [F T]].
    rewrite forallb_forall in H4. specialize (H4 r Hin).
    rewrite F, T, Hr' in H4. unfold is_blocked in H4. rewrite Hb in H4.
    cbn in H4. destruct (type r'); auto; discriminate.
Qed.

End Engine.

(* ================================================================== *)
(** * Part I, results: the relationship engine                         *)
(* ================================================================== *)

Module EngineProperties.
Import Relationships RelationshipTable Engine.

(** ** The friend cap *)

(** C1, at a concrete store.  With [maxFriends = 2], a user who holds two
    [blocked] edges and no [friends] edge is refused a friend request with
    MAXIMUM_FRIENDS: line 165 compares [user.relationships.length], the
    number of edges of every kind, with the cap.  Nothing is written and
    nothing is emitted. *)
Theorem cap_counts_blocked_edges :
  friends_count two_blocks "1" = 0 /\
  count_type blocked (edges_of two_blocks "1") = 2 /\
  exists w',
    requestOrAccept {| maxFriends := 2 |} "1" "2" two_blocks
    = (inl (FriendLimitExceeded 2), w') /\
    db w' = db two_blocks /\ emitted w' = emitted two_blocks.
Proof.
  split; [reflexivity|]. split; [reflexivity|].
  eexists. split; [vm_compute; reflexivity|]. split; reflexivity.
Qed.

(** The number of [friends] edges never exceeds the number of edges. *)
Lemma friends_count_le w A : friends_count w A <= List.length (edges_of w A).
Proof. unfold friends_count, count_type. apply filter_length_le. Qed.

(** With [maxFriends] edges of kind [friends] the request is refused, with
    no write and no event; the lookups of the two users are the only calls. *)
Lemma request_refused_at_friend_cap cfg A B w :
  is_user w A -> is_user w B -> A <> B ->
  maxFriends cfg <= friends_count w A ->
  exists w',
    requestOrAccept cfg A B w = (inl (FriendLimitExceeded (maxFriends cfg)), w') /\
    db w' = db w /\ emitted w' = emitted w /\
    reads_only (calls w) (calls w').
Proof.
  intros HA HB Hne Hcap. eexists. split.
  - apply request_at_cap; auto. pose proof (friends_count_le w A). lia.
  - cbn. repeat split; auto.
    exists [FindOneOrFail B; FindOneOrFail A]. split; auto.
    repeat constructor; eauto.
Qed.

(** What line 165 decides on: between two distinct users, the request is
    refused with MAXIMUM_FRIENDS exactly when the caller holds at least
    [maxFriends] edges, of whatever kind. *)
Lemma cap_is_edge_count cfg A B w :
  is_user w A -> is_user w B -> A <> B ->
  (fst (requestOrAccept cfg A B w) = inl (FriendLimitExceeded (maxFriends cfg))
   <-> maxFriends cfg <= List.length (edges_of w A)).
Proof.
  intros HA HB Hne. split.
  - intros Hres.
    destruct (Nat.le_gt_cases (maxFriends cfg) (List.length (edges_of w A)))
      as [Hle|Hgt]; auto.
    exfalso. unfold edges_of in Hgt. revert Hres. open_world w. run.
    rewrite HB. cbn. destruct (String.eqb_spec B A) as [E|_]; [congruence|].
    cbn. rewrite HA. cbn.
    destruct (Nat.leb_spec (maxFriends cfg)
                (List.length (filter (fun r => from_id r =? A) rows))); [lia|].
    cbn. rewrite !find_loaded.
    destruct (findEdge rows B A) as [fr|]; [destruct (type fr)|];
      (destruct (findEdge rows A B) as [r|]; [destruct (type r)|]);
      cbn; discriminate.
  - intros Hle. rewrite request_at_cap; auto.
Qed.

(** The block path has no cap: a first block succeeds whatever the number
    of edges the caller holds. *)
Lemma block_has_no_cap cfg A B w :
  consistent w -> is_user w A -> is_user w B -> A <> B ->
  (forall r, findEdge (relationships (db w)) A B = Some r ->
             type r <> blocked) ->
  fst (block cfg A B w) = inr 204.
Proof.
  intros Hc HA HB Hne Hnb.
  destruct (block_ok cfg A B w Hc HA HB Hne Hnb) as [w' [rb [Hrun _]]].
  rewrite Hrun. reflexivity.
Qed.

(** ** Request, then acceptance *)

Lemma save_rows_at l1 l2 r r' :
  id r' = id r -> ~ In (id r) (map id l1) -> ~ In (id r) (map id l2) ->
  save_rows r' (l1 ++ r :: l2) = l1 ++ r' :: l2.
Proof.
  intros Eid H1 H2. unfold save_rows. rewrite Eid.
  rewrite (existsb_present r (id r) (l1 ++ r :: l2));
    [|apply in_or_app; right; left; reflexivity|reflexivity].
  rewrite map_app. cbn. rewrite Nat.eqb_refl.
  rewrite (replace_absent r' (id r) l1 H1), (replace_absent r' (id r) l2 H2).
  reflexivity.
Qed.

Lemma fresh_not_in n i rows :
  Forall (fun r => id r < n) rows -> n <= i -> ~ In i (map id rows).
Proof.
  intros HF Hle Hin. apply in_map_iff in Hin. destruct Hin as [x [Hx Hin]].
  rewrite Forall_forall in HF. specialize (HF x Hin). lia.
Qed.

(** A request between users without edges between them, then its
    acceptance: the table gains the two rows below, and nothing else
    changes. *)
Lemma request_then_accept cfg A B w :
  consistent w -> is_user w A -> is_user w B -> A <> B ->
  findEdge (relationships (db w)) A B = None ->
  findEdge (relationships (db w)) B A = None ->
  List.length (edges_of w A) < maxFriends cfg ->
  S (List.length (edges_of w B)) < maxFriends cfg ->
  exists w1 w2,
    requestOrAccept cfg A B w = (inr 204, w1) /\
    requestOrAccept cfg B A w1 = (inr 204, w2) /\
    users (db w2) = users (db w) /\
    relationships (db w2) =
      relationships (db w) ++
      [{| id := snowflake w; from_id := B; to_id := A; type := friends |};
       {| id := S (snowflake w); from_id := A; to_id := B; type := friends |}].
Proof.
  intros Hc HA HB Hne HAB HBA HcapA HcapB.
  assert (Hne' : B <> A) by congruence.
  destruct (request_ok cfg A B w Hc HA HB Hne HcapA) as [w1 H1].
  { intros fr E. congruence. }
  { intros r E. congruence. }
  cbn zeta in H1. rewrite HAB, HBA in H1.
  destruct H1 as [Hrun1 [Hc1 [Hus1 [Hrows1 [U1 _]]]]].
  destruct Hc as [[Hids Hfresh Hkeys] Hh].
  set (ri := {| id := snowflake w; from_id := B; to_id := A; type := incoming |}) in *.
  set (ro := {| id := S (snowflake w); from_id := A; to_id := B; type := outgoing |}) in *.
  assert (Erows1 : relationships (db w1) = relationships (db w) ++ [ri; ro]).
  { rewrite Hrows1.
    rewrite (save_rows_fresh (snowflake w) _ ri Hfresh (le_n _)).
    rewrite (save_rows_fresh (S (snowflake w)) _ ro).
    - rewrite <- app_assoc. reflexivity.
    - apply Forall_app. split.
      + eapply Forall_impl; [|exact Hfresh]. cbn. intros. lia.
      + repeat constructor.
    - cbn. lia. }
  assert (HA1 : is_user w1 A) by (unfold is_user; rewrite Hus1; exact HA).
  assert (HB1 : is_user w1 B) by (unfold is_user; rewrite Hus1; exact HB).
  assert (Hcap1 : List.length (edges_of w1 B) < maxFriends cfg).
  { unfold edges_of in *. rewrite Erows1, filter_app, length_app. cbn.
    rewrite String.eqb_refl.
    destruct (String.eqb_spec A B) as [E|_]; [congruence|]. cbn. lia. }
  destruct U1 as [EAB [EBA _]].
  destruct (request_ok cfg B A w1 Hc1 HB1 HA1 Hne' Hcap1) as [w2 H2].
  { intros fr E. rewrite EAB in E. injection E as <-. left. reflexivity. }
  { intros r E. rewrite EBA in E. injection E as <-. reflexivity. }
  cbn zeta in H2. rewrite EAB, EBA in H2.
  destruct H2 as [Hrun2 [Hc2 [Hus2 [Hrows2 _]]]].
  exists w1, w2. repeat split; auto; [congruence|].
  rewrite Hrows2, Erows1.
  assert (Hn0 : ~ In (snowflake w) (map id (relationships (db w))))
    by (apply (fresh_not_in (snowflake w)); auto).
  assert (Hn1 : ~ In (S (snowflake w)) (map id (relationships (db w))))
    by (apply (fresh_not_in (snowflake w)); auto).
  change (relationships (db w) ++ [ri; ro])
    with (relationships (db w) ++ [ri] ++ ro :: []).
  rewrite app_assoc.
  rewrite (save_rows_at _ [] ro (with_type ro friends)); cbn; auto.
  - rewrite <- app_assoc. cbn.
    rewrite (save_rows_at _ [with_type ro friends] ri (with_type ri friends));
      cbn; auto.
    intros [E|[]]. lia.
  - rewrite map_app. intros Hin. apply in_app_or in Hin.
    destruct Hin as [Hin|[E|[]]]; [contradiction|]. cbn in E. lia.
Qed.


(** ** Blocking *)

(** In a consistent store, somebody who holds a non-block edge toward [A]
    is not blocked by [A]. *)
Lemma not_blocked_yet w A B fr :
  consistent w ->
  findEdge (relationships (db w)) B A = Some fr -> type fr <> blocked ->
  forall r, findEdge (relationships (db w)) A B = Some r -> type r <> blocked.
Proof.
  intros [_ Hh] Hfr Hnb r Hr Hb. apply Hnb. exact (Hh A B r fr Hr Hb Hfr).
Qed.

(** C3.  When B holds a non-block edge toward A, [block(A,B)] succeeds: A's
    edge toward B is [blocked], B's edge toward A is deleted, and the events
    emitted are exactly one REMOVE to B carrying B's deleted edge followed by
    one ADD to A carrying the blocked edge.  Edges of other pairs are
    untouched. *)
Theorem block_prunes_reverse_edge cfg A B w fr :
  consistent w -> is_user w A -> is_user w B -> A <> B ->
  findEdge (relationships (db w)) B A = Some fr -> type fr <> blocked ->
  exists w' rb,
    block cfg A B w = (inr 204, w') /\
    findEdge (relationships (db w')) A B = Some rb /\
    from_id rb = A /\ to_id rb = B /\ type rb = blocked /\
    findEdge (relationships (db w')) B A = None /\
    emitted w' =
      emitted w ++
      [{| event := RELATIONSHIP_REMOVE; user_id := B; data := fr;
          should_notify := false |};
       {| event := RELATIONSHIP_ADD; user_id := A; data := rb;
          should_notify := false |}] /\
    forall a b, ~ (a = A /\ b = B) -> ~ (a = B /\ b = A) ->
      findEdge (relationships (db w')) a b = findEdge (relationships (db w)) a b.
Proof.
  intros Hc HA HB Hne Hfr Hnb.
  destruct (block_ok cfg A B w Hc HA HB Hne (not_blocked_yet w A B fr Hc Hfr Hnb))
    as [w' [rb [Hrun [_ [_ [F [T [Ty [[E1 [E2 E3]] Hev]]]]]]]]].
  exists w', rb. rewrite Hfr in E2, Hev. unfold kept_block, removal in *.
  assert (is_blocked fr = false) as Hb.
  { unfold is_blocked. destruct (type fr); congruence. }
  rewrite Hb in E2, Hev. cbn in Hev.
  repeat split; auto.
Qed.

(** What an intent can write: the two edges between its two users. *)
Lemma perform_frame cfg i w A B :
  consistent w ->
  (forall X Y, (i = RequestOrAccept X Y \/ i = Block X Y \/ i = Remove X Y) ->
               ~ (A = X /\ B = Y) /\ ~ (A = Y /\ B = X)) ->
  findEdge (relationships (db (snd (perform cfg i w)))) A B
  = findEdge (relationships (db w)) A B.
Proof.
  intros Hc Hfar.
  destruct (perform cfg i w) as [res w'] eqn:Hrun. cbn.
  destruct i as [X Y|X Y|X Y]; unfold perform in Hrun;
    destruct (Hfar X Y) as [F1 F2]; auto.
  - pose proof (router_put_outcome _ _ _ _ _ Hrun) as Hout.
    destruct res; [destruct Hout as [-> _]; reflexivity|]. cbn in Hout.
    destruct Hout as [HX [HY [Hne [Hcap [Hfr Hr]]]]].
    destruct (request_ok cfg X Y w Hc HX HY Hne Hcap Hfr Hr)
      as [w1 [Hrun1 [_ [_ [_ [[_ [_ U]] _]]]]]].
    rewrite Hrun in Hrun1.
    injection Hrun1 as _ <-. apply U; auto.
  - pose proof (router_put_outcome _ _ _ _ _ Hrun) as Hout.
    destruct res; [destruct Hout as [-> _]; reflexivity|]. cbn in Hout.
    destruct Hout as [HX [HY [Hne Hnb]]].
    destruct (block_ok cfg X Y w Hc HX HY Hne Hnb)
      as [w1 [rb [Hrun1 [_ [_ [_ [_ [_ [[_ [_ U]] _]]]]]]]]].
    rewrite Hrun in Hrun1.
    injection Hrun1 as _ <-. apply U; auto.
  - pose proof (router_delete_outcome _ _ _ _ Hrun) as Hout.
    destruct res; [destruct Hout as [-> _]; reflexivity|]. cbn in Hout.
    destruct Hout as [HX [HY [Hne [r Hr]]]].
    destruct (remove_ok X Y w r Hc HX HY Hne Hr)
      as [w1 [Hrun1 [_ [_ [[_ [_ U]] _]]]]].
    rewrite Hrun in Hrun1.
    injection Hrun1 as _ <-. apply U; auto.
Qed.

(** A block stands until its holder removes it. *)
Lemma block_stands cfg i w A B :
  consistent w -> edge w A B = Some blocked -> i <> Remove A B ->
  edge (snd (perform cfg i w)) A B = Some blocked.
Proof.
  intros Hc Hblk Hi.
  assert (Hrow : exists r, findEdge (relationships (db w)) A B = Some r /\
                           type r = blocked).
  { unfold edge in Hblk.
    destruct (findEdge (relationships (db w)) A B) as [r|]; [|discriminate].
    exists r. split; auto. cbn in Hblk. congruence. }
  destruct Hrow as [r0 [Hr0 Ht0]].
  assert (Hkeep : forall w', findEdge (relationships (db w')) A B
                             = findEdge (relationships (db w)) A B ->
                             edge w' A B = Some blocked).
  { intros w' E. unfold edge in *. rewrite E. exact Hblk. }
  assert (Hfar : forall X Y, ~ (A = X /\ B = Y) -> ~ (A = Y /\ B = X) ->
                 (i = RequestOrAccept X Y \/ i = Block X Y \/ i = Remove X Y) ->
                 edge (snd (perform cfg i w)) A B = Some blocked).
  { intros X Y F1 F2 HiXY. apply Hkeep. apply perform_frame; auto.
    intros X' Y' HiXY'.
    assert (Hsame : X' = X /\ Y' = Y).
    { destruct HiXY as [-> | [-> | ->]]; destruct HiXY' as [E|[E|E]];
        inversion E; auto. }
    destruct Hsame as [E1 E2]. subst X' Y'. auto. }
  destruct (perform cfg i w) as [res w'] eqn:Hrun. cbn in *.
  assert (Hfail : forall e, res = inl e -> db w' = db w ->
                            edge w' A B = Some blocked).
  { intros e _ Hdb. apply Hkeep. rewrite Hdb. reflexivity. }
  destruct i as [X Y|X Y|X Y]; unfold perform in Hrun.
  - (* a request *)
    destruct (string_dec A X) as [EX|NX]; destruct (string_dec B Y) as [EY|NY];
      destruct (string_dec A Y) as [EX'|NX']; destruct (string_dec B X) as [EY'|NY'];
      try (apply (Hfar X Y); [tauto|tauto|auto]).
    all: pose proof (router_put_outcome _ _ _ _ _ Hrun) as Hout.
    all: destruct res; [destruct Hout as [Hdb _]; eapply Hfail; eauto|].
    all: cbn in Hout; destruct Hout as [HX [HY [Hne [Hcap [Hfr Hr]]]]].
    all: subst; try congruence.
    + specialize (Hr r0 Hr0). congruence.
    + destruct (Hfr r0 Hr0); congruence.
  - (* a block *)
    destruct (string_dec A X) as [EX|NX]; destruct (string_dec B Y) as [EY|NY];
      destruct (string_dec A Y) as [EX'|NX']; destruct (string_dec B X) as [EY'|NY'];
      try (apply (Hfar X Y); [tauto|tauto|auto]).
    all: pose proof (router_put_outcome _ _ _ _ _ Hrun) as Hout.
    all: destruct res; [destruct Hout as [Hdb _]; eapply Hfail; eauto|].
    all: cbn in Hout; destruct Hout as [HX [HY [Hne Hnb]]].
    all: subst; try congruence.
    + exfalso. exact (Hnb r0 Hr0 Ht0).
    + destruct (block_ok cfg X Y w Hc HX HY Hne Hnb)
        as [w1 [rb [Hrun1 [_ [_ [_ [_ [_ [[_ [U _]] _]]]]]]]]].
      rewrite Hrun in Hrun1. injection Hrun1 as _ <-.
      unfold edge. rewrite U, Hr0. unfold kept_block, is_blocked.
      rewrite Ht0. unfold option_map. rewrite Ht0. reflexivity.
  - (* a removal *)
    destruct (string_dec A X) as [EX|NX]; destruct (string_dec B Y) as [EY|NY];
      destruct (string_dec A Y) as [EX'|NX']; destruct (string_dec B X) as [EY'|NY'];
      try (apply (Hfar X Y); [tauto|tauto|auto]).
    all: pose proof (router_delete_outcome _ _ _ _ Hrun) as Hout.
    all: destruct res; [destruct Hout as [Hdb _]; eapply Hfail; eauto|].
    all: cbn in Hout; destruct Hout as [HX [HY [Hne [r Hr]]]].
    all: subst; try congruence.
    destruct (remove_ok X Y w r Hc HX HY Hne Hr)
      as [w1 [Hrun1 [_ [_ [[_ [U _]] _]]]]].
    rewrite Hrun in Hrun1. injection Hrun1 as _ <-.
    unfold edge. rewrite U, Hr0. unfold kept_block, is_blocked.
    rewrite Ht0. destruct (type r); unfold option_map; rewrite Ht0; reflexivity.
Qed.

Lemma perform_all_consistent cfg todo w :
  consistent w -> consistent (perform_all cfg todo w).
Proof.
  revert w. induction todo as [|i todo IH]; cbn; intros w Hc; auto.
  apply IH. apply perform_consistent. exact Hc.
Qed.

Lemma block_stands_all cfg todo w A B :
  consistent w -> edge w A B = Some blocked -> ~ In (Remove A B) todo ->
  edge (perform_all cfg todo w) A B = Some blocked.
Proof.
  revert w. induction todo as [|i todo IH]; cbn; intros w Hc Hb Hn; auto.
  apply IH.
  - apply perform_consistent. exact Hc.
  - apply block_stands; auto.
  - tauto.
Qed.

(** Whoever is blocked holds nothing toward the blocker but a block. *)
Lemma blocked_side w A B :
  consistent w -> edge w A B = Some blocked ->
  edge w B A = None \/ edge w B A = Some blocked.
Proof.
  intros [_ Hh] Hb. unfold edge in *.
  destruct (findEdge (relationships (db w)) A B) as [r|] eqn:Hr; [|discriminate].
  destruct (findEdge (relationships (db w)) B A) as [r'|] eqn:Hr'; auto.
  unfold option_map in *. injection Hb as Hb.
  right. f_equal. exact (Hh A B r r' Hr Hb Hr').
Qed.

(** C4, as the code has it.  After [block(A,B)] succeeds, a second
    [block(A,B)] fails with AlreadyBlocked, writes nothing and emits nothing.
    From then on, and through any requests other than [remove(A,B)], A's
    block stands and B holds no edge toward A except a block of B's own. *)
Theorem block_twice_and_after cfg A B w w' :
  consistent w -> block cfg A B w = (inr 204, w') ->
  (exists w'',
     block cfg A B w' = (inl AlreadyBlocked, w'') /\
     db w'' = db w' /\ emitted w'' = emitted w' /\
     reads_only (calls w') (calls w'')) /\
  forall cfg' todo,
    ~ In (Remove A B) todo ->
    let wn := perform_all cfg' todo w' in
    edge wn A B = Some blocked /\
    (edge wn B A = None \/ edge wn B A = Some blocked).
Proof.
  intros Hc Hrun.
  pose proof (router_put_outcome _ _ _ _ _ Hrun) as Hout. cbn in Hout.
  destruct Hout as [HA [HB [Hne Hnb]]].
  destruct (block_ok cfg A B w Hc HA HB Hne Hnb)
    as [w1 [rb [Hrun1 [Hc1 [Hus [F [T [Ty [[U _] _]]]]]]]]].
  rewrite Hrun in Hrun1. injection Hrun1 as <-.
  assert (HA' : is_user w' A) by (unfold is_user; rewrite Hus; exact HA).
  assert (HB' : is_user w' B) by (unfold is_user; rewrite Hus; exact HB).
  split.
  - eexists. split; [exact (block_again cfg A B w' rb HA' HB' Hne U Ty)|].
    cbn. repeat split; auto.
    exists [FindOneOrFail B; FindOneOrFail A]. split; auto.
    repeat constructor; eauto.
  - intros cfg' todo Hn wn.
    assert (Hb : edge w' A B = Some blocked).
    { unfold edge. rewrite U. cbn. congruence. }
    assert (Hbn : edge wn A B = Some blocked)
      by (apply block_stands_all; auto).
    split; auto. apply blocked_side; auto.
    apply perform_all_consistent. exact Hc1.
Qed.

(** ** Removal *)

(** C5.  When A and B are friends on both sides, [remove(A,B)] deletes both
    edges and emits exactly one REMOVE to B carrying B's deleted edge, then
    one REMOVE to A carrying A's; edges of other pairs are untouched.  When A
    holds no edge toward B, it fails with NotRelated (status 404) and writes
    and emits nothing. *)
Theorem remove_friend_or_not_related A B w :
  consistent w -> is_user w A -> is_user w B -> A <> B ->
  (forall ra rb,
     findEdge (relationships (db w)) A B = Some ra -> type ra = friends ->
     findEdge (relationships (db w)) B A = Some rb -> type rb = friends ->
     exists w',
       remove A B w = (inr 204, w') /\
       findEdge (relationships (db w')) A B = None /\
       findEdge (relationships (db w')) B A = None /\
       (forall a b, ~ (a = A /\ b = B) -> ~ (a = B /\ b = A) ->
          findEdge (relationships (db w')) a b
          = findEdge (relationships (db w)) a b) /\
       emitted w' =
         emitted w ++
         [{| event := RELATIONSHIP_REMOVE; user_id := B; data := rb;
             should_notify := false |};
          {| event := RELATIONSHIP_REMOVE; user_id := A; data := ra;
             should_notify := false |}] /\
       from_id rb = B /\ from_id ra = A) /\
  (findEdge (relationships (db w)) A B = None ->
   exists w',
     remove A B w = (inl NotRelated, w') /\
     NotRelated = HTTPError "You are not friends with the user" 404 /\
     db w' = db w /\ emitted w' = emitted w).
Proof.
  intros Hc HA HB Hne. split.
  - intros ra rb Hra Ta Hrb Tb.
    destruct (remove_ok A B w ra Hc HA HB Hne Hra)
      as [w' [Hrun [_ [_ [[E1 [E2 E3]] Hev]]]]].
    assert (is_blocked ra = false) as Hba by (unfold is_blocked; rewrite Ta; auto).
    assert (is_blocked rb = false) as Hbb by (unfold is_blocked; rewrite Tb; auto).
    rewrite Hba, Hrb in E2, Hev. unfold kept_block, removal in *.
    rewrite Hbb in E2, Hev. cbn in Hev.
    exists w'. repeat split; auto.
    + apply (findEdge_Some _ _ _ _ Hrb).
    + apply (findEdge_Some _ _ _ _ Hra).
  - intros Hnone. eexists. split; [apply remove_missing; auto|].
    cbn. auto.
Qed.

(** ** Self-targeting *)

(** C6, as the code has it.  For a user A, [requestOrAccept(A,A)],
    [block(A,A)] and [remove(A,A)] fail with SelfAction, write nothing and
    emit nothing.  [remove] checks before any database call.  The two
    others check inside [updateRelationship], which the route calls with
    the target already loaded: one lookup of the target precedes the
    check, and nothing else is read. *)
Theorem self_action_rejected cfg A w :
  is_user w A ->
  (exists e w', requestOrAccept cfg A A w = (inl e, w') /\ SelfAction e /\
                db w' = db w /\ emitted w' = emitted w /\
                calls w' = calls w ++ [FindOneOrFail A]) /\
  (exists e w', block cfg A A w = (inl e, w') /\ SelfAction e /\
                db w' = db w /\ emitted w' = emitted w /\
                calls w' = calls w ++ [FindOneOrFail A]) /\
  (exists e, remove A A w = (inl e, w) /\ SelfAction e).
Proof.
  intros HA. open_world w. unfold SelfAction. repeat split.
  - run. rewrite HA. cbn. rewrite String.eqb_refl. cbn.
    eexists _, _. split; [reflexivity|]. cbn. auto.
  - run. rewrite HA. cbn. rewrite String.eqb_refl. cbn.
    eexists _, _. split; [reflexivity|]. cbn. auto.
  - run. rewrite String.eqb_refl. cbn.
    eexists. split; [reflexivity|]. auto.
Qed.

(** [remove(A,A)] needs no user record at all. *)
Lemma remove_self A w :
  remove A A w = (inl (HTTPError "You can't remove yourself as a friend" 400), w).
Proof.
  unfold remove, router_delete. cbn. rewrite String.eqb_refl. reflexivity.
Qed.

(** ** Concrete stores *)

Lemma four_users_consistent : consistent four_users.
Proof. apply consistentb_sound. reflexivity. Qed.

Lemma ne_1_2 : "1" <> "2".
Proof. discriminate. Qed.



(** User 1 blocks user 2, whose friend request is pending. *)
Lemma block_prunes_reverse_edge_witness :
  let fr := {| id := 1; from_id := "2"; to_id := "1"; type := outgoing |} in
  (consistent pending_request /\
   findEdge (relationships (db pending_request)) "2" "1" = Some fr /\
   type fr <> blocked) /\
  exists w' rb,
    block {| maxFriends := 5 |} "1" "2" pending_request = (inr 204, w') /\
    findEdge (relationships (db w')) "1" "2" = Some rb /\
    from_id rb = "1" /\ to_id rb = "2" /\ type rb = blocked /\
    findEdge (relationships (db w')) "2" "1" = None /\
    emitted w' =
      emitted pending_request ++
      [{| event := RELATIONSHIP_REMOVE; user_id := "2"; data := fr;
          should_notify := false |};
       {| event := RELATIONSHIP_ADD; user_id := "1"; data := rb;
          should_notify := false |}] /\
    forall a b, ~ (a = "1" /\ b = "2") -> ~ (a = "2" /\ b = "1") ->
      findEdge (relationships (db w')) a b
      = findEdge (relationships (db pending_request)) a b.
Proof.
  intros fr.
  assert (Hc : consistent pending_request)
    by (apply consistentb_sound; reflexivity).
  assert (Hnb : type fr <> blocked) by discriminate.
  split; [exact (conj Hc (conj eq_refl Hnb))|].
  exact (block_prunes_reverse_edge {| maxFriends := 5 |} "1" "2"
           pending_request fr Hc eq_refl eq_refl ne_1_2 eq_refl Hnb).
Defined.

(** C4, as stated, fails when B has blocked A before: after [block(A,B)]
    succeeds, B still holds an edge toward A, B's own block (line 144 deletes
    B's edge only when it is not a block). *)
Lemma blocked_user_keeps_own_block :
  ~ (forall cfg A B w w',
       consistent w -> A <> B -> block cfg A B w = (inr 204, w') ->
       edge w' B A = None).
Proof.
  intros H.
  specialize (H {| maxFriends := 5 |} "1" "2" blocked_by_2
                (snd (block {| maxFriends := 5 |} "1" "2" blocked_by_2))
                (consistentb_sound blocked_by_2 eq_refl) ne_1_2 eq_refl).
  vm_compute in H. discriminate H.
Qed.

(** User 1 blocks user 2 in a store without relationships. *)
Lemma block_twice_and_after_witness :
  let cfg := {| maxFriends := 5 |} in
  let w' := snd (block cfg "1" "2" four_users) in
  (consistent four_users /\ block cfg "1" "2" four_users = (inr 204, w')) /\
  (exists w'',
     block cfg "1" "2" w' = (inl AlreadyBlocked, w'') /\
     db w'' = db w' /\ emitted w'' = emitted w' /\
     reads_only (calls w') (calls w'')) /\
  forall cfg' todo,
    ~ In (Remove "1" "2") todo ->
    let wn := perform_all cfg' todo w' in
    edge wn "1" "2" = Some blocked /\
    (edge wn "2" "1" = None \/ edge wn "2" "1" = Some blocked).
Proof.
  intros cfg w'. split.
  - split; [exact four_users_consistent|reflexivity].
  - exact (block_twice_and_after cfg "1" "2" four_users w'
             four_users_consistent eq_refl).
Defined.

(** User 1 removes user 2: as a friend, and without any edge. *)
Lemma remove_friend_or_not_related_witness :
  let ra := {| id := 1; from_id := "1"; to_id := "2"; type := friends |} in
  let rb := {| id := 0; from_id := "2"; to_id := "1"; type := friends |} in
  (consistent friendship /\
   findEdge (relationships (db friendship)) "1" "2" = Some ra /\
   findEdge (relationships (db friendship)) "2" "1" = Some rb /\
   consistent four_users /\
   findEdge (relationships (db four_users)) "1" "2" = None) /\
  (exists w',
     remove "1" "2" friendship = (inr 204, w') /\
     findEdge (relationships (db w')) "1" "2" = None /\
     findEdge (relationships (db w')) "2" "1" = None /\
     (forall a b, ~ (a = "1" /\ b = "2") -> ~ (a = "2" /\ b = "1") ->
        findEdge (relationships (db w')) a b
        = findEdge (relationships (db friendship)) a b) /\
     emitted w' =
       emitted friendship ++
       [{| event := RELATIONSHIP_REMOVE; user_id := "2"; data := rb;
           should_notify := false |};
        {| event := RELATIONSHIP_REMOVE; user_id := "1"; data := ra;
           should_notify := false |}] /\
     from_id rb = "2" /\ from_id ra = "1") /\
  (exists w',
     remove "1" "2" four_users = (inl NotRelated, w') /\
     NotRelated = HTTPError "You are not friends with the user" 404 /\
     db w' = db four_users /\ emitted w' = emitted four_users).
Proof.
  intros ra rb.
  assert (Hc : consistent friendship)
    by (apply consistentb_sound; reflexivity).
  split; [|split].
  - exact (conj Hc (conj eq_refl (conj eq_refl
             (conj four_users_consistent eq_refl)))).
  - exact (proj1 (remove_friend_or_not_related "1" "2" friendship
                    Hc eq_refl eq_refl ne_1_2)
             ra rb eq_refl eq_refl eq_refl eq_refl).
  - exact (proj2 (remove_friend_or_not_related "1" "2" four_users
                    four_users_consistent eq_refl eq_refl ne_1_2)
             eq_refl).
Defined.

(** C6, as stated, fails for [block] (and [requestOrAccept]): the route has
    looked the target up before [updateRelationship] compares the ids. *)
Lemma self_block_reads_target_first :
  ~ (forall cfg A w,
       is_user w A ->
       exists e w', block cfg A A w = (inl e, w') /\ SelfAction e /\
                    calls w' = calls w).
Proof.
  intros H.
  destruct (H {| maxFriends := 5 |} "1" four_users eq_refl)
    as [e [w' [Hrun [_ Hcalls]]]].
  vm_compute in Hrun. injection Hrun as _ <-. discriminate Hcalls.
Qed.

(** User 1 targets user 1. *)
Lemma self_action_rejected_witness :
  let cfg := {| maxFriends := 5 |} in
  is_user four_users "1" /\
  (exists e w', block cfg "1" "1" four_users = (inl e, w') /\ SelfAction e /\
                db w' = db four_users /\ emitted w' = emitted four_users /\
                calls w' = calls four_users ++ [FindOneOrFail "1"]) /\
  (exists e, remove "1" "1" four_users = (inl e, four_users) /\ SelfAction e).
Proof.
  intros cfg. split; [reflexivity|].
  exact (proj2 (self_action_rejected cfg "1" four_users eq_refl)).
Defined.

End EngineProperties.

(* ================================================================== *)
(** * Time values                                                      *)
(* ================================================================== *)

Module DatesProperties.
Import Dates.
Local Open Scope Z_scope.

Lemma step4 y : (y + 1 - 1969) / 4 = (y - 1969) / 4 + (if y mod 4 =? 0 then 1 else 0).
Proof. destruct (Z.eqb_spec (y mod 4) 0); Z.div_mod_to_equations; lia. Qed.
Lemma step100 y : (y + 1 - 1901) / 100 = (y - 1901) / 100 + (if y mod 100 =? 0 then 1 else 0).
Proof. destruct (Z.eqb_spec (y mod 100) 0); Z.div_mod_to_equations; lia. Qed.
Lemma step400 y : (y + 1 - 1601) / 400 = (y - 1601) / 400 + (if y mod 400 =? 0 then 1 else 0).
Proof. destruct (Z.eqb_spec (y mod 400) 0); Z.div_mod_to_equations; lia. Qed.
Lemma mod_100_4 y : y mod 100 = 0 -> y mod 4 = 0.
Proof. intros. Z.div_mod_to_equations. lia. Qed.
Lemma mod_400_100 y : y mod 400 = 0 -> y mod 100 = 0.
Proof. intros. Z.div_mod_to_equations. lia. Qed.

Lemma DayFromYear_succ y : DayFromYear (y + 1) = DayFromYear y + DaysInYear y.
Proof.
  unfold DayFromYear, DaysInYear, leap. rewrite step4, step100, step400.
  destruct (Z.eqb_spec (y mod 4) 0) as [H4|H4],
    (Z.eqb_spec (y mod 100) 0) as [H100|H100],
    (Z.eqb_spec (y mod 400) 0) as [H400|H400]; cbn [andb orb negb];
    pose proof (mod_100_4 y); pose proof (mod_400_100 y); lia.
Qed.

Lemma DayFromYear_estimate y :
  146097 * (y - 1970) - 607 <= 400 * DayFromYear y <= 146097 * (y - 1970) + 593.
Proof. unfold DayFromYear. Z.div_mod_to_equations. lia. Qed.

Lemma DaysInYear_bounds y : 365 <= DaysInYear y <= 366.
Proof. unfold DaysInYear. destruct (leap y); lia. Qed.

Lemma YearFromTime_bounds t :
  DayFromYear (YearFromTime t) <= Day t < DayFromYear (YearFromTime t + 1).
Proof.
  unfold YearFromTime. generalize (Day t). intros d. cbv zeta.
  set (y := 1970 + 400 * d / 146097).
  assert (Hy : 146097 * (y - 1970) <= 400 * d < 146097 * (y - 1970) + 146097)
    by (subst y; Z.div_mod_to_equations; lia).
  pose proof (DayFromYear_estimate y) as E0.
  pose proof (DayFromYear_estimate (y - 1)) as E1.
  pose proof (DayFromYear_estimate (y + 1)) as E2.
  pose proof (DayFromYear_estimate (y + 2)) as E3.
  pose proof (DayFromYear_succ (y - 1)) as S1.
  pose proof (DayFromYear_succ y) as S2.
  pose proof (DayFromYear_succ (y + 1)) as S3.
  replace (y - 1 + 1) with y in * by lia.
  replace (y + 1 + 1) with (y + 2) in * by lia.
  pose proof (DaysInYear_bounds (y - 1)). pose proof (DaysInYear_bounds y).
  pose proof (DaysInYear_bounds (y + 1)).
  destruct (Z.ltb_spec d (DayFromYear y)).
  { replace (y - 1 + 1) with y by lia. lia. }
  destruct (Z.leb_spec (DayFromYear (y + 1)) d).
  { replace (y + 1 + 1) with (y + 2) by lia. lia. }
  lia.
Qed.

Lemma DayFromYear_mono y1 y2 : y1 <= y2 -> DayFromYear y1 + 365 * (y2 - y1) <= DayFromYear y2.
Proof.
  intros H. unfold DayFromYear. Z.div_mod_to_equations. lia.
Qed.

Lemma YearFromTime_unique t y :
  DayFromYear y <= Day t < DayFromYear (y + 1) -> YearFromTime t = y.
Proof.
  intros H. pose proof (YearFromTime_bounds t) as B.
  destruct (Z.lt_trichotomy (YearFromTime t) y) as [L|[E|L]]; [|exact E|].
  - pose proof (DayFromYear_mono (YearFromTime t + 1) y ltac:(lia)). lia.
  - pose proof (DayFromYear_mono (y + 1) (YearFromTime t) ltac:(lia)). lia.
Qed.

Lemma DayWithinYear_bounds t : 0 <= DayWithinYear t < DaysInYear (YearFromTime t).
Proof.
  unfold DayWithinYear. pose proof (YearFromTime_bounds t) as B.
  rewrite DayFromYear_succ in B. lia.
Qed.

Lemma Day_MakeDate d tw : 0 <= tw < msPerDay -> Day (MakeDate d tw) = d.
Proof. unfold Day, MakeDate, msPerDay. intros. Z.div_mod_to_equations. lia. Qed.

Lemma TimeWithinDay_MakeDate d tw :
  0 <= tw < msPerDay -> TimeWithinDay (MakeDate d tw) = tw.
Proof. unfold TimeWithinDay, MakeDate, msPerDay. intros. Z.div_mod_to_equations. lia. Qed.

Lemma TimeWithinDay_bounds t : 0 <= TimeWithinDay t < msPerDay.
Proof. unfold TimeWithinDay, msPerDay. Z.div_mod_to_equations. lia. Qed.

Ltac months :=
  repeat (match goal with
          | |- context [if ?a <? ?b then _ else _] =>
              destruct (Z.ltb_spec a b); cbv iota; try lia
          end).

Ltac each_month m H :=
  let E := fresh "E" in
  assert (E : m = 0 \/ m = 1 \/ m = 2 \/ m = 3 \/ m = 4 \/ m = 5 \/ m = 6 \/
              m = 7 \/ m = 8 \/ m = 9 \/ m = 10 \/ m = 11) by lia;
  clear H;
  repeat (destruct E as [E|E]; [subst m|]); [..|subst m].

Lemma month_start_nonneg m lp : 0 <= m <= 11 -> 0 <= month_start m lp.
Proof. intros H. each_month m H; destruct lp; cbv [month_start]; lia. Qed.

Lemma month_of_range d (lp : bool) :
  0 <= d < (if lp then 366 else 365) ->
  0 <= month_of d lp <= 11 /\
  0 <= d - month_start (month_of d lp) lp < month_len (month_of d lp) lp.
Proof.
  intros H. unfold month_of. destruct lp; cbv zeta iota in *; months;
    cbv [month_start month_len]; lia.
Qed.

Lemma month_of_start m (lp : bool) k :
  0 <= m <= 11 -> 0 <= k < month_len m lp ->
  month_of (month_start m lp + k) lp = m.
Proof.
  intros H Hk. unfold month_of.
  each_month m H; destruct lp; cbv [month_start month_len] in *; months.
Qed.

Lemma month_fits m (lp lp' : bool) k :
  0 <= m <= 11 -> 0 <= k < month_len m lp' ->
  month_start m lp + k < (if lp then 366 else 365) /\
  (k < month_len m lp \/ (m = 1 /\ k = 28 /\ lp = false)).
Proof.
  intros H Hk.
  each_month m H; destruct lp, lp'; cbv [month_start month_len] in *;
    first [ lia
          | split; [lia|];
            destruct (Z.eq_dec k 28); [right; auto|left; lia] ].
Qed.

Lemma setFullYear_local lt y :
  let m := MonthFromTime lt in
  let dt := DateFromTime lt in
  let lc := MakeDate (MakeDay y m dt) (TimeWithinDay lt) in
  YearFromTime lc = y /\ TimeWithinDay lc = TimeWithinDay lt /\
  ((MonthFromTime lc = m /\ DateFromTime lc = dt) \/
   (m = 1 /\ dt = 29 /\ leap y = false /\
    MonthFromTime lc = 2 /\ DateFromTime lc = 1)).
Proof.
  intros m dt lc.
  pose proof (TimeWithinDay_bounds lt) as Htw.
  pose proof (DayWithinYear_bounds lt) as Hd. unfold DaysInYear in Hd.
  destruct (month_of_range _ _ Hd) as [Hm Hk].
  fold (InLeapYear lt) in Hk, Hm. fold (MonthFromTime lt) in Hk, Hm.
  fold m in Hk, Hm.
  set (k := DayWithinYear lt - month_start m (InLeapYear lt)) in *.
  assert (Edt : dt = k + 1) by reflexivity.
  destruct (month_fits m (leap y) (InLeapYear lt) k Hm Hk) as [Hlast Hmonth].
  assert (Hmod : m mod 12 = m /\ m / 12 = 0) by (Z.div_mod_to_equations; lia).
  assert (Hday : Day lc = DayFromYear y + month_start m (leap y) + k).
  { subst lc. rewrite Day_MakeDate by exact Htw. unfold MakeDay.
    destruct Hmod as [-> ->]. rewrite Z.add_0_r. lia. }
  pose proof (month_start_nonneg m (leap y) Hm) as Hs.
  assert (Hyear : YearFromTime lc = y).
  { apply YearFromTime_unique. rewrite Hday, DayFromYear_succ.
    unfold DaysInYear. lia. }
  split; [exact Hyear|]. split.
  { subst lc. apply TimeWithinDay_MakeDate. exact Htw. }
  assert (Hdwy : DayWithinYear lc = month_start m (leap y) + k)
    by (unfold DayWithinYear; rewrite Hyear, Hday; lia).
  assert (HM : MonthFromTime lc
               = month_of (month_start m (leap y) + k) (leap y))
    by (unfold MonthFromTime, InLeapYear; rewrite Hdwy, Hyear; reflexivity).
  assert (HD : DateFromTime lc
               = month_start m (leap y) + k
                 - month_start (MonthFromTime lc) (leap y) + 1)
    by (unfold DateFromTime, InLeapYear; rewrite Hdwy, Hyear; reflexivity).
  destruct Hmonth as [E|[E1 [E2 E3]]].
  - left. rewrite (month_of_start m (leap y) k Hm) in HM by lia.
    rewrite HM in HD. split; [exact HM|lia].
  - right. rewrite E1, E2, E3 in HM. rewrite HD, HM, E1, E2, E3.
    repeat split; auto. lia.
Qed.

Lemma TimeClip_in_range t :
  Z.abs t <= 8640000000000000 -> TimeClip t = Some t.
Proof.
  intros H. unfold TimeClip.
  destruct (Z.ltb_spec 8640000000000000 (Z.abs t)); [lia|reflexivity].
Qed.

Lemma TimeClip_out_of_range t :
  8640000000000000 < Z.abs t -> TimeClip t = None.
Proof.
  intros H. unfold TimeClip.
  destruct (Z.ltb_spec 8640000000000000 (Z.abs t)); [reflexivity|lia].
Qed.

End DatesProperties.

(* ================================================================== *)
(** * Part II, results: the registration guards                        *)
(* ================================================================== *)

Module RegistrationProperties.
Import Dates Registration.

Ltac unfold_checks :=
  unfold router_post, guards, after_date_of_birth,
    checks_before_date_of_birth, check_allowNewRegistration, check_consent,
    check_disabled, check_allowGuests, check_captcha, check_fingerprint,
    check_proxy, check_email, check_date_of_birth, check_password,
    check_invite, create_account, redeem_invite.

Ltac unfold_monad := unfold bind, await, throw, exit, ret.

Ltac unfold_in H :=
  unfold router_post, guards, after_date_of_birth,
    checks_before_date_of_birth, check_allowNewRegistration, check_consent,
    check_disabled, check_allowGuests, check_captcha, check_fingerprint,
    check_proxy, check_email, check_date_of_birth, check_password,
    check_invite, create_account, redeem_invite,
    bind, await, throw, exit, ret in H.

(** ** Sequencing *)

Lemma bind_ok {A B : Type} (m : M A) (k : A -> M B) w a w1 :
  m w = (inr a, w1) -> bind m k w = k a w1.
Proof. intros H. unfold bind. rewrite H. reflexivity. Qed.

Lemma bind_exit {A B : Type} (m : M A) (k : A -> M B) w x w1 :
  m w = (inl x, w1) -> bind m k w = (inl x, w1).
Proof. intros H. unfold bind. rewrite H. reflexivity. Qed.

Lemma bind_inv {A B : Type} (m : M A) (k : A -> M B) w r w' :
  bind m k w = (r, w') ->
  (exists x, m w = (inl x, w') /\ r = inl x) \/
  (exists a w1, m w = (inr a, w1) /\ k a w1 = (r, w')).
Proof.
  unfold bind. destruct (m w) as [[x|a] w1]; intros H.
  - left. exists x. inversion H. auto.
  - right. exists a, w1. auto.
Qed.

(** The route is its guards, then the creation, the redemption and the
    token. *)
Lemma router_post_guards env cfg body w :
  router_post env cfg body w =
  bind (guards env cfg body)
       (fun body' =>
          bind (create_account env body')
               (fun user =>
                  bind (redeem_invite env user body')
                       (fun _ => await (call_generateToken user) "generateToken"
                                   (generateToken env user)))) w.
Proof.
  unfold router_post, guards, after_date_of_birth, bind.
  destruct (checks_before_date_of_birth env cfg body w) as [[x|[]] w1]; auto.
  destruct (check_date_of_birth env cfg body w1) as [[x|b1] w2]; auto.
  destruct (check_password env cfg b1 w2) as [[x|b2] w3]; auto.
  destruct (check_invite cfg b2 w3) as [[x|[]] w4]; auto.
Qed.

(** ** Consent *)

(** C7.  With registration allowed and [consent = false], the route throws
    the field error CONSENT_REQUIRED on [consent], whatever the other fields
    and the rest of the configuration are; no later check has run: no call
    was made and no account created. *)
Theorem consent_required_first env cfg body w :
  allowNewRegistration (register cfg) = true -> consent body = false ->
  router_post env cfg body w =
  (inl (Threw (FieldErrors "consent" "CONSENT_REQUIRED"
                 (t "auth:register.CONSENT_REQUIRED"))), w).
Proof.
  intros Hallow Hconsent. unfold_checks. unfold_monad.
  rewrite Hallow, Hconsent. reflexivity.
Qed.

(** The precedence scenario: no consent, every other policy open. *)
Lemma consent_required_first_witness :
  (allowNewRegistration (register open_config) = true /\
   consent no_consent = false) /\
  router_post sample_env open_config no_consent fresh_world =
  (inl (Threw (FieldErrors "consent" "CONSENT_REQUIRED"
                 (t "auth:register.CONSENT_REQUIRED"))), fresh_world).
Proof.
  split; [split; reflexivity|].
  exact (consent_required_first sample_env open_config no_consent fresh_world
           eq_refl eq_refl).
Defined.

(** The first check comes before it: with registration not allowed the error
    is REGISTRATION_DISABLED, consent or not. *)
Lemma registration_disabled_first env cfg body w :
  allowNewRegistration (register cfg) = false ->
  router_post env cfg body w =
  (inl (Threw (FieldErrors "email" "REGISTRATION_DISABLED"
                 (t "auth:register.REGISTRATION_DISABLED"))), w).
Proof.
  intros Hallow. unfold_checks. unfold_monad. rewrite Hallow. reflexivity.
Qed.

(** ** Date of birth *)

(** The cutoff of lines 125-126, before the range check: in the server's
    local time it is in the year of now lowered by [years], at the same time
    of day and on the same day of the same month; the 29th of February
    becomes the 1st of March when that year is not a leap year. *)
Lemma cutoff_is_years_back env years :
  let now := LocalTime env (Date_now env) in
  exists local,
    cutoff_instant env years = UTC env local /\
    YearFromTime local = (YearFromTime now - years)%Z /\
    TimeWithinDay local = TimeWithinDay now /\
    ((MonthFromTime local = MonthFromTime now /\
      DateFromTime local = DateFromTime now) \/
     (MonthFromTime now = 1%Z /\ DateFromTime now = 29%Z /\
      MonthFromTime local = 2%Z /\ DateFromTime local = 1%Z)).
Proof.
  intros now.
  destruct (DatesProperties.setFullYear_local now (YearFromTime now - years)%Z)
    as [Hy [Ht Hmd]].
  exists (MakeDate (MakeDay (YearFromTime now - years)
                      (MonthFromTime now) (DateFromTime now))
            (TimeWithinDay now)).
  split.
  { unfold cutoff_instant, setFullYear_instant, getFullYear. reflexivity. }
  split; [exact Hy|]. split; [exact Ht|].
  destruct Hmd as [Hmd|[E1 [E2 [_ E3]]]]; [left; exact Hmd|right; auto].
Qed.

(** [minimum] is the cutoff when that instant is in the range of [Date],
    and an invalid [Date] otherwise. *)
Lemma minimum_date_clip env years :
  minimum_date env years = TimeClip (cutoff_instant env years).
Proof. unfold minimum_date, cutoff_instant, setFullYear. reflexivity. Qed.

Lemma minimum_date_in_range env years :
  (Z.abs (cutoff_instant env years) <= 8640000000000000)%Z ->
  minimum_date env years = Some (cutoff_instant env years).
Proof.
  intros H. rewrite minimum_date_clip.
  exact (DatesProperties.TimeClip_in_range _ H).
Qed.

Lemma minimum_date_out_of_range env years :
  (8640000000000000 < Z.abs (cutoff_instant env years))%Z ->
  minimum_date env years = None.
Proof.
  intros H. rewrite minimum_date_clip.
  exact (DatesProperties.TimeClip_out_of_range _ H).
Qed.

(** The age comparison of lines 124-137 on a date of birth that parses. *)
Lemma check_date_of_birth_parsed env cfg body w s ms :
  dateOfBirth_required (register cfg) = true ->
  dateOfBirth_minimum (register cfg) <> 0%Z ->
  date_of_birth body = Some (dob_text s) -> s <> EmptyString ->
  Date_parse env s = Some ms ->
  check_date_of_birth env cfg body w =
  if Date_gt (Some ms) (minimum_date env (dateOfBirth_minimum (register cfg)))
  then (inl (underage cfg), w)
  else (inr (with_date_of_birth body (Some (dob_Date (Some ms)))), w).
Proof.
  intros Hreq Hmin Hdob Hs Hparse.
  assert (Hs' : (s =? EmptyString) = false) by (apply String.eqb_neq; exact Hs).
  assert (Hm : (dateOfBirth_minimum (register cfg) =? 0)%Z = false)
    by (apply Z.eqb_neq; exact Hmin).
  unfold check_date_of_birth, new_Date, truthy_dob.
  rewrite Hreq, Hdob, Hs', Hm, Hparse. cbn [andb negb].
  destruct (Date_gt (Some ms)
              (minimum_date env (dateOfBirth_minimum (register cfg))));
    reflexivity.
Qed.

(** The comparison of line 130 against a valid cutoff. *)
Lemma date_of_birth_compared env cfg body w s ms cutoff :
  dateOfBirth_required (register cfg) = true ->
  dateOfBirth_minimum (register cfg) <> 0%Z ->
  date_of_birth body = Some (dob_text s) -> s <> EmptyString ->
  Date_parse env s = Some ms ->
  minimum_date env (dateOfBirth_minimum (register cfg)) = Some cutoff ->
  ((ms <= cutoff)%Z ->
   check_date_of_birth env cfg body w
   = (inr (with_date_of_birth body (Some (dob_Date (Some ms)))), w) /\
   forall w0, checks_before_date_of_birth env cfg body w0 = (inr tt, w) ->
              router_post env cfg body w0
              = after_date_of_birth env cfg
                  (with_date_of_birth body (Some (dob_Date (Some ms)))) w) /\
  ((cutoff < ms)%Z ->
   check_date_of_birth env cfg body w = (inl (underage cfg), w) /\
   forall w0, checks_before_date_of_birth env cfg body w0 = (inr tt, w) ->
              router_post env cfg body w0 = (inl (underage cfg), w)) /\
  (ms = cutoff ->
   check_date_of_birth env cfg body w
   = (inr (with_date_of_birth body (Some (dob_Date (Some ms)))), w)) /\
  (ms = (cutoff + 86400000)%Z ->
   check_date_of_birth env cfg body w = (inl (underage cfg), w)).
Proof.
  intros Hreq Hmin Hdob Hs Hparse Hcut.
  pose proof (check_date_of_birth_parsed env cfg body w s ms
                Hreq Hmin Hdob Hs Hparse) as Hcheck.
  rewrite Hcut in Hcheck. cbn [Date_gt] in Hcheck.
  set (body' := with_date_of_birth body (Some (dob_Date (Some ms)))) in *.
  assert (Hle : (ms <= cutoff)%Z ->
                check_date_of_birth env cfg body w = (inr body', w)).
  { intros H. rewrite Hcheck.
    destruct (Z.ltb_spec cutoff ms); [lia|reflexivity]. }
  assert (Hgt : (cutoff < ms)%Z ->
                check_date_of_birth env cfg body w = (inl (underage cfg), w)).
  { intros H. rewrite Hcheck.
    destruct (Z.ltb_spec cutoff ms); [reflexivity|lia]. }
  split; [|split; [|split]].
  - intros H. split; [exact (Hle H)|].
    intros w0 Hbefore. unfold router_post.
    rewrite (bind_ok _ _ _ _ _ Hbefore). rewrite (bind_ok _ _ _ _ _ (Hle H)).
    reflexivity.
  - intros H. split; [exact (Hgt H)|].
    intros w0 Hbefore. unfold router_post.
    rewrite (bind_ok _ _ _ _ _ Hbefore).
    rewrite (bind_exit _ _ _ _ _ (Hgt H)). reflexivity.
  - intros E. apply Hle. lia.
  - intros E. apply Hgt. lia.
Qed.

(** Against an invalid cutoff the comparison is false. *)
Lemma date_of_birth_not_compared env cfg body w s ms :
  dateOfBirth_required (register cfg) = true ->
  dateOfBirth_minimum (register cfg) <> 0%Z ->
  date_of_birth body = Some (dob_text s) -> s <> EmptyString ->
  Date_parse env s = Some ms ->
  minimum_date env (dateOfBirth_minimum (register cfg)) = None ->
  check_date_of_birth env cfg body w
  = (inr (with_date_of_birth body (Some (dob_Date (Some ms)))), w).
Proof.
  intros Hreq Hmin Hdob Hs Hparse Hcut.
  rewrite (check_date_of_birth_parsed env cfg body w s ms
             Hreq Hmin Hdob Hs Hparse).
  rewrite Hcut. reflexivity.
Qed.


(** C8, as stated, fails when the minimum age puts the cutoff out of the
    range of [Date]: with a minimum of 300000 years the cutoff is in the
    year -297986, a date of birth in 2001 is later than it, and the check
    passes. *)
Lemma later_than_unrepresentable_cutoff_passes :
  ~ (forall env cfg body w s ms,
       dateOfBirth_required (register cfg) = true ->
       dateOfBirth_minimum (register cfg) <> 0%Z ->
       date_of_birth body = Some (dob_text s) -> s <> EmptyString ->
       Date_parse env s = Some ms ->
       (cutoff_instant env (dateOfBirth_minimum (register cfg)) < ms)%Z ->
       check_date_of_birth env cfg body w = (inl (underage cfg), w)).
Proof.
  intros H.
  specialize (H sample_env long_minimum_config
                (born "2001-09-10T01:46:40.000Z") fresh_world
                "2001-09-10T01:46:40.000Z" 1000086400000%Z
                eq_refl ltac:(discriminate) eq_refl ltac:(discriminate)
                eq_refl ltac:(vm_compute; reflexivity)).
  vm_compute in H. discriminate H.
Qed.


(** ** Invite redemption *)

(** The store once the account is created and the redemption called. *)
Lemma invite_rejected env cfg body body' w w1 code user reason :
  guards env cfg body w = (inr body', w1) ->
  invite body' = Some code -> code <> EmptyString ->
  User_register env body' = inr user ->
  Invite_joinGuild env user code = inl reason ->
  router_post env cfg body w =
  (inl (Threw (Rejected "Invite.joinGuild" reason)),
   {| accounts := accounts w1 ++ [user];
      calls := calls w1 ++
               [call_User_register body'; call_Invite_joinGuild user code] |}).
Proof.
  intros Hguards Hinvite Hcode Hregister Hjoin.
  rewrite router_post_guards. rewrite (bind_ok _ _ _ _ _ Hguards).
  unfold create_account, redeem_invite, truthy. unfold_monad.
  rewrite Hregister, Hinvite. cbn.
  assert (Hc : (code =? EmptyString) = false)
    by (apply String.eqb_neq; exact Hcode).
  rewrite Hc. cbn. rewrite Hjoin. rewrite <- app_assoc. reflexivity.
Qed.

(** When the redemption succeeds the route goes on to the token. *)
Lemma invite_redeemed env cfg body body' w w1 code user :
  guards env cfg body w = (inr body', w1) ->
  invite body' = Some code -> code <> EmptyString ->
  User_register env body' = inr user ->
  Invite_joinGuild env user code = inr tt ->
  router_post env cfg body w =
  await (call_generateToken user) "generateToken" (generateToken env user)
    {| accounts := accounts w1 ++ [user];
       calls := calls w1 ++
                [call_User_register body'; call_Invite_joinGuild user code] |}.
Proof.
  intros Hguards Hinvite Hcode Hregister Hjoin.
  rewrite router_post_guards. rewrite (bind_ok _ _ _ _ _ Hguards).
  unfold create_account, redeem_invite, truthy. unfold bind at 1 2.
  rewrite Hregister, Hinvite. cbn.
  assert (Hc : (code =? EmptyString) = false)
    by (apply String.eqb_neq; exact Hcode).
  rewrite Hc. cbn. unfold await at 1. rewrite Hjoin. cbn.
  rewrite <- app_assoc. reflexivity.
Qed.

(** C9.  When every guard has passed, the payload carries an invite and
    [User.register] returns the new account, the account is stored first and
    [Invite.joinGuild] is called next, whatever its answer.  If that call
    rejects, the route throws its rejection, the account stays stored, and
    nothing else is called: no token is generated and nothing undoes the
    creation.  If it resolves, the route goes on to the token. *)
Theorem invite_failure_keeps_account env cfg body body' w w1 code user :
  guards env cfg body w = (inr body', w1) ->
  invite body' = Some code -> code <> EmptyString ->
  User_register env body' = inr user ->
  let created :=
    {| accounts := accounts w1 ++ [user];
       calls := calls w1 ++
                [call_User_register body'; call_Invite_joinGuild user code] |} in
  (forall reason,
     Invite_joinGuild env user code = inl reason ->
     router_post env cfg body w =
     (inl (Threw (Rejected "Invite.joinGuild" reason)), created)) /\
  (Invite_joinGuild env user code = inr tt ->
   router_post env cfg body w =
   await (call_generateToken user) "generateToken" (generateToken env user)
     created).
Proof.
  intros Hguards Hinvite Hcode Hregister created. split.
  - intros reason Hjoin. eapply invite_rejected; eauto.
  - intros Hjoin. eapply invite_redeemed; eauto.
Qed.

(** An expired invite: the account exists, the request fails. *)
Lemma invite_failure_keeps_account_witness :
  let body := invited "expired" in
  let body' := with_password
                 (with_date_of_birth body
                    (Some (dob_Date (Some 1000000000000%Z))))
                 (Some "$2b$12$wtp9gep9gw") in
  let w1 := {| accounts := [];
               calls := [call_findOne_email "x@gmail.com";
                         call_bcrypt_hash "wtp9gep9gw"] |} in
  (guards sample_env open_config body fresh_world = (inr body', w1) /\
   invite body' = Some "expired" /\
   User_register sample_env body' = inr "id-of-x" /\
   Invite_joinGuild sample_env "id-of-x" "expired" = inl "Unknown Invite") /\
  router_post sample_env open_config body fresh_world =
  (inl (Threw (Rejected "Invite.joinGuild" "Unknown Invite")),
   {| accounts := ["id-of-x"];
      calls := [call_findOne_email "x@gmail.com";
                call_bcrypt_hash "wtp9gep9gw"; call_User_register body';
                call_Invite_joinGuild "id-of-x" "expired"] |}).
Proof.
  intros body body' w1.
  assert (Hcode : "expired" <> EmptyString) by discriminate.
  split; [repeat split; reflexivity|].
  exact (proj1 (invite_failure_keeps_account sample_env open_config body body'
                  fresh_world w1 "expired" "id-of-x"
                  eq_refl eq_refl Hcode eq_refl)
           "Unknown Invite" eq_refl).
Defined.

(** ** Guests and the date of birth *)

(** Case analysis on every test of an unfolded handler. *)
Ltac crunch H :=
  repeat (match type of H with
          | context [if ?c then _ else _] =>
              let E := fresh "E" in destruct c eqn:E
          | context [match ?x with Some _ => _ | None => _ end] =>
              let E := fresh "E" in destruct x eqn:E
          | context [match ?x with inl _ => _ | inr _ => _ end] =>
              let E := fresh "E" in destruct x eqn:E
          end; cbn in H).

(** No check before the date of birth throws its errors. *)
Lemma before_date_of_birth_other_errors env cfg body w x w' :
  checks_before_date_of_birth env cfg body w = (inl x, w') ->
  x <> date_of_birth_required.
Proof.
  intros H. unfold_in H. cbn in H.
  crunch H; inversion H; subst; discriminate.
Qed.

(** Nor does anything after it. *)
Lemma after_date_of_birth_other_errors env cfg body w x w' :
  after_date_of_birth env cfg body w = (inl x, w') ->
  x <> date_of_birth_required.
Proof.
  intros H. unfold_in H. cbn in H.
  crunch H; inversion H; subst; discriminate.
Qed.

(** The check itself throws it only for a payload with a password and
    without a date of birth, under a policy that requires one. *)
Lemma date_of_birth_required_inv env cfg body w w' :
  check_date_of_birth env cfg body w = (inl date_of_birth_required, w') ->
  dateOfBirth_required (register cfg) = true /\
  truthy_dob (date_of_birth body) = false /\
  truthy (password body) = true.
Proof.
  unfold check_date_of_birth. unfold_monad.
  destruct (dateOfBirth_required (register cfg));
    destruct (truthy_dob (date_of_birth body));
    destruct (truthy (password body)); cbn; auto;
    destruct (negb (dateOfBirth_minimum (register cfg) =? 0)%Z); cbn;
    try discriminate;
    destruct (Date_gt _ _); discriminate.
Qed.

(** C10.  A payload without a password and without a date of birth passes
    the date-of-birth check under every policy, the body unchanged but for
    the invalid [Date] that line 127 stores when an age is compared; and the
    route ends with BASE_TYPE_REQUIRED on [date_of_birth] only for a payload
    that has a password, has no date of birth, and meets a policy that
    requires one. *)
Theorem guest_needs_no_date_of_birth env cfg body :
  (truthy (password body) = false ->
   truthy_dob (date_of_birth body) = false ->
   forall w,
     check_date_of_birth env cfg body w = (inr body, w) \/
     check_date_of_birth env cfg body w
     = (inr (with_date_of_birth body (Some (dob_Date None))), w)) /\
  (forall w w',
     router_post env cfg body w = (inl date_of_birth_required, w') ->
     truthy (password body) = true /\
     truthy_dob (date_of_birth body) = false /\
     dateOfBirth_required (register cfg) = true).
Proof.
  split.
  - intros Hpw Hdob w. unfold check_date_of_birth. unfold_monad.
    rewrite Hpw, Hdob, andb_false_r.
    assert (Hnew : new_Date env (date_of_birth body) = None).
    { unfold new_Date, truthy_dob in *.
      destruct (date_of_birth body) as [[s|ms]|]; auto; [|discriminate].
      destruct (s =? EmptyString); auto. discriminate. }
    rewrite Hnew. cbn.
    destruct (dateOfBirth_required (register cfg)
              && negb (dateOfBirth_minimum (register cfg) =? 0)%Z); auto.
  - intros w w' H. unfold router_post in H.
    apply bind_inv in H. destruct H as [[x [H E]]|[[] [w1 [_ H]]]].
    { exfalso. injection E as <-.
      exact (before_date_of_birth_other_errors _ _ _ _ _ _ H eq_refl). }
    apply bind_inv in H. destruct H as [[x [H E]]|[b [w2 [_ H]]]].
    + injection E as <-.
      destruct (date_of_birth_required_inv _ _ _ _ _ H) as [? [? ?]]. auto.
    + exfalso.
      exact (after_date_of_birth_other_errors _ _ _ _ _ _ H eq_refl).
Qed.

(** A guest payload under a policy that requires the date of birth. *)
Lemma guest_needs_no_date_of_birth_witness :
  (truthy (password guest) = false /\
   truthy_dob (date_of_birth guest) = false /\
   dateOfBirth_required (register open_config) = true) /\
  (check_date_of_birth sample_env open_config guest fresh_world
   = (inr guest, fresh_world) \/
   check_date_of_birth sample_env open_config guest fresh_world
   = (inr (with_date_of_birth guest (Some (dob_Date None))), fresh_world)).
Proof.
  split; [repeat split; reflexivity|].
  exact (proj1 (guest_needs_no_date_of_birth sample_env open_config guest)
           eq_refl eq_refl fresh_world).
Defined.

(** The same payload with a password is refused. *)
Lemma password_needs_date_of_birth env cfg body w :
  dateOfBirth_required (register cfg) = true ->
  truthy_dob (date_of_birth body) = false ->
  truthy (password body) = true ->
  check_date_of_birth env cfg body w = (inl date_of_birth_required, w).
Proof.
  intros Hreq Hdob Hpw. unfold check_date_of_birth.
  rewrite Hreq, Hdob, Hpw. reflexivity.
Qed.

End RegistrationProperties.

(* ================================================================== *)
(** * Part I, further results: transitions of the relationship engine  *)
(* ================================================================== *)

Module EngineTransitions.
Import Relationships RelationshipTable Engine RelationshipRoutes.

Lemma sample_consistent w : consistentb w = true -> consistent w.
Proof. apply consistentb_sound. Qed.

Lemma ne12 : "1" <> "2".
Proof. discriminate. Qed.

(** ** A first request *)

(** Between two users without edges, a request by a caller below the cap
    appends two rows: the target's [incoming] edge, then the caller's
    [outgoing] edge.  The caller gets an ADD for the [outgoing] edge, the
    target an ADD for the [incoming] edge flagged [should_notify]. *)
Theorem request_creates_pending_pair cfg A B w :
  consistent w -> is_user w A -> is_user w B -> A <> B ->
  findEdge (relationships (db w)) A B = None ->
  findEdge (relationships (db w)) B A = None ->
  List.length (edges_of w A) < maxFriends cfg ->
  let ri := {| id := snowflake w; from_id := B; to_id := A;
               type := incoming |} in
  let ro := {| id := S (snowflake w); from_id := A; to_id := B;
               type := outgoing |} in
  exists w',
    requestOrAccept cfg A B w = (inr 204, w') /\
    relationships (db w') = relationships (db w) ++ [ri; ro] /\
    edge w' A B = Some outgoing /\ edge w' B A = Some incoming /\
    emitted w' =
      emitted w ++
      [{| event := RELATIONSHIP_ADD; user_id := A; data := ro;
          should_notify := false |};
       {| event := RELATIONSHIP_ADD; user_id := B; data := ri;
          should_notify := true |}].
Proof.
  intros Hc HA HB Hne HAB HBA Hcap ri ro.
  destruct (request_ok cfg A B w Hc HA HB Hne Hcap) as [w' H].
  { intros fr E. congruence. }
  { intros r E. congruence. }
  cbn zeta in H. rewrite HAB, HBA in H. fold ri ro in H.
  destruct H as [Hrun [_ [_ [Hrows [[E1 [E2 _]] Hev]]]]].
  destruct Hc as [[_ Hfresh _] _].
  exists w'. repeat split; auto.
  - rewrite Hrows.
    rewrite (save_rows_fresh (snowflake w) _ ri Hfresh (le_n _)).
    rewrite (save_rows_fresh (S (snowflake w)) _ ro).
    + rewrite <- app_assoc. reflexivity.
    + apply Forall_app. split.
      * eapply Forall_impl; [|exact Hfresh]. cbn. intros. lia.
      * repeat constructor.
    + unfold ro. cbn. lia.
  - unfold edge. rewrite E1. reflexivity.
  - unfold edge. rewrite E2. reflexivity.
Qed.

(** A first request between users 1 and 2 of a store without relationships. *)
Lemma request_creates_pending_pair_witness :
  let cfg := {| maxFriends := 5 |} in
  (consistent four_users /\
   findEdge (relationships (db four_users)) "1" "2" = None /\
   List.length (edges_of four_users "1") < maxFriends cfg) /\
  exists w',
    requestOrAccept cfg "1" "2" four_users = (inr 204, w') /\
    edge w' "1" "2" = Some outgoing /\ edge w' "2" "1" = Some incoming.
Proof.
  intros cfg.
  assert (Hcap : List.length (edges_of four_users "1") < maxFriends cfg)
    by (cbn; lia).
  split; [exact (conj (sample_consistent four_users eq_refl)
                   (conj eq_refl Hcap))|].
  destruct (request_creates_pending_pair cfg "1" "2" four_users
              (sample_consistent four_users eq_refl) eq_refl eq_refl ne12
              eq_refl eq_refl Hcap) as [w' [H1 [_ [H2 [H3 _]]]]].
  exists w'. auto.
Defined.

(** ** Acceptance *)

Lemma replace_map_id (r' : Relationship) pk rows :
  id r' = pk ->
  map id (map (fun x => if (id x =? pk)%nat then r' else x) rows) = map id rows.
Proof.
  intros E. rewrite map_map. apply map_ext. intros x.
  destruct (Nat.eqb_spec (id x) pk); congruence.
Qed.

Lemma save_rows_existing_ids r t rows :
  In r rows -> map id (save_rows (with_type r t) rows) = map id rows.
Proof.
  intros Hin. unfold save_rows.
  rewrite (existsb_present r (id (with_type r t)) rows Hin eq_refl).
  apply replace_map_id. reflexivity.
Qed.

(** When B has sent A a request, a request by A (below the cap) accepts it:
    both rows become [friends] in place, with the primary keys they had and
    no row added; A gets an ADD for its edge, B an ADD for its edge flagged
    [should_notify]. *)
Theorem request_accepts_pending cfg A B w r fr :
  consistent w -> is_user w A -> is_user w B -> A <> B ->
  findEdge (relationships (db w)) A B = Some r -> type r = incoming ->
  findEdge (relationships (db w)) B A = Some fr -> type fr = outgoing ->
  List.length (edges_of w A) < maxFriends cfg ->
  exists w',
    requestOrAccept cfg A B w = (inr 204, w') /\
    findEdge (relationships (db w')) A B = Some (with_type r friends) /\
    findEdge (relationships (db w')) B A = Some (with_type fr friends) /\
    map id (relationships (db w')) = map id (relationships (db w)) /\
    (forall a b, ~ (a = A /\ b = B) -> ~ (a = B /\ b = A) ->
       findEdge (relationships (db w')) a b
       = findEdge (relationships (db w)) a b) /\
    emitted w' =
      emitted w ++
      [{| event := RELATIONSHIP_ADD; user_id := A;
          data := with_type r friends; should_notify := false |};
       {| event := RELATIONSHIP_ADD; user_id := B;
          data := with_type fr friends; should_notify := true |}].
Proof.
  intros Hc HA HB Hne Hr Tr Hfr Tfr Hcap.
  destruct (request_ok cfg A B w Hc HA HB Hne Hcap) as [w' H].
  { intros fr' E. rewrite Hfr in E. injection E as <-. auto. }
  { intros r' E. rewrite Hr in E. injection E as <-. auto. }
  cbn zeta in H. rewrite Hr, Hfr in H.
  destruct H as [Hrun [_ [_ [Hrows [[E1 [E2 E3]] Hev]]]]].
  exists w'. repeat split; auto.
  rewrite Hrows.
  destruct (findEdge_Some _ _ _ _ Hr) as [Hin _].
  destruct (findEdge_Some _ _ _ _ Hfr) as [Hinf _].
  rewrite save_rows_existing_ids.
  - apply save_rows_existing_ids. exact Hinf.
  - destruct Hc as [Hwf _].
    assert (Hfr' : findEdge (relationships (db w)) (from_id fr) (to_id fr)
                   = Some fr).
    { destruct (findEdge_Some _ _ _ _ Hfr) as [_ [-> ->]]. exact Hfr. }
    destruct (save_existing_spec _ _ fr friends Hwf Hfr') as [_ E].
    assert (Hr1 : findEdge (save_rows (with_type fr friends)
                              (relationships (db w))) A B = Some r).
    { rewrite E.
      destruct (findEdge_Some _ _ _ _ Hfr) as [_ [F T]].
      rewrite (matches_swap B A fr); auto. }
    apply (findEdge_Some _ _ _ _ Hr1).
Qed.

(** User 1 accepts the pending request of user 2. *)
Lemma request_accepts_pending_witness :
  let cfg := {| maxFriends := 5 |} in
  let r := {| id := 0; from_id := "1"; to_id := "2"; type := incoming |} in
  let fr := {| id := 1; from_id := "2"; to_id := "1"; type := outgoing |} in
  (consistent pending_request /\
   findEdge (relationships (db pending_request)) "1" "2" = Some r /\
   findEdge (relationships (db pending_request)) "2" "1" = Some fr /\
   List.length (edges_of pending_request "1") < maxFriends cfg) /\
  exists w',
    requestOrAccept cfg "1" "2" pending_request = (inr 204, w') /\
    findEdge (relationships (db w')) "1" "2" = Some (with_type r friends) /\
    findEdge (relationships (db w')) "2" "1" = Some (with_type fr friends) /\
    map id (relationships (db w')) = map id (relationships (db pending_request)).
Proof.
  intros cfg r fr.
  assert (Hcap : List.length (edges_of pending_request "1") < maxFriends cfg)
    by (vm_compute; lia).
  split; [exact (conj (sample_consistent pending_request eq_refl)
                   (conj eq_refl (conj eq_refl Hcap)))|].
  destruct (request_accepts_pending cfg "1" "2" pending_request r fr
              (sample_consistent pending_request eq_refl) eq_refl eq_refl ne12
              eq_refl eq_refl eq_refl eq_refl Hcap)
    as [w' [H1 [H2 [H3 [H4 _]]]]].
  exists w'. auto.
Defined.

(** ** Refused requests *)





(** ** Removal *)

(** Unblocking (lines 81-93): the caller's [blocked] row is deleted and
    nothing else; whatever the other user holds toward the caller stays, and
    the only event is a REMOVE to the caller.  A request by the other user
    is then no longer refused with "The user blocked you". *)
Theorem remove_unblocks cfg A B w r :
  consistent w -> is_user w A -> is_user w B -> A <> B ->
  findEdge (relationships (db w)) A B = Some r -> type r = blocked ->
  exists w',
    remove A B w = (inr 204, w') /\
    relationships (db w') = delete_rows (id r) (relationships (db w)) /\
    findEdge (relationships (db w')) A B = None /\
    (forall a b, ~ (a = A /\ b = B) ->
       findEdge (relationships (db w')) a b
       = findEdge (relationships (db w)) a b) /\
    emitted w' =
      emitted w ++
      [{| event := RELATIONSHIP_REMOVE; user_id := A; data := r;
          should_notify := false |}] /\
    fst (requestOrAccept cfg B A w') <> inl (HTTPError "The user blocked you" 400).
Proof.
  intros Hc HA HB Hne Hr Tr.
  destruct Hc as [Hwf Hh].
  destruct (delete_found _ _ A B r Hwf Hne Hr) as [_ [E1 [E2 E3]]].
  assert (Hrun : remove A B w =
                 (inr 204,
                  {| db := {| users := users (db w);
                              relationships :=
                                delete_rows (id r) (relationships (db w)) |};
                     snowflake := snowflake w;
                     emitted := emitted w ++
                       [{| event := RELATIONSHIP_REMOVE; user_id := A;
                           data := r; should_notify := false |}];
                     calls := calls w ++
                       [FindOneOrFail A; FindOneOrFail B; Delete (id r)] |})).
  { clear E1 E2 E3 Hwf Hh. open_world w. run.
    destruct (String.eqb_spec B A) as [E|_]; [congruence|]. cbn.
    rewrite HA. cbn. rewrite HB. cbn. rewrite !find_loaded, Hr, Tr. cbn.
    rewrite <- !app_assoc. reflexivity. }
  eexists. split; [exact Hrun|]. cbn. repeat split; auto.
  - intros a b Hab.
    destruct (string_dec a B) as [->|Na]; [destruct (string_dec b A) as [->|Nb]|].
    + exact E2.
    + apply E3; tauto.
    + apply E3; tauto.
  - (* the former target is no longer blocked by the caller *)
    set (w' := {| db := _ |}).
    intros Hres.
    assert (HA' : is_user w' A) by exact HA.
    assert (HB' : is_user w' B) by exact HB.
    revert Hres. unfold w'. clear w' HA' HB'.
    open_world w. run. rewrite HA. cbn.
    destruct (String.eqb_spec A B) as [E|_]; [congruence|]. cbn.
    rewrite HB. cbn. rewrite !find_loaded. rewrite E1.
    destruct (_ <=? _)%nat; cbn; [discriminate|].
    destruct (findEdge (delete_rows (id r) rows) B A) as [x|];
      [destruct (type x)|]; cbn; discriminate.
Qed.

(** User 2, who had blocked user 1, unblocks. *)
Lemma remove_unblocks_witness :
  let cfg := {| maxFriends := 5 |} in
  let r := {| id := 0; from_id := "2"; to_id := "1"; type := blocked |} in
  (consistent blocked_by_2 /\
   findEdge (relationships (db blocked_by_2)) "2" "1" = Some r) /\
  exists w',
    remove "2" "1" blocked_by_2 = (inr 204, w') /\
    relationships (db w') = [] /\
    emitted w' =
      emitted blocked_by_2 ++
      [{| event := RELATIONSHIP_REMOVE; user_id := "2"; data := r;
          should_notify := false |}].
Proof.
  intros cfg r.
  assert (Hne : "2" <> "1") by discriminate.
  split; [exact (conj (sample_consistent blocked_by_2 eq_refl) eq_refl)|].
  destruct (remove_unblocks cfg "2" "1" blocked_by_2 r
              (sample_consistent blocked_by_2 eq_refl) eq_refl eq_refl Hne
              eq_refl eq_refl) as [w' [H1 [H2 [_ [_ [H3 _]]]]]].
  exists w'. split; [exact H1|]. split; [exact H2|exact H3].
Defined.

(** Removing an edge that is not a block (a friendship, a request sent or a
    request received) while the other side holds its counterpart: both rows
    are deleted, whichever side asks; the other user gets a REMOVE for its
    own row, then the caller for its own. *)
Theorem remove_deletes_both_sides A B w r fr :
  consistent w -> is_user w A -> is_user w B -> A <> B ->
  findEdge (relationships (db w)) A B = Some r -> type r <> blocked ->
  findEdge (relationships (db w)) B A = Some fr -> type fr <> blocked ->
  exists w',
    remove A B w = (inr 204, w') /\
    relationships (db w')
    = delete_rows (id r) (delete_rows (id fr) (relationships (db w))) /\
    findEdge (relationships (db w')) A B = None /\
    findEdge (relationships (db w')) B A = None /\
    (forall a b, ~ (a = A /\ b = B) -> ~ (a = B /\ b = A) ->
       findEdge (relationships (db w')) a b
       = findEdge (relationships (db w)) a b) /\
    emitted w' =
      emitted w ++
      [{| event := RELATIONSHIP_REMOVE; user_id := B; data := fr;
          should_notify := false |};
       {| event := RELATIONSHIP_REMOVE; user_id := A; data := r;
          should_notify := false |}].
Proof.
  intros Hc HA HB Hne Hr Tr Hfr Tfr.
  destruct (remove_ok A B w r Hc HA HB Hne Hr)
    as [w' [Hrun [_ [_ [[E1 [E2 E3]] Hev]]]]].
  assert (is_blocked r = false) as Hb
    by (unfold is_blocked; destruct (type r); congruence).
  assert (is_blocked fr = false) as Hbf
    by (unfold is_blocked; destruct (type fr); congruence).
  rewrite Hb, Hfr in E2, Hev. unfold kept_block, removal in *.
  rewrite Hbf in E2, Hev. cbn in Hev.
  exists w'. repeat split; auto.
  clear E1 E2 E3 Hev Hc. revert Hrun. open_world w. run.
  destruct (String.eqb_spec B A) as [E|_]; [congruence|]. cbn.
  rewrite HA. cbn. rewrite HB. cbn. rewrite !find_loaded, Hr, Hfr.
  unfold is_blocked in Hb, Hbf.
  destruct (type r); try discriminate; destruct (type fr); try discriminate;
    cbn; intros [= <-]; reflexivity.
Qed.

(** User 2 withdraws the request it sent to user 1. *)
Lemma remove_deletes_both_sides_witness :
  let r := {| id := 1; from_id := "2"; to_id := "1"; type := outgoing |} in
  let fr := {| id := 0; from_id := "1"; to_id := "2"; type := incoming |} in
  (consistent pending_request /\
   findEdge (relationships (db pending_request)) "2" "1" = Some r /\
   findEdge (relationships (db pending_request)) "1" "2" = Some fr) /\
  exists w',
    remove "2" "1" pending_request = (inr 204, w') /\
    relationships (db w') = [].
Proof.
  intros r fr.
  assert (Hne : "2" <> "1") by discriminate.
  assert (Tr : type r <> blocked) by discriminate.
  assert (Tfr : type fr <> blocked) by discriminate.
  split; [exact (conj (sample_consistent pending_request eq_refl)
                   (conj eq_refl eq_refl))|].
  destruct (remove_deletes_both_sides "2" "1" pending_request r fr
              (sample_consistent pending_request eq_refl) eq_refl eq_refl Hne
              eq_refl Tr eq_refl Tfr) as [w' [H1 [H2 _]]].
  exists w'. split; [exact H1|exact H2].
Defined.

(** ** Undoing *)

Lemma delete_last n rows r :
  Forall (fun x => id x < n) rows -> n <= id r ->
  delete_rows (id r) (rows ++ [r]) = rows.
Proof.
  intros HF Hle. unfold delete_rows. rewrite filter_app. cbn.
  rewrite Nat.eqb_refl. cbn. rewrite app_nil_r.
  apply (delete_absent (id r) rows).
  apply (EngineProperties.fresh_not_in n); auto.
Qed.

Lemma delete_before_last pk rows r :
  id r <> pk -> delete_rows pk (rows ++ [r]) = delete_rows pk rows ++ [r].
Proof.
  intros Hne. unfold delete_rows. rewrite filter_app. cbn.
  destruct (Nat.eqb_spec (id r) pk); [congruence|reflexivity].
Qed.

(** A block of a user with whom the caller has no edge (and who holds none
    toward the caller, or its own block), then its removal, gives back the
    relationship table as it was, row for row. *)
Theorem block_then_unblock_restores cfg A B w :
  consistent w -> is_user w A -> is_user w B -> A <> B ->
  findEdge (relationships (db w)) A B = None ->
  (forall fr, findEdge (relationships (db w)) B A = Some fr ->
              type fr = blocked) ->
  exists w1 w2,
    block cfg A B w = (inr 204, w1) /\
    remove A B w1 = (inr 204, w2) /\
    db w2 = db w.
Proof.
  intros [[_ Hfresh _] _] HA HB Hne HAB HBA. open_world w.
  set (rb := {| id := n; from_id := A; to_id := B; type := blocked |}).
  assert (Hsave : save_rows rb rows = rows ++ [rb])
    by (apply (save_rows_fresh n); auto).
  assert (H1 : findEdge (rows ++ [rb]) A B = Some rb).
  { rewrite findEdge_app, HAB. unfold matches. cbn.
    rewrite !String.eqb_refl. reflexivity. }
  assert (Hdel : delete_rows n (rows ++ [rb]) = rows)
    by (apply (delete_last n rows rb); auto).
  eexists _, _. split; [|split].
  - run. rewrite HB. cbn.
    destruct (String.eqb_spec B A) as [E|_]; [congruence|]. cbn.
    rewrite HA. cbn. rewrite !find_loaded, HAB. cbn. fold rb.
    rewrite Hsave.
    destruct (findEdge rows B A) as [fr|] eqn:Efr;
      [rewrite (HBA fr eq_refl)|]; cbn; reflexivity.
  - destruct (findEdge rows B A) as [fr|] eqn:Efr; run;
      (destruct (String.eqb_spec B A) as [E|_]; [congruence|]); cbn;
      rewrite HA; cbn; rewrite HB; cbn; rewrite !find_loaded, H1; cbn;
      reflexivity.
  - destruct (findEdge rows B A) as [fr|] eqn:Efr; cbn; rewrite Hdel;
      reflexivity.
Qed.

(** User 1 blocks user 2, then unblocks. *)
Lemma block_then_unblock_restores_witness :
  let cfg := {| maxFriends := 5 |} in
  (consistent friendship /\
   findEdge (relationships (db friendship)) "3" "4" = None /\
   findEdge (relationships (db friendship)) "4" "3" = None) /\
  exists w1 w2,
    block cfg "3" "4" friendship = (inr 204, w1) /\
    remove "3" "4" w1 = (inr 204, w2) /\
    db w2 = db friendship.
Proof.
  intros cfg.
  assert (Hne : "3" <> "4") by discriminate.
  assert (HBA : forall fr,
            findEdge (relationships (db friendship)) "4" "3" = Some fr ->
            type fr = blocked) by (intros fr E; discriminate E).
  split; [exact (conj (sample_consistent friendship eq_refl)
                   (conj eq_refl eq_refl))|].
  exact (block_then_unblock_restores cfg "3" "4" friendship
           (sample_consistent friendship eq_refl) eq_refl eq_refl Hne
           eq_refl HBA).
Defined.

(** A first request, then its withdrawal by the sender or its refusal by
    the receiver, gives back the relationship table as it was, row for
    row. *)
Theorem request_then_remove_restores cfg A B w :
  consistent w -> is_user w A -> is_user w B -> A <> B ->
  findEdge (relationships (db w)) A B = None ->
  findEdge (relationships (db w)) B A = None ->
  List.length (edges_of w A) < maxFriends cfg ->
  exists w1,
    requestOrAccept cfg A B w = (inr 204, w1) /\
    (exists w2, remove A B w1 = (inr 204, w2) /\ db w2 = db w) /\
    (exists w2, remove B A w1 = (inr 204, w2) /\ db w2 = db w).
Proof.
  intros Hc HA HB Hne HAB HBA Hcap.
  assert (Hne' : B <> A) by congruence.
  destruct (request_ok cfg A B w Hc HA HB Hne Hcap) as [w1 H].
  { intros fr E. congruence. }
  { intros r E. congruence. }
  cbn zeta in H. rewrite HAB, HBA in H.
  destruct H as [Hrun [_ [Hus [Hrows [[E1 [E2 _]] _]]]]].
  destruct Hc as [[_ Hfresh _] _].
  set (ri := {| id := snowflake w; from_id := B; to_id := A;
                type := incoming |}) in *.
  set (ro := {| id := S (snowflake w); from_id := A; to_id := B;
                type := outgoing |}) in *.
  assert (Hfresh' : Forall (fun x => id x < S (snowflake w))
                      (relationships (db w) ++ [ri])).
  { apply Forall_app. split.
    - eapply Forall_impl; [|exact Hfresh]. cbn. intros. lia.
    - repeat constructor. }
  assert (Erows : relationships (db w1) = (relationships (db w) ++ [ri]) ++ [ro]).
  { rewrite Hrows.
    rewrite (save_rows_fresh (snowflake w) _ ri Hfresh (le_n _)).
    rewrite (save_rows_fresh (S (snowflake w)) _ ro Hfresh'); auto. }
  assert (Hdel1 : delete_rows (id ro) (delete_rows (id ri) (relationships (db w1)))
                  = relationships (db w)).
  { rewrite Erows. rewrite delete_before_last; [|cbn; lia].
    rewrite (delete_last (snowflake w) _ ri Hfresh (le_n _)).
    apply (delete_last (snowflake w) _ ro Hfresh). cbn. lia. }
  assert (Hdel2 : delete_rows (id ri) (delete_rows (id ro) (relationships (db w1)))
                  = relationships (db w)).
  { rewrite Erows.
    rewrite (delete_last (S (snowflake w)) _ ro Hfresh'); [|cbn; lia].
    apply (delete_last (snowflake w) _ ri Hfresh (le_n _)). }
  exists w1. split; [exact Hrun|].
  clear Hrun Hrows Erows Hfresh Hfresh'.
  destruct w as [[us rows] n ev cs]. destruct w1 as [[us1 rows1] n1 ev1 cs1].
  unfold is_user in *. cbn in *. subst us1.
  split; eexists; (split; [|cbn; f_equal]).
  - run. destruct (String.eqb_spec B A) as [E|_]; [congruence|]. cbn.
    rewrite HA. cbn. rewrite HB. cbn. rewrite !find_loaded, E1, E2. cbn.
    reflexivity.
  - cbn. f_equal. exact Hdel1.
  - run. destruct (String.eqb_spec A B) as [E|_]; [congruence|]. cbn.
    rewrite HB. cbn. rewrite HA. cbn. rewrite !find_loaded, E1, E2. cbn.
    reflexivity.
  - cbn. f_equal. exact Hdel2.
Qed.

(** User 3 asks user 4; either of them then removes the other. *)
Lemma request_then_remove_restores_witness :
  let cfg := {| maxFriends := 5 |} in
  (consistent friendship /\
   findEdge (relationships (db friendship)) "3" "4" = None /\
   findEdge (relationships (db friendship)) "4" "3" = None /\
   List.length (edges_of friendship "3") < maxFriends cfg) /\
  exists w1,
    requestOrAccept cfg "3" "4" friendship = (inr 204, w1) /\
    (exists w2, remove "3" "4" w1 = (inr 204, w2) /\ db w2 = db friendship) /\
    (exists w2, remove "4" "3" w1 = (inr 204, w2) /\ db w2 = db friendship).
Proof.
  intros cfg.
  assert (Hne : "3" <> "4") by discriminate.
  assert (Hcap : List.length (edges_of friendship "3") < maxFriends cfg)
    by (vm_compute; lia).
  split; [exact (conj (sample_consistent friendship eq_refl)
                   (conj eq_refl (conj eq_refl Hcap)))|].
  exact (request_then_remove_restores cfg "3" "4" friendship
           (sample_consistent friendship eq_refl) eq_refl eq_refl Hne
           eq_refl eq_refl Hcap).
Defined.

(** ** Unknown users *)

(** A target that does not exist: [router.put] stops at its first lookup
    and [router.delete] at its second, with the error of [findOneOrFail]
    (and not the 404 of a missing relationship); nothing is written or
    emitted. *)
Theorem unknown_target_not_found cfg A B w :
  existsb (String.eqb B) (users (db w)) = false -> is_user w A ->
  (forall bt,
     router_put cfg {| req_user_id := A; params_id := B; body_type := bt |} w
     = (inl (EntityNotFound B),
        {| db := db w; snowflake := snowflake w; emitted := emitted w;
           calls := calls w ++ [FindOneOrFail B] |})) /\
  remove A B w
  = (inl (EntityNotFound B),
     {| db := db w; snowflake := snowflake w; emitted := emitted w;
        calls := calls w ++ [FindOneOrFail A; FindOneOrFail B] |}).
Proof.
  intros HB HA. open_world w. split.
  - intros bt. run. rewrite HB. reflexivity.
  - run. destruct (String.eqb_spec B A) as [E|_].
    + subst B. congruence.
    + cbn. rewrite HA. cbn. rewrite HB. cbn. rewrite <- app_assoc.
      reflexivity.
Qed.

(** User 1 targets a user 9 that does not exist. *)
Lemma unknown_target_not_found_witness :
  (existsb (String.eqb "9") (users (db four_users)) = false /\
   is_user four_users "1") /\
  remove "1" "9" four_users
  = (inl (EntityNotFound "9"),
     {| db := db four_users; snowflake := snowflake four_users;
        emitted := emitted four_users;
        calls := calls four_users ++ [FindOneOrFail "1"; FindOneOrFail "9"] |}).
Proof.
  split; [split; reflexivity|].
  exact (proj2 (unknown_target_not_found {| maxFriends := 5 |} "1" "9"
                  four_users eq_refl eq_refl)).
Defined.

(** ** What no request does *)

Lemma failed_request_changes_nothing_aux cfg i w e w' :
  perform cfg i w = (inl e, w') ->
  db w' = db w /\ emitted w' = emitted w.
Proof.
  intros Hrun. destruct i as [A B|A B|A B]; unfold perform in Hrun.
  - pose proof (router_put_outcome _ _ _ _ _ Hrun) as H. cbn in H. tauto.
  - pose proof (router_put_outcome _ _ _ _ _ Hrun) as H. cbn in H. tauto.
  - pose proof (router_delete_outcome _ _ _ _ Hrun) as H. cbn in H. tauto.
Qed.

(** A request that fails, whichever it is and whatever the store, has
    written nothing and emitted nothing: the table, the users and the events
    are as before, and the only database calls were lookups. *)
Theorem failed_request_changes_nothing cfg i w e w' :
  perform cfg i w = (inl e, w') ->
  db w' = db w /\ emitted w' = emitted w /\
  reads_only (calls w) (calls w').
Proof.
  intros Hrun. destruct i as [A B|A B|A B]; unfold perform in Hrun.
  - pose proof (router_put_outcome _ _ _ _ _ Hrun) as H. cbn in H. tauto.
  - pose proof (router_put_outcome _ _ _ _ _ Hrun) as H. cbn in H. tauto.
  - pose proof (router_delete_outcome _ _ _ _ Hrun) as H. cbn in H. tauto.
Qed.

(** A second block of the same user fails. *)
Lemma failed_request_changes_nothing_witness :
  let cfg := {| maxFriends := 5 |} in
  let w' := snd (perform cfg (Block "2" "1") blocked_by_2) in
  perform cfg (Block "2" "1") blocked_by_2 = (inl AlreadyBlocked, w') /\
  db w' = db blocked_by_2 /\ emitted w' = emitted blocked_by_2 /\
  reads_only (calls blocked_by_2) (calls w').
Proof.
  intros cfg w'. split; [reflexivity|].
  exact (failed_request_changes_nothing cfg (Block "2" "1") blocked_by_2
           AlreadyBlocked w' eq_refl).
Defined.

Lemma parties_far i a b :
  ~ (a = fst (parties i) /\ b = snd (parties i)) ->
  ~ (a = snd (parties i) /\ b = fst (parties i)) ->
  forall X Y, (i = RequestOrAccept X Y \/ i = Block X Y \/ i = Remove X Y) ->
              ~ (a = X /\ b = Y) /\ ~ (a = Y /\ b = X).
Proof.
  intros H1 H2 X Y [-> | [-> | ->]]; cbn in *; auto.
Qed.

Lemma perform_users cfg i w :
  consistent w -> users (db (snd (perform cfg i w))) = users (db w).
Proof.
  intros Hc. destruct (perform cfg i w) as [res w'] eqn:Hrun. cbn.
  destruct res as [e|s].
  - destruct (failed_request_changes_nothing_aux cfg i w e w' Hrun) as [-> _].
    reflexivity.
  - destruct i as [X Y|X Y|X Y]; unfold perform in Hrun.
    + pose proof (router_put_outcome _ _ _ _ _ Hrun) as H. cbn in H.
      destruct H as [HX [HY [Hne [Hcap [Hfr Hr]]]]].
      destruct (request_ok cfg X Y w Hc HX HY Hne Hcap Hfr Hr)
        as [w1 [Hrun1 [_ [Hus _]]]].
      rewrite Hrun in Hrun1. injection Hrun1 as _ <-. exact Hus.
    + pose proof (router_put_outcome _ _ _ _ _ Hrun) as H. cbn in H.
      destruct H as [HX [HY [Hne Hnb]]].
      destruct (block_ok cfg X Y w Hc HX HY Hne Hnb)
        as [w1 [rb [Hrun1 [_ [Hus _]]]]].
      rewrite Hrun in Hrun1. injection Hrun1 as _ <-. exact Hus.
    + pose proof (router_delete_outcome _ _ _ _ Hrun) as H. cbn in H.
      destruct H as [HX [HY [Hne [r Hr]]]].
      destruct (remove_ok X Y w r Hc HX HY Hne Hr)
        as [w1 [Hrun1 [_ [Hus _]]]].
      rewrite Hrun in Hrun1. injection Hrun1 as _ <-. exact Hus.
Qed.

(** A request between two users, failed or not, changes no edge of any other
    ordered pair, and never the list of users. *)
Theorem other_pairs_untouched cfg i w a b :
  consistent w ->
  ~ (a = fst (parties i) /\ b = snd (parties i)) ->
  ~ (a = snd (parties i) /\ b = fst (parties i)) ->
  edge (snd (perform cfg i w)) a b = edge w a b /\
  users (db (snd (perform cfg i w))) = users (db w).
Proof.
  intros Hc H1 H2. split.
  - unfold edge.
    rewrite (EngineProperties.perform_frame cfg i w a b Hc
               (parties_far i a b H1 H2)).
    reflexivity.
  - apply perform_users. exact Hc.
Qed.

(** User 3 blocks user 4 in a store where users 1 and 2 are friends. *)
Lemma other_pairs_untouched_witness :
  let cfg := {| maxFriends := 5 |} in
  consistent friendship /\
  edge (snd (perform cfg (Block "3" "4") friendship)) "1" "2"
  = edge friendship "1" "2" /\
  users (db (snd (perform cfg (Block "3" "4") friendship)))
  = users (db friendship).
Proof.
  intros cfg. split; [exact (sample_consistent friendship eq_refl)|].
  apply (other_pairs_untouched cfg (Block "3" "4") friendship "1" "2"
           (sample_consistent friendship eq_refl)).
  - cbn. intros [E _]. discriminate E.
  - cbn. intros [E _]. discriminate E.
Defined.

(** ** Events *)

Lemma skipn_length_app {A : Type} (l1 l2 : list A) :
  skipn (List.length l1) (l1 ++ l2) = l2.
Proof. induction l1 as [|x l1 IH]; cbn; auto. Qed.

Lemma emitted_since_app w w' l :
  emitted w' = emitted w ++ l -> emitted_since w w' = l.
Proof.
  intros E. unfold emitted_since. rewrite E. apply skipn_length_app.
Qed.

Lemma emitted_since_same w w' :
  emitted w' = emitted w -> emitted_since w w' = [].
Proof.
  intros E. apply emitted_since_app. rewrite E, app_nil_r. reflexivity.
Qed.

(** The events of a request go to its two users only, and each carries the
    recipient's own edge toward the other user, never the counterpart's. *)
Theorem events_carry_own_edge cfg i w e :
  consistent w ->
  In e (emitted_since w (snd (perform cfg i w))) ->
  from_id (data e) = user_id e /\
  ((user_id e = fst (parties i) /\ to_id (data e) = snd (parties i)) \/
   (user_id e = snd (parties i) /\ to_id (data e) = fst (parties i))).
Proof.
  intros Hc. destruct (perform cfg i w) as [res w'] eqn:Hrun. cbn.
  destruct res as [err|s].
  { destruct (failed_request_changes_nothing_aux cfg i w err w' Hrun) as [_ E].
    rewrite (emitted_since_same _ _ E). intros []. }
  assert (Hrem : forall X Y, In e (removal Y (findEdge (relationships (db w)) Y X)) ->
                 from_id (data e) = user_id e /\ user_id e = Y /\
                 to_id (data e) = X).
  { intros X Y. unfold removal.
    destruct (findEdge (relationships (db w)) Y X) as [fr|] eqn:Efr; [|intros []].
    destruct (is_blocked fr); [intros []|].
    intros [<-|[]]. cbn. destruct (findEdge_Some _ _ _ _ Efr) as [_ [F T]].
    auto. }
  destruct i as [X Y|X Y|X Y]; unfold perform in Hrun; cbn [parties fst snd].
  - pose proof (router_put_outcome _ _ _ _ _ Hrun) as H. cbn in H.
    destruct H as [HX [HY [Hne [Hcap [Hfr Hr]]]]].
    destruct (request_ok cfg X Y w Hc HX HY Hne Hcap Hfr Hr)
      as [w1 [Hrun1 [_ [_ [_ [[E1 [E2 _]] Hev]]]]]].
    rewrite Hrun in Hrun1. injection Hrun1 as _ <-.
    rewrite (emitted_since_app _ _ _ Hev).
    destruct (findEdge_Some _ _ _ _ E1) as [_ [F1 T1]].
    destruct (findEdge_Some _ _ _ _ E2) as [_ [F2 T2]].
    intros [<-|[<-|[]]]; cbn; auto.
  - pose proof (router_put_outcome _ _ _ _ _ Hrun) as H. cbn in H.
    destruct H as [HX [HY [Hne Hnb]]].
    destruct (block_ok cfg X Y w Hc HX HY Hne Hnb)
      as [w1 [rb [Hrun1 [_ [_ [F [T [_ [_ Hev]]]]]]]]].
    rewrite Hrun in Hrun1. injection Hrun1 as _ <-.
    rewrite (emitted_since_app _ _ _ Hev).
    intros Hin. apply in_app_or in Hin. destruct Hin as [Hin|[<-|[]]].
    + destruct (Hrem X Y Hin) as [? [? ?]]. auto.
    + cbn. auto.
  - pose proof (router_delete_outcome _ _ _ _ Hrun) as H. cbn in H.
    destruct H as [HX [HY [Hne [r Hr]]]].
    destruct (remove_ok X Y w r Hc HX HY Hne Hr)
      as [w1 [Hrun1 [_ [_ [_ Hev]]]]].
    rewrite Hrun in Hrun1. injection Hrun1 as _ <-.
    rewrite (emitted_since_app _ _ _ Hev).
    destruct (findEdge_Some _ _ _ _ Hr) as [_ [F T]].
    intros Hin. apply in_app_or in Hin. destruct Hin as [Hin|[<-|[]]].
    + destruct (is_blocked r); [destruct Hin|].
      destruct (Hrem X Y Hin) as [? [? ?]]. auto.
    + cbn. auto.
Qed.

(** The event user 2 receives when user 1 blocks it while its request is
    pending. *)
Lemma events_carry_own_edge_witness :
  let cfg := {| maxFriends := 5 |} in
  let e := {| event := RELATIONSHIP_REMOVE; user_id := "2";
              data := {| id := 1; from_id := "2"; to_id := "1";
                         type := outgoing |};
              should_notify := false |} in
  (consistent pending_request /\
   In e (emitted_since pending_request
           (snd (perform cfg (Block "1" "2") pending_request)))) /\
  from_id (data e) = user_id e.
Proof.
  intros cfg e.
  assert (Hin : In e (emitted_since pending_request
                        (snd (perform cfg (Block "1" "2") pending_request))))
    by (left; reflexivity).
  split; [exact (conj (sample_consistent pending_request eq_refl) Hin)|].
  exact (proj1 (events_carry_own_edge cfg (Block "1" "2") pending_request e
                  (sample_consistent pending_request eq_refl) Hin)).
Defined.

(** What a block tells its target: at most that the target's own edge toward
    the blocker was removed.  The target never receives an ADD, and receives
    nothing at all when it held no edge, or a block of its own. *)
Theorem block_tells_target_only_of_removal cfg A B w w' e :
  consistent w -> block cfg A B w = (inr 204, w') ->
  In e (emitted_since w w') -> user_id e = B ->
  event e = RELATIONSHIP_REMOVE /\
  findEdge (relationships (db w)) B A = Some (data e) /\
  type (data e) <> blocked.
Proof.
  intros Hc Hrun Hin Hto.
  pose proof (router_put_outcome _ _ _ _ _ Hrun) as H. cbn in H.
  destruct H as [HA [HB [Hne Hnb]]].
  destruct (block_ok cfg A B w Hc HA HB Hne Hnb)
    as [w1 [rb [Hrun1 [_ [_ [F [T [_ [_ Hev]]]]]]]]].
  rewrite Hrun in Hrun1. injection Hrun1 as <-.
  rewrite (emitted_since_app _ _ _ Hev) in Hin.
  apply in_app_or in Hin. destruct Hin as [Hin|[<-|[]]].
  - unfold removal in Hin.
    destruct (findEdge (relationships (db w)) B A) as [fr|] eqn:Efr;
      [|destruct Hin].
    unfold is_blocked in Hin. destruct (type fr) eqn:Tfr;
      try destruct Hin as [<-|[]]; try destruct Hin; cbn;
      repeat split; auto; rewrite Tfr; discriminate.
  - cbn in Hto. congruence.
Qed.

(** User 1 blocks user 2, whose request is pending. *)
Lemma block_tells_target_only_of_removal_witness :
  let cfg := {| maxFriends := 5 |} in
  let w' := snd (block cfg "1" "2" pending_request) in
  let e := {| event := RELATIONSHIP_REMOVE; user_id := "2";
              data := {| id := 1; from_id := "2"; to_id := "1";
                         type := outgoing |};
              should_notify := false |} in
  (consistent pending_request /\
   block cfg "1" "2" pending_request = (inr 204, w') /\
   In e (emitted_since pending_request w') /\ user_id e = "2") /\
  event e = RELATIONSHIP_REMOVE /\
  findEdge (relationships (db pending_request)) "2" "1" = Some (data e).
Proof.
  intros cfg w' e.
  assert (Hin : In e (emitted_since pending_request w'))
    by (left; reflexivity).
  split; [exact (conj (sample_consistent pending_request eq_refl)
                   (conj eq_refl (conj Hin eq_refl)))|].
  destruct (block_tells_target_only_of_removal cfg "1" "2" pending_request
              w' e (sample_consistent pending_request eq_refl) eq_refl Hin
              eq_refl) as [H1 [H2 _]].
  exact (conj H1 H2).
Defined.

End EngineTransitions.

(* ================================================================== *)
(** * Part I, further results: invariants of the reachable stores      *)
(* ================================================================== *)

Module EngineInvariants.
Import Relationships RelationshipTable Engine RelationshipRoutes.

(** ** Mirrored edges *)

(** A local update keeps [paired] when the two edges it leaves mirror each
    other. *)
Lemma paired_updated rows rows' A B eAB eBA :
  paired rows -> edges_updated rows rows' A B eAB eBA ->
  (forall r, eAB = Some r -> type r <> blocked ->
             exists r', eBA = Some r' /\ type r' = mirror (type r)) ->
  (forall r, eBA = Some r -> type r <> blocked ->
             exists r', eAB = Some r' /\ type r' = mirror (type r)) ->
  paired rows'.
Proof.
  intros Hp [H1 [H2 H3]] L1 L2 a b x Hx Hnb.
  destruct (string_dec a A) as [EA|NA]; destruct (string_dec b B) as [EB|NB].
  - subst a b. rewrite H1 in Hx. rewrite H2. apply L1; assumption.
  - destruct (string_dec a B) as [EA'|NA'];
      destruct (string_dec b A) as [EB'|NB'].
    + exfalso. congruence.
    + rewrite H3 in Hx by tauto. rewrite H3 by tauto. exact (Hp _ _ _ Hx Hnb).
    + rewrite H3 in Hx by tauto. rewrite H3 by tauto. exact (Hp _ _ _ Hx Hnb).
    + rewrite H3 in Hx by tauto. rewrite H3 by tauto. exact (Hp _ _ _ Hx Hnb).
  - destruct (string_dec a B) as [EA'|NA'];
      destruct (string_dec b A) as [EB'|NB'].
    + exfalso. congruence.
    + rewrite H3 in Hx by tauto. rewrite H3 by tauto. exact (Hp _ _ _ Hx Hnb).
    + rewrite H3 in Hx by tauto. rewrite H3 by tauto. exact (Hp _ _ _ Hx Hnb).
    + rewrite H3 in Hx by tauto. rewrite H3 by tauto. exact (Hp _ _ _ Hx Hnb).
  - destruct (string_dec a B) as [EA'|NA'];
      destruct (string_dec b A) as [EB'|NB'].
    + subst a b. rewrite H2 in Hx. rewrite H1. apply L2; assumption.
    + rewrite H3 in Hx by tauto. rewrite H3 by tauto. exact (Hp _ _ _ Hx Hnb).
    + rewrite H3 in Hx by tauto. rewrite H3 by tauto. exact (Hp _ _ _ Hx Hnb).
    + rewrite H3 in Hx by tauto. rewrite H3 by tauto. exact (Hp _ _ _ Hx Hnb).
Qed.

Lemma paired_put cfg req w :
  consistent w -> paired (relationships (db w)) ->
  paired (relationships (db (snd (router_put cfg req w)))).
Proof.
  intros Hc Hp. destruct (router_put cfg req w) as [res w'] eqn:Hrun.
  pose proof (router_put_outcome cfg req w res w' Hrun) as Hout.
  destruct res as [e|s]; cbn.
  { destruct Hout as [-> _]. exact Hp. }
  destruct req as [A B bt]. cbn in Hout.
  destruct Hout as [HA [HB [Hne Hguards]]].
  assert (Hblock : bt = Some blocked ->
                   (forall r, findEdge (relationships (db w)) A B = Some r ->
                              type r <> blocked) ->
                   paired (relationships (db w'))).
  { intros -> Hnb.
    destruct (block_ok cfg A B w Hc HA HB Hne Hnb)
      as [w1 [rb [Hrun1 [_ [_ [_ [_ [Ty [U _]]]]]]]]].
    unfold block in Hrun1. rewrite Hrun in Hrun1. injection Hrun1 as _ <-.
    eapply paired_updated; [exact Hp|exact U| |].
    - intros r [= <-] Hn. congruence.
    - intros r E Hn. unfold kept_block in E.
      destruct (findEdge (relationships (db w)) B A) as [fr|]; [|discriminate].
      unfold is_blocked in E. destruct (type fr) eqn:T; try discriminate;
        injection E as <-; congruence. }
  assert (Hreq : router_put cfg {| req_user_id := A; params_id := B;
                                   body_type := bt |} w
                 = requestOrAccept cfg A B w ->
                 List.length (edges_of w A) < maxFriends cfg /\
                 (forall fr, findEdge (relationships (db w)) B A = Some fr ->
                             type fr = outgoing \/ type fr = incoming) /\
                 (forall r, findEdge (relationships (db w)) A B = Some r ->
                            type r = incoming) ->
                 paired (relationships (db w'))).
  { intros Heq [Hcap [Hfr Hr]].
    destruct (request_ok cfg A B w Hc HA HB Hne Hcap Hfr Hr)
      as [w1 [Hrun1 [_ [_ [_ [U _]]]]]].
    rewrite <- Heq, Hrun in Hrun1. injection Hrun1 as _ <-.
    eapply paired_updated; [exact Hp|exact U| |].
    - intros r [= <-] _.
      destruct (findEdge (relationships (db w)) A B) as [r|] eqn:Er.
      + pose proof (Hr r eq_refl) as Tr.
        destruct (Hp A B r Er) as [r' [Er' Tr']]; [congruence|].
        rewrite Er'. eexists. split; reflexivity.
      + destruct (findEdge (relationships (db w)) B A) as [fr|] eqn:Efr.
        * exfalso. destruct (Hp B A fr Efr) as [r' [Er' _]].
          { destruct (Hfr fr eq_refl); congruence. }
          congruence.
        * eexists. split; reflexivity.
    - intros r [= <-] _.
      destruct (findEdge (relationships (db w)) A B) as [r|] eqn:Er.
      + pose proof (Hr r eq_refl) as Tr.
        destruct (Hp A B r Er) as [r' [Er' Tr']]; [congruence|].
        rewrite Er'. eexists. split; reflexivity.
      + destruct (findEdge (relationships (db w)) B A) as [fr|] eqn:Efr.
        * exfalso. destruct (Hp B A fr Efr) as [r' [Er' _]].
          { destruct (Hfr fr eq_refl); congruence. }
          congruence.
        * eexists. split; reflexivity. }
  destruct bt as [[]|]; auto;
    apply Hreq; auto; apply router_put_friend_path; discriminate.
Qed.

Lemma paired_delete req w :
  consistent w -> paired (relationships (db w)) ->
  paired (relationships (db (snd (router_delete req w)))).
Proof.
  intros Hc Hp. destruct (router_delete req w) as [res w'] eqn:Hrun.
  pose proof (router_delete_outcome req w res w' Hrun) as Hout.
  destruct res as [e|s]; cbn.
  { destruct Hout as [-> _]. exact Hp. }
  destruct req as [A B bt]. cbn in Hout.
  destruct Hout as [HA [HB [Hne [r Hr]]]].
  destruct (remove_ok A B w r Hc HA HB Hne Hr) as [w1 [Hrun1 [_ [_ [U _]]]]].
  assert (router_delete {| req_user_id := A; params_id := B; body_type := bt |} w
          = remove A B w) as Heq by reflexivity.
  rewrite <- Heq, Hrun in Hrun1. injection Hrun1 as _ <-.
  eapply paired_updated; [exact Hp|exact U| |].
  - intros x [=].
  - intros x E Hn. exfalso.
    destruct (findEdge (relationships (db w)) B A) as [fr|] eqn:Efr.
    + unfold kept_block, is_blocked in E. destruct Hc as [_ Hh].
      destruct (type r) eqn:Tr; destruct (type fr) eqn:Tfr;
        try discriminate; injection E as <-; try congruence.
      all: apply Hn; exact (Hh A B r fr Hr Tr Efr).
    + destruct (is_blocked r); discriminate.
Qed.

(** In every store the routes can reach, each edge that is not a block has
    its mirror on the other side: friendship is mutual, and a request sent
    is a request received. *)
Theorem reachable_edges_mirrored w a b t :
  reachable w -> edge w a b = Some t -> t <> blocked ->
  edge w b a = Some (mirror t).
Proof.
  intros Hreach.
  assert (Hp : paired (relationships (db w))).
  { induction Hreach.
    - intros x y r H. discriminate H.
    - apply paired_put; auto. apply reachable_consistent. exact Hreach.
    - apply paired_delete; auto. apply reachable_consistent. exact Hreach. }
  unfold edge. intros E Hn.
  destruct (findEdge (relationships (db w)) a b) as [r|] eqn:Er;
    [|discriminate].
  unfold option_map in E. injection E as <-.
  destruct (Hp a b r Er Hn) as [r' [-> Tr']]. cbn. congruence.
Qed.

Lemma friendship_reachable : reachable friendship.
Proof.
  unfold friendship, four_users. cbn [perform_all perform].
  apply (reach_put {| maxFriends := 5 |}
           {| req_user_id := "2"; params_id := "1"; body_type := None |}).
  apply (reach_put {| maxFriends := 5 |}
           {| req_user_id := "1"; params_id := "2"; body_type := None |}).
  apply reach_empty.
Qed.

(** Users 1 and 2 after a request and its acceptance. *)
Lemma reachable_edges_mirrored_witness :
  (reachable friendship /\ edge friendship "1" "2" = Some friends /\
   friends <> blocked) /\
  edge friendship "2" "1" = Some friends.
Proof.
  assert (Hn : friends <> blocked) by discriminate.
  split; [exact (conj friendship_reachable (conj eq_refl Hn))|].
  exact (reachable_edges_mirrored friendship "1" "2" friends
           friendship_reachable eq_refl Hn).
Defined.

(** ** The friend cap *)

Lemma sent_or_friends_count w U :
  sent_or_friends w U
  = List.length (filter (counted U) (relationships (db w))).
Proof.
  unfold sent_or_friends, edges_of, counted.
  induction (relationships (db w)) as [|x l IH]; cbn; auto.
  destruct (from_id x =? U); cbn; auto.
  destruct (sent_or_friend x); cbn; auto.
Qed.

Lemma count_app (q : Relationship -> bool) l r :
  List.length (filter q (l ++ [r])) = List.length (filter q l) + b2n (q r).
Proof.
  rewrite filter_app, length_app. cbn. destruct (q r); reflexivity.
Qed.

Lemma count_replace (q : Relationship -> bool) rows r r' :
  NoDup (map id rows) -> In r rows -> id r' = id r ->
  List.length (filter q (map (fun x => if (id x =? id r)%nat then r' else x)
                             rows)) + b2n (q r)
  = List.length (filter q rows) + b2n (q r').
Proof.
  intros Hnd Hin Eid. induction rows as [|x rows IH]; [contradiction|].
  cbn in Hnd. inversion Hnd as [|? ? Hx Hnd']; subst. cbn.
  destruct (Nat.eqb_spec (id x) (id r)) as [E|E].
  - assert (x = r) as ->.
    { destruct Hin as [->|Hin]; auto. exfalso. apply Hx. rewrite E.
      apply in_map. exact Hin. }
    rewrite (replace_absent r' (id r) rows Hx).
    destruct (q r), (q r'); cbn; lia.
  - destruct Hin as [->|Hin]; [congruence|].
    specialize (IH Hnd' Hin). destruct (q x); cbn; lia.
Qed.

Lemma count_delete_le (q : Relationship -> bool) pk rows :
  List.length (filter q (delete_rows pk rows)) <= List.length (filter q rows).
Proof.
  unfold delete_rows. induction rows as [|x rows IH]; cbn; auto.
  destruct (negb (id x =? pk)%nat); cbn; destruct (q x); cbn; lia.
Qed.

Lemma count_save_uncounted_le (q : Relationship -> bool) r' rows :
  q r' = false ->
  List.length (filter q (save_rows r' rows)) <= List.length (filter q rows).
Proof.
  intros Hq. unfold save_rows.
  destruct (existsb (fun x => (id x =? id r')%nat) rows).
  - induction rows as [|x rows IH]; cbn; auto.
    destruct (id x =? id r')%nat; [rewrite Hq|]; destruct (q x); cbn; lia.
  - rewrite count_app, Hq. cbn. lia.
Qed.

Lemma count_lt (q : Relationship -> bool) l r :
  In r l -> q r = false -> List.length (filter q l) < List.length l.
Proof.
  intros Hin Hq. induction l as [|x l IH]; [contradiction|]. cbn.
  destruct Hin as [->|Hin].
  - rewrite Hq. pose proof (filter_length_le q l). lia.
  - specialize (IH Hin). destruct (q x); cbn; lia.
Qed.

(** The rows a block leaves. *)
Lemma block_rows cfg A B w s w' :
  block cfg A B w = (inr s, w') ->
  exists rb, type rb = blocked /\
    (relationships (db w') = save_rows rb (relationships (db w)) \/
     exists pk, relationships (db w')
                = delete_rows pk (save_rows rb (relationships (db w)))).
Proof.
  open_world w. run.
  destruct (existsb (String.eqb B) us); cbn; [|discriminate].
  destruct (String.eqb_spec B A); cbn; [discriminate|].
  destruct (existsb (String.eqb A) us); cbn; [|discriminate].
  rewrite !find_loaded.
  destruct (findEdge rows A B) as [r|]; [destruct (type r)|];
    (destruct (findEdge rows B A) as [fr|]; [destruct (type fr)|]);
    cbn; intros [= <- <-]; cbn; try discriminate;
    eexists; (split; [|(left; reflexivity) || (right; eexists; reflexivity)]);
    reflexivity.
Qed.

(** The rows a removal leaves. *)
Lemma remove_rows A B w s w' :
  remove A B w = (inr s, w') ->
  exists pk,
    relationships (db w') = delete_rows pk (relationships (db w)) \/
    exists pk', relationships (db w')
                = delete_rows pk (delete_rows pk' (relationships (db w))).
Proof.
  open_world w. run.
  destruct (String.eqb_spec B A); cbn; [discriminate|].
  destruct (existsb (String.eqb A) us); cbn; [|discriminate].
  destruct (existsb (String.eqb B) us); cbn; [|discriminate].
  rewrite !find_loaded.
  destruct (findEdge rows A B) as [r|]; [destruct (type r)|];
    (destruct (findEdge rows B A) as [fr|]; [destruct (type fr)|]);
    cbn; intros [= <- <-]; cbn; try discriminate;
    eexists; ((left; reflexivity) || (right; eexists; reflexivity)).
Qed.

Lemma bound_put cfg req w :
  consistent w -> paired (relationships (db w)) ->
  (forall U, sent_or_friends w U <= maxFriends cfg) ->
  forall U, sent_or_friends (snd (router_put cfg req w)) U <= maxFriends cfg.
Proof.
  intros Hc Hp Hb U. destruct (router_put cfg req w) as [res w'] eqn:Hrun.
  pose proof (router_put_outcome cfg req w res w' Hrun) as Hout.
  destruct res as [e|s]; cbn.
  { destruct Hout as [Hdb _]. specialize (Hb U).
    rewrite sent_or_friends_count in *. rewrite Hdb. exact Hb. }
  destruct req as [A B bt]. cbn in Hout.
  destruct Hout as [HA [HB [Hne Hguards]]].
  assert (Hblock : bt = Some blocked -> sent_or_friends w' U <= maxFriends cfg).
  { intros ->. destruct (block_rows cfg A B w s w' Hrun) as [rb [Tb Hrows]].
    specialize (Hb U). rewrite sent_or_friends_count in *.
    assert (Hq : counted U rb = false).
    { unfold counted, sent_or_friend. rewrite Tb. apply andb_false_r. }
    pose proof (count_save_uncounted_le (counted U) rb
                  (relationships (db w)) Hq) as H1.
    destruct Hrows as [->|[pk ->]]; [lia|].
    pose proof (count_delete_le (counted U) pk
                  (save_rows rb (relationships (db w)))). lia. }
  assert (Hreq : router_put cfg {| req_user_id := A; params_id := B;
                                   body_type := bt |} w
                 = requestOrAccept cfg A B w ->
                 List.length (edges_of w A) < maxFriends cfg /\
                 (forall fr, findEdge (relationships (db w)) B A = Some fr ->
                             type fr = outgoing \/ type fr = incoming) /\
                 (forall r, findEdge (relationships (db w)) A B = Some r ->
                            type r = incoming) ->
                 sent_or_friends w' U <= maxFriends cfg).
  { intros Heq [Hcap [Hfr Hr]].
    destruct (request_ok cfg A B w Hc HA HB Hne Hcap Hfr Hr)
      as [w1 [Hrun1 [_ [_ [Hrows _]]]]].
    rewrite <- Heq, Hrun in Hrun1. injection Hrun1 as _ <-.
    pose proof (Hb U) as HbU. pose proof (Hb A) as HbA.
    unfold sent_or_friends in HbA.
    rewrite sent_or_friends_count in *. rewrite Hrows. clear Hrows.
    destruct Hc as [Hwf Hh]. pose proof Hwf as [Hids Hfresh Hkeys].
    assert (Hne' : B <> A) by congruence.
    destruct (findEdge (relationships (db w)) A B) as [r|] eqn:Er.
    - (* an acceptance *)
      pose proof (Hr r eq_refl) as Tr.
      destruct (Hp A B r Er) as [fr [Efr Tfr]]; [congruence|].
      rewrite Tr in Tfr. cbn in Tfr. rewrite Efr.
      destruct (findEdge_Some _ _ _ _ Er) as [Hin [Fr _]].
      destruct (findEdge_Some _ _ _ _ Efr) as [Hinf [Ff _]].
      destruct (save_found _ _ B A fr friends Hwf Hne' Efr) as [W1 [_ [E1 _]]].
      rewrite Er in E1.
      assert (S1 : save_rows (with_type fr friends) (relationships (db w))
                   = map (fun x => if (id x =? id fr)%nat
                                   then with_type fr friends else x)
                         (relationships (db w))).
      { unfold save_rows.
        rewrite (existsb_present fr (id (with_type fr friends)) _ Hinf eq_refl).
        reflexivity. }
      rewrite S1 in *.
      destruct (findEdge_Some _ _ _ _ E1) as [Hin1 _].
      destruct W1 as [Hids1 _ _].
      assert (S2 : save_rows (with_type r friends)
                     (map (fun x => if (id x =? id fr)%nat
                                    then with_type fr friends else x)
                          (relationships (db w)))
                   = map (fun x => if (id x =? id r)%nat
                                   then with_type r friends else x)
                         (map (fun x => if (id x =? id fr)%nat
                                        then with_type fr friends else x)
                              (relationships (db w)))).
      { unfold save_rows.
        rewrite (existsb_present r (id (with_type r friends)) _ Hin1 eq_refl).
        reflexivity. }
      rewrite S2.
      pose proof (count_replace (counted U) _ r (with_type r friends)
                    Hids1 Hin1 eq_refl) as C2.
      pose proof (count_replace (counted U) _ fr (with_type fr friends)
                    Hids Hinf eq_refl) as C1.
      assert (Q1 : counted U (with_type fr friends) = counted U fr).
      { unfold counted, sent_or_friend. cbn. rewrite Tfr. reflexivity. }
      assert (Q2 : counted U r = false).
      { unfold counted, sent_or_friend. rewrite Tr. apply andb_false_r. }
      rewrite Q1 in C1. rewrite Q2 in C2. cbn in C2.
      destruct (String.eqb_spec A U) as [<-|NU].
      + assert (Hlt : List.length (filter sent_or_friend (edges_of w A))
                      < List.length (edges_of w A)).
        { apply (count_lt sent_or_friend _ r).
          - unfold edges_of. apply filter_In. split; auto.
            apply String.eqb_eq. exact Fr.
          - unfold sent_or_friend. rewrite Tr. reflexivity. }
        pose proof (sent_or_friends_count w A) as Hcnt.
        unfold sent_or_friends in Hcnt.
        assert (b2n (counted A (with_type r friends)) <= 1)
          by (destruct (counted A (with_type r friends)); cbn; lia).
        lia.
      + assert (Q3 : counted U (with_type r friends) = false).
        { unfold counted. cbn. rewrite Fr.
          destruct (String.eqb_spec A U); [congruence|reflexivity]. }
        rewrite Q3 in C2. cbn in C2. lia.
    - (* a first request *)
      destruct (findEdge (relationships (db w)) B A) as [fr|] eqn:Efr.
      { exfalso. destruct (Hp B A fr Efr) as [r' [Er' _]].
        { destruct (Hfr fr eq_refl); congruence. }
        congruence. }
      rewrite (save_rows_fresh (snowflake w) (relationships (db w))
                 {| id := snowflake w; from_id := B; to_id := A;
                    type := incoming |} Hfresh (le_n _)).
      rewrite (save_rows_fresh (S (snowflake w))).
      + rewrite !count_app. unfold counted at 2 3. cbn.
        rewrite andb_false_r, andb_true_r. cbn.
        destruct (String.eqb_spec A U) as [<-|NU]; cbn; [|lia].
        pose proof (filter_length_le sent_or_friend (edges_of w A)) as Hle.
        pose proof (sent_or_friends_count w A) as Hcnt.
        unfold sent_or_friends in Hcnt. lia.
      + apply Forall_app. split.
        * eapply Forall_impl; [|exact Hfresh]. cbn. intros. lia.
        * repeat constructor.
      + cbn. lia. }
  destruct bt as [[]|]; auto;
    apply Hreq; auto; apply router_put_friend_path; discriminate.
Qed.

Lemma bound_delete cfg req w :
  (forall U, sent_or_friends w U <= maxFriends cfg) ->
  forall U, sent_or_friends (snd (router_delete req w)) U <= maxFriends cfg.
Proof.
  intros Hb U. destruct (router_delete req w) as [res w'] eqn:Hrun.
  specialize (Hb U). rewrite sent_or_friends_count in *. cbn.
  destruct res as [e|s].
  - pose proof (router_delete_outcome req w _ w' Hrun) as [-> _]. exact Hb.
  - destruct req as [A B bt].
    destruct (remove_rows A B w s w' Hrun) as [pk [->|[pk' ->]]].
    + pose proof (count_delete_le (counted U) pk (relationships (db w))). lia.
    + pose proof (count_delete_le (counted U) pk
                    (delete_rows pk' (relationships (db w)))).
      pose proof (count_delete_le (counted U) pk' (relationships (db w))).
      lia.
Qed.

Lemma reachable_with_reachable cfg w : reachable_with cfg w -> reachable w.
Proof.
  induction 1; [apply reach_empty|apply reach_put|apply reach_delete]; auto.
Qed.

Lemma reachable_paired w : reachable w -> paired (relationships (db w)).
Proof.
  induction 1.
  - intros x y r H. discriminate H.
  - apply paired_put; auto. apply reachable_consistent. assumption.
  - apply paired_delete; auto. apply reachable_consistent. assumption.
Qed.

Lemma friends_le_sent_or_friends w U :
  friends_count w U <= sent_or_friends w U.
Proof.
  unfold friends_count, sent_or_friends, count_type, sent_or_friend.
  induction (edges_of w U) as [|x l IH]; cbn; auto.
  destruct (type x); cbn; lia.
Qed.

(** Under one configuration, no store the routes can reach holds more than
    [maxFriends] friendships and sent requests for any user; in particular
    nobody has more than [maxFriends] friends. *)
Theorem friends_never_exceed_cap cfg w U :
  reachable_with cfg w ->
  sent_or_friends w U <= maxFriends cfg /\
  friends_count w U <= maxFriends cfg.
Proof.
  intros Hreach.
  assert (Hb : forall V, sent_or_friends w V <= maxFriends cfg).
  { induction Hreach; intros V.
    - cbn. lia.
    - apply bound_put; auto.
      + apply reachable_consistent. eapply reachable_with_reachable; eauto.
      + apply reachable_paired. eapply reachable_with_reachable; eauto.
    - apply bound_delete; auto. }
  split; [apply Hb|].
  pose proof (friends_le_sent_or_friends w U). specialize (Hb U). lia.
Qed.

Lemma two_friends_reachable : reachable_with {| maxFriends := 2 |} two_friends.
Proof.
  unfold two_friends, four_users. cbn [perform_all perform].
  apply (reach_with_put _ {| req_user_id := "4"; params_id := "1";
                             body_type := None |}).
  apply (reach_with_put _ {| req_user_id := "1"; params_id := "4";
                             body_type := None |}).
  apply (reach_with_put _ {| req_user_id := "3"; params_id := "1";
                             body_type := None |}).
  apply (reach_with_put _ {| req_user_id := "1"; params_id := "3";
                             body_type := None |}).
  apply reach_with_empty.
Qed.

(** User 1 with two friends under a cap of two. *)
Lemma friends_never_exceed_cap_witness :
  reachable_with {| maxFriends := 2 |} two_friends /\
  friends_count two_friends "1" <= 2.
Proof.
  split; [exact two_friends_reachable|].
  exact (proj2 (friends_never_exceed_cap {| maxFriends := 2 |} two_friends "1"
                  two_friends_reachable)).
Defined.

End EngineInvariants.

(* ================================================================== *)
(** * Part III, results: listing, and requests by handle               *)
(* ================================================================== *)

Module RoutesProperties.
Import Relationships RelationshipTable Engine RelationshipRoutes.

(** ** [router.get] *)

Lemma router_get_run A bt pid w :
  is_user w A ->
  router_get {| req_user_id := A; params_id := pid; body_type := bt |} w
  = (inr (map (fun r => {| related_id := to_id r; related_type := type r |})
              (edges_of w A)),
     {| db := db w; snowflake := snowflake w; emitted := emitted w;
        calls := calls w ++ [FindOneOrFail A] |}).
Proof.
  intros HA. unfold edges_of. open_world w.
  unfold router_get, bind, findOneOrFail, ret, log_call. cbn.
  rewrite HA. reflexivity.
Qed.

Lemma listed_iff_edge w A B t :
  consistent w ->
  (In {| related_id := B; related_type := t |}
      (map (fun r => {| related_id := to_id r; related_type := type r |})
           (edges_of w A))
   <-> edge w A B = Some t).
Proof.
  intros [[_ _ Hkeys] _]. unfold edges_of, edge. split.
  - intros Hin. apply in_map_iff in Hin. destruct Hin as [r [E Hr]].
    injection E as <- <-. apply filter_In in Hr. destruct Hr as [Hr HF].
    apply String.eqb_eq in HF. subst A.
    rewrite (findEdge_In _ r Hkeys Hr). reflexivity.
  - intros E.
    destruct (findEdge (relationships (db w)) A B) as [r|] eqn:Er;
      [|discriminate].
    unfold option_map in E. injection E as <-.
    destruct (findEdge_Some _ _ _ _ Er) as [Hin [F T]].
    apply in_map_iff. exists r. split; [rewrite T; reflexivity|].
    apply filter_In. split; auto. apply String.eqb_eq. exact F.
Qed.

Lemma listed_once rows A :
  NoDup (map key rows) ->
  NoDup (map to_id (filter (fun r => from_id r =? A) rows)).
Proof.
  induction rows as [|x rows IH]; cbn; intros Hnd; [constructor|].
  inversion Hnd as [|? ? Hx Hnd']; subst.
  destruct (String.eqb_spec (from_id x) A) as [E|E]; cbn; auto.
  constructor; auto. intros Hin. apply Hx.
  apply in_map_iff in Hin. destruct Hin as [y [Ey Hy]].
  apply filter_In in Hy. destruct Hy as [Hy HF]. apply String.eqb_eq in HF.
  apply in_map_iff. exists y. split; auto. unfold key. congruence.
Qed.

(** The list a user gets is read-only and is exactly that user's edges:
    another user is listed with a kind when, and only when, the lookup of
    the edge toward that user gives this kind; nobody is listed twice; and
    the only database call is the lookup of the caller. *)
Theorem get_lists_own_edges A w :
  consistent w -> is_user w A ->
  exists l w',
    router_get {| req_user_id := A; params_id := EmptyString;
                  body_type := None |} w = (inr l, w') /\
    db w' = db w /\ emitted w' = emitted w /\
    calls w' = calls w ++ [FindOneOrFail A] /\
    (forall B t, In {| related_id := B; related_type := t |} l
                 <-> edge w A B = Some t) /\
    NoDup (map related_id l).
Proof.
  intros Hc HA. eexists _, _. split; [apply router_get_run; exact HA|].
  cbn. repeat split; auto.
  - apply (listed_iff_edge w A B t Hc).
  - apply (listed_iff_edge w A B t Hc).
  - rewrite map_map. cbn. destruct Hc as [[_ _ Hkeys] _].
    apply listed_once. exact Hkeys.
Qed.

(** User 1 lists its edges once a request from user 2 is pending. *)
Lemma get_lists_own_edges_witness :
  (consistent pending_request /\ is_user pending_request "1") /\
  exists l w',
    router_get {| req_user_id := "1"; params_id := EmptyString;
                  body_type := None |} pending_request = (inr l, w') /\
    db w' = db pending_request /\
    (forall B t, In {| related_id := B; related_type := t |} l
                 <-> edge pending_request "1" B = Some t).
Proof.
  split; [exact (conj (consistentb_sound pending_request eq_refl) eq_refl)|].
  destruct (get_lists_own_edges "1" pending_request
              (consistentb_sound pending_request eq_refl) eq_refl)
    as [l [w' [H1 [H2 [_ [_ [H3 _]]]]]]].
  exists l, w'. auto.
Defined.

(** After [block(A,B)], the list B gets shows A only if B has blocked A
    itself: A's block never appears in it, and no request or friendship
    with A is left in it. *)
Theorem blocked_user_list_hides_blocker cfg A B w w' t :
  consistent w -> block cfg A B w = (inr 204, w') ->
  In {| related_id := A; related_type := t |}
     (map (fun r => {| related_id := to_id r; related_type := type r |})
          (edges_of w' B)) ->
  t = blocked /\ edge w B A = Some blocked.
Proof.
  intros Hc Hrun Hin.
  pose proof (router_put_outcome _ _ _ _ _ Hrun) as H. cbn in H.
  destruct H as [HA [HB [Hne Hnb]]].
  destruct (block_ok cfg A B w Hc HA HB Hne Hnb)
    as [w1 [rb [Hrun1 [Hc1 [_ [_ [_ [_ [[_ [U _]] _]]]]]]]]].
  rewrite Hrun in Hrun1. injection Hrun1 as <-.
  apply (listed_iff_edge w' B A t Hc1) in Hin.
  unfold edge in *. rewrite U in Hin. unfold kept_block in Hin.
  destruct (findEdge (relationships (db w)) B A) as [fr|]; [|discriminate].
  unfold is_blocked in Hin. destruct (type fr) eqn:Tfr; try discriminate.
  unfold option_map in *. rewrite Tfr in *. injection Hin as <-. auto.
Qed.

(** User 1 blocks user 2, who had blocked user 1. *)
Lemma blocked_user_list_hides_blocker_witness :
  let cfg := {| maxFriends := 5 |} in
  let w' := snd (block cfg "1" "2" blocked_by_2) in
  (consistent blocked_by_2 /\
   block cfg "1" "2" blocked_by_2 = (inr 204, w') /\
   In {| related_id := "1"; related_type := blocked |}
      (map (fun r => {| related_id := to_id r; related_type := type r |})
           (edges_of w' "2"))) /\
  edge blocked_by_2 "2" "1" = Some blocked.
Proof.
  intros cfg w'.
  assert (Hin : In {| related_id := "1"; related_type := blocked |}
                  (map (fun r => {| related_id := to_id r;
                                    related_type := type r |})
                       (edges_of w' "2"))) by (left; reflexivity).
  split; [exact (conj (consistentb_sound blocked_by_2 eq_refl)
                   (conj eq_refl Hin))|].
  exact (proj2 (blocked_user_list_hides_blocker cfg "1" "2" blocked_by_2 w'
                  blocked (consistentb_sound blocked_by_2 eq_refl)
                  eq_refl Hin)).
Defined.

(** ** [router.post] *)

(** [updateRelationship] reads the table, the id generator and nothing of
    the calls made before it: from two worlds that differ in those calls
    only, it does the same and adds the same calls. *)
Lemma updateRelationship_calls cfg req friend ty st n ev cs1 cs2 :
  exists res st' n' ev' more,
    updateRelationship cfg req friend ty
      {| db := st; snowflake := n; emitted := ev; calls := cs1 |}
    = (res, {| db := st'; snowflake := n'; emitted := ev';
               calls := cs1 ++ more |}) /\
    updateRelationship cfg req friend ty
      {| db := st; snowflake := n; emitted := ev; calls := cs2 |}
    = (res, {| db := st'; snowflake := n'; emitted := ev';
               calls := cs2 ++ more |}).
Proof.
  destruct st as [us rows]. destruct friend as [fid frels].
  unfold updateRelationship, bind, findOneOrFail, save, delete, emitEvent,
    new_Relationship, ret, throw, log_call, set_rows. cbn.
  destruct (fid =? req_user_id req); cbn.
  { eexists _, _, _, _, []. rewrite !app_nil_r. split; reflexivity. }
  destruct (existsb (String.eqb (req_user_id req)) us); cbn;
    [|eexists _, _, _, _, _; split; reflexivity].
  destruct ty; cbn;
    try (destruct (maxFriends cfg <=? _)%nat; cbn;
         [eexists _, _, _, _, _; split; reflexivity|]);
    try match goal with
        | |- context [find ?f (filter ?g rows)] =>
            destruct (find f (filter g rows)) as [r|]
        end; try destruct (type r);
    try match goal with
        | |- context [find ?f frels] => destruct (find f frels) as [fr|]
        end; try destruct (type fr);
    cbn; rewrite <- ?app_assoc; cbn;
    eexists _, _, _, _, _; split; reflexivity.
Qed.

(** A request by handle is the request by id to the user the handle names:
    when the users table has a row with this username and the discriminator
    padded to four characters, [router.post] and [router.put] on that row's
    id end alike, with the same table, the same events and the same id
    generator. *)
Theorem post_by_handle_is_put_by_id directory cfg A body w u :
  find (fun x => (row_discriminator x
                  =? padStart 4 "0" (String_of (body_discriminator body)))
                 && (row_username x =? body_username body)) directory
  = Some u ->
  is_user w (row_id u) ->
  let posted := router_post directory cfg A body w in
  let put := router_put cfg {| req_user_id := A; params_id := row_id u;
                               body_type := post_type body |} w in
  fst posted = fst put /\
  db (snd posted) = db (snd put) /\
  emitted (snd posted) = emitted (snd put) /\
  snowflake (snd posted) = snowflake (snd put).
Proof.
  intros Hfind Hu. open_world w.
  unfold router_post, router_put, bind, findOneOrFail_where, findOneOrFail,
    log_call. cbn.
  rewrite Hfind, Hu.
  destruct (updateRelationship_calls cfg
              {| req_user_id := A; params_id := EmptyString;
                 body_type := post_type body |}
              {| User_id := row_id u;
                 User_relationships :=
                   filter (fun r => from_id r =? row_id u) rows |}
              (match post_type body with Some t => t | None => friends end)
              {| users := us; relationships := rows |} n ev
              (cs ++ [FindOneOrFail
                        (handle (body_username body)
                           (padStart 4 "0"
                              (String_of (body_discriminator body))))])
              (cs ++ [FindOneOrFail (row_id u)]))
    as [res [st' [n' [ev' [more [H1 H2]]]]]].
  assert (Hreq : forall pid bt ty friend w0,
            updateRelationship cfg
              {| req_user_id := A; params_id := pid; body_type := bt |}
              friend ty w0
            = updateRelationship cfg
                {| req_user_id := A; params_id := EmptyString;
                   body_type := post_type body |} friend ty w0)
    by reflexivity.
  cbn. rewrite H1.
  rewrite (Hreq (row_id u) (post_type body)), H2. cbn. auto.
Qed.

(** A request to the handle bob with discriminator 7 is a request to user 2,
    registered as bob with discriminator 0007. *)
Lemma post_by_handle_is_put_by_id_witness :
  let cfg := {| maxFriends := 5 |} in
  let body := {| body_username := "bob"; body_discriminator := disc_number 7;
                 post_type := None |} in
  let u := {| row_id := "2"; row_username := "bob";
              row_discriminator := "0007" |} in
  (find (fun x => (row_discriminator x
                   =? padStart 4 "0" (String_of (body_discriminator body)))
                  && (row_username x =? body_username body)) sample_directory
   = Some u /\ is_user four_users "2") /\
  fst (router_post sample_directory cfg "1" body four_users)
  = fst (requestOrAccept cfg "1" "2" four_users) /\
  db (snd (router_post sample_directory cfg "1" body four_users))
  = db (snd (requestOrAccept cfg "1" "2" four_users)).
Proof.
  intros cfg body u. split; [split; reflexivity|].
  destruct (post_by_handle_is_put_by_id sample_directory cfg "1" body
              four_users u eq_refl eq_refl) as [H1 [H2 _]].
  exact (conj H1 H2).
Defined.

(** A handle that names nobody: the lookup fails, [updateRelationship] is
    not entered, and nothing is written or emitted. *)
Theorem post_unknown_handle directory cfg A body w :
  find (fun x => (row_discriminator x
                  =? padStart 4 "0" (String_of (body_discriminator body)))
                 && (row_username x =? body_username body)) directory
  = None ->
  exists key w',
    router_post directory cfg A body w = (inl (EntityNotFound key), w') /\
    db w' = db w /\ emitted w' = emitted w /\
    calls w' = calls w ++ [FindOneOrFail key].
Proof.
  intros Hfind. open_world w.
  unfold router_post, bind, findOneOrFail_where, log_call. cbn.
  rewrite Hfind. eexists _, _. split; [reflexivity|]. cbn. auto.
Qed.

(** Nobody is registered as bob with discriminator 0008. *)
Lemma post_unknown_handle_witness :
  let body := {| body_username := "bob"; body_discriminator := disc_number 8;
                 post_type := None |} in
  find (fun x => (row_discriminator x
                  =? padStart 4 "0" (String_of (body_discriminator body)))
                 && (row_username x =? body_username body)) sample_directory
  = None /\
  exists key w',
    router_post sample_directory {| maxFriends := 5 |} "1" body four_users
    = (inl (EntityNotFound key), w') /\
    db w' = db four_users /\ emitted w' = emitted four_users /\
    calls w' = calls four_users ++ [FindOneOrFail key].
Proof.
  intros body. split; [reflexivity|].
  exact (post_unknown_handle sample_directory {| maxFriends := 5 |} "1" body
           four_users eq_refl).
Defined.

(** ** Zero padding *)

Lemma pad_fill_length pad cur k :
  pad <> EmptyString -> String.length (pad_fill pad cur k) = k.
Proof.
  intros Hpad. revert cur. induction k as [|k IH]; intros cur; cbn; auto.
  destruct cur as [|c rest]; [destruct pad as [|c rest]; [congruence|]|];
    cbn; rewrite IH; reflexivity.
Qed.

Lemma pad_fill_zero cur k c :
  In c (list_ascii_of_string (pad_fill "0" cur k)) ->
  (forall d, In d (list_ascii_of_string cur) -> d = "0"%char) ->
  c = "0"%char.
Proof.
  revert cur. induction k as [|k IH]; intros cur; cbn; [intros []|].
  destruct cur as [|d rest]; cbn.
  - intros [<-|Hin] _; auto. apply (IH EmptyString Hin). intros d [].
  - intros [<-|Hin] Hcur; [apply Hcur; left; reflexivity|].
    apply (IH rest Hin). intros x Hx. apply Hcur. right. exact Hx.
Qed.

Lemma append_length s1 s2 :
  String.length (String.append s1 s2) = String.length s1 + String.length s2.
Proof. induction s1 as [|c s1 IH]; cbn; auto. Qed.

(** The discriminator looked up (line 62) has at least four characters: a
    value of four characters or more is looked up as it is, a shorter one
    is looked up as exactly four characters, the value preceded by zeros
    only. *)
Theorem discriminator_zero_padded d :
  let s := String_of d in
  let p := padStart 4 "0" s in
  String.length p = Nat.max 4 (String.length s) /\
  (4 <= String.length s -> p = s) /\
  exists zeros,
    p = String.append zeros s /\
    forall c, In c (list_ascii_of_string zeros) -> c = "0"%char.
Proof.
  intros s p. unfold p, padStart.
  destruct (Nat.leb_spec 4 (String.length s)) as [Hle|Hlt].
  - repeat split; auto; [lia|].
    exists EmptyString. split; [reflexivity|intros c []].
  - repeat split.
    + rewrite append_length, pad_fill_length; [lia|discriminate].
    + intros H. lia.
    + exists (pad_fill "0" "0" (4 - String.length s)). split; auto.
      intros c Hc. apply (pad_fill_zero "0" _ c Hc).
      intros x [<-|[]]. reflexivity.
Qed.

End RoutesProperties.

(* ================================================================== *)
(** * Part II, further results: what the guards let through            *)
(* ================================================================== *)

Module RegistrationGuards.
Import Registration RegistrationPolicies RegistrationProperties.

(** ** Guests *)

(** With [allowGuests] off, every registration that reaches the fourth check
    is refused with GUESTS_DISABLED, a payload with a password and an email
    like any other: line 46 does not look at the payload.  No call is
    made. *)
Theorem guests_disabled_refuses_all env cfg body w :
  allowNewRegistration (register cfg) = true -> consent body = true ->
  disabled (register cfg) = false -> allowGuests (register cfg) = false ->
  router_post env cfg body w =
  (inl (Threw (FieldErrors "email" "GUESTS_DISABLED"
                 (t "auth:register.GUESTS_DISABLED"))), w).
Proof.
  intros H1 H2 H3 H4. unfold_checks. unfold_monad.
  rewrite H1, H2, H3, H4. reflexivity.
Qed.

(** A full payload, with password, email and date of birth. *)
Lemma guests_disabled_refuses_all_witness :
  let body := born "2001-09-09T01:46:40.000Z" in
  (allowGuests (register no_guests_config) = false /\
   truthy (password body) = true) /\
  router_post sample_env no_guests_config body fresh_world =
  (inl (Threw (FieldErrors "email" "GUESTS_DISABLED"
                 (t "auth:register.GUESTS_DISABLED"))), fresh_world).
Proof.
  intros body. split; [split; reflexivity|].
  exact (guests_disabled_refuses_all sample_env no_guests_config body
           fresh_world eq_refl eq_refl eq_refl eq_refl).
Defined.

(** ** Captcha *)

(** With the captcha required and enabled, a payload that passed the first
    four checks is answered with status 400 and the site key and service of
    the configuration: with the code captcha-required and no call when it
    carries no key, and with the verifier's error codes when the verifier
    refuses the key.  No later check runs. *)
Theorem captcha_challenge env cfg body w :
  allowNewRegistration (register cfg) = true -> consent body = true ->
  disabled (register cfg) = false -> allowGuests (register cfg) = true ->
  requireCaptcha (register cfg) = true -> enabled (captcha cfg) = true ->
  (truthy (captcha_key body) = false ->
   router_post env cfg body w =
   (inl (Status400 {| challenge_captcha_key := ["captcha-required"];
                      captcha_sitekey := sitekey (captcha cfg);
                      captcha_service := service (captcha cfg) |}), w)) /\
  (forall key codes,
     captcha_key body = Some key -> key <> EmptyString ->
     verifyCaptcha env key (getIpAdress env)
     = inr {| success := false; error_codes := codes |} ->
     router_post env cfg body w =
     (inl (Status400 {| challenge_captcha_key := codes;
                        captcha_sitekey := sitekey (captcha cfg);
                        captcha_service := service (captcha cfg) |}),
      {| accounts := accounts w;
         calls := calls w ++ [call_verifyCaptcha key (getIpAdress env)] |})).
Proof.
  intros H1 H2 H3 H4 H5 H6. split.
  - intros Hk. unfold_checks. unfold_monad.
    rewrite H1, H2, H3, H4, H5, H6. cbn.
    unfold truthy in Hk. destruct (captcha_key body) as [k|]; auto.
    destruct (k =? EmptyString); [reflexivity|discriminate].
  - intros key codes Hk Hne Hv. unfold_checks. unfold_monad.
    rewrite H1, H2, H3, H4, H5, H6, Hk. cbn.
    assert (E : (key =? EmptyString) = false)
      by (apply String.eqb_neq; exact Hne).
    rewrite E, Hv. reflexivity.
Qed.

(** A payload without a captcha key. *)
Lemma captcha_challenge_witness :
  (requireCaptcha (register captcha_config) = true /\
   enabled (captcha captcha_config) = true /\
   truthy (captcha_key guest) = false) /\
  router_post sample_env captcha_config guest fresh_world =
  (inl (Status400 {| challenge_captcha_key := ["captcha-required"];
                     captcha_sitekey := Some "site-key";
                     captcha_service := Some "hcaptcha" |}), fresh_world).
Proof.
  split; [repeat split; reflexivity|].
  exact (proj1 (captcha_challenge sample_env captcha_config guest fresh_world
                  eq_refl eq_refl eq_refl eq_refl eq_refl eq_refl) eq_refl).
Defined.

(** ** A dead policy *)


(** ** What passing the guards means *)

Ltac step H x :=
  let E := fresh "E" in destruct x eqn:E; cbn in H; try discriminate H.

Lemma flag_passed (flag : bool) (e : Error) w w1 :
  (if flag then throw e else ret tt) w = (inr tt, w1) ->
  w1 = w /\ flag = false.
Proof.
  unfold throw, exit, ret. destruct flag; [discriminate|].
  intros [= <-]. auto.
Qed.

Lemma captcha_passed env cfg body w w1 :
  check_captcha env cfg body w = (inr tt, w1) -> accounts w1 = accounts w.
Proof.
  unfold check_captcha. unfold_monad.
  destruct (requireCaptcha (register cfg) && enabled (captcha cfg)); cbn;
    [|intros [= <-]; reflexivity].
  destruct (captcha_key body) as [k|]; [|discriminate].
  destruct (k =? EmptyString); [discriminate|].
  destruct (verifyCaptcha env k (getIpAdress env)) as [?|v]; [discriminate|].
  destruct (success v); cbn; [|discriminate]. intros [= <-]. reflexivity.
Qed.

Lemma fingerprint_passed env cfg body w w1 :
  check_fingerprint env cfg body w = (inr tt, w1) -> accounts w1 = accounts w.
Proof.
  unfold check_fingerprint. unfold_monad.
  destruct (allowMultipleAccounts (register cfg)); cbn;
    [intros [= <-]; reflexivity|].
  destruct (findOne_fingerprints env (fingerprint body)) as [?|[]];
    try discriminate. intros [= <-]. reflexivity.
Qed.

Lemma proxy_passed env cfg w w1 :
  check_proxy env cfg w = (inr tt, w1) -> accounts w1 = accounts w.
Proof.
  unfold check_proxy. unfold_monad.
  destruct (blockProxies (register cfg)); cbn; [|intros [= <-]; reflexivity].
  destruct (isProxy_IPAnalysis env (getIpAdress env)) as [?|[]];
    try discriminate. intros [= <-]. reflexivity.
Qed.

Lemma email_passed env cfg e w w1 :
  check_email env cfg e w = (inr tt, w1) ->
  accounts w1 = accounts w /\
  (email_required (register cfg) = true -> truthy e = true).
Proof.
  unfold check_email. unfold_monad.
  destruct e as [a|]; cbn.
  - destruct (negb (a =? EmptyString)); cbn.
    + destruct (findOne_email env a) as [?|[]]; try discriminate.
      intros [= <-]. auto.
    + destruct (email_required (register cfg)); [discriminate|].
      intros [= <-]. split; [auto|discriminate].
  - destruct (email_required (register cfg)); [discriminate|].
    intros [= <-]. split; [auto|discriminate].
Qed.

Lemma before_passed env cfg body w w1 :
  checks_before_date_of_birth env cfg body w = (inr tt, w1) ->
  accounts w1 = accounts w /\
  allowNewRegistration (register cfg) = true /\ consent body = true /\
  disabled (register cfg) = false /\ allowGuests (register cfg) = true /\
  (email_required (register cfg) = true ->
   truthy (adjustEmail env (email body)) = true).
Proof.
  intros H. unfold checks_before_date_of_birth in H.
  apply bind_inv in H. destruct H as [[x [_ E]]|[[] [w2 [H1 H]]]];
    [discriminate|].
  apply bind_inv in H. destruct H as [[x [_ E]]|[[] [w3 [H2 H]]]];
    [discriminate|].
  apply bind_inv in H. destruct H as [[x [_ E]]|[[] [w4 [H3 H]]]];
    [discriminate|].
  apply bind_inv in H. destruct H as [[x [_ E]]|[[] [w5 [H4 H]]]];
    [discriminate|].
  apply bind_inv in H. destruct H as [[x [_ E]]|[[] [w6 [H5 H]]]];
    [discriminate|].
  apply bind_inv in H. destruct H as [[x [_ E]]|[[] [w7 [H6 H]]]];
    [discriminate|].
  apply bind_inv in H. destruct H as [[x [_ E]]|[[] [w8 [H7 H]]]];
    [discriminate|].
  apply flag_passed in H1. destruct H1 as [-> F1].
  apply flag_passed in H2. destruct H2 as [-> F2].
  apply flag_passed in H3. destruct H3 as [-> F3].
  apply flag_passed in H4. destruct H4 as [-> F4].
  apply captcha_passed in H5. apply fingerprint_passed in H6.
  apply proxy_passed in H7. apply email_passed in H. destruct H as [H8 H9].
  apply negb_false_iff in F1, F2, F4.
  repeat split; auto. congruence.
Qed.

Lemma date_of_birth_passed env cfg body w b1 w1 :
  check_date_of_birth env cfg body w = (inr b1, w1) ->
  w1 = w /\
  (b1 = body \/
   b1 = with_date_of_birth body
          (Some (dob_Date (new_Date env (date_of_birth body))))) /\
  (dateOfBirth_required (register cfg) = true ->
   truthy (password body) = true ->
   truthy_dob (date_of_birth body) = true) /\
  (dateOfBirth_required (register cfg) = true ->
   dateOfBirth_minimum (register cfg) <> 0%Z ->
   Date_gt (new_Date env (date_of_birth body))
           (minimum_date env (dateOfBirth_minimum (register cfg))) = false).
Proof.
  unfold check_date_of_birth. unfold_monad.
  destruct (dateOfBirth_required (register cfg));
    destruct (truthy_dob (date_of_birth body));
    destruct (truthy (password body)); cbn; try discriminate;
    destruct (Z.eqb_spec (dateOfBirth_minimum (register cfg)) 0); cbn;
    try (destruct (Date_gt _ _) eqn:Eg; try discriminate);
    intros [= <- <-]; repeat split; auto; try discriminate; try congruence.
Qed.

Lemma password_passed env cfg body w b2 w1 :
  check_password env cfg body w = (inr b2, w1) ->
  accounts w1 = accounts w /\
  (password_required (register cfg) = true ->
   truthy (password body) = true) /\
  (if truthy (password body)
   then exists pw hash,
       password body = Some pw /\ bcrypt_hash env pw 12 = inr hash /\
       b2 = with_password body (Some hash) /\
       calls w1 = calls w ++ [call_bcrypt_hash pw]
   else b2 = body /\ w1 = w).
Proof.
  unfold check_password. unfold_monad.
  destruct (password body) as [pw|] eqn:Ep; cbn.
  - destruct (negb (pw =? EmptyString)); cbn.
    + destruct (bcrypt_hash env pw 12) as [reason|hash] eqn:Eh;
        [discriminate|].
      intros [= <- <-]. cbn. split; [reflexivity|]. split; [reflexivity|].
      exists pw, hash. auto.
    + destruct (password_required (register cfg)); [discriminate|].
      intros [= <- <-]. repeat split; auto; discriminate.
  - destruct (password_required (register cfg)); [discriminate|].
    intros [= <- <-]. repeat split; auto; discriminate.
Qed.

Lemma invite_passed cfg body w w1 :
  check_invite cfg body w = (inr tt, w1) ->
  w1 = w /\
  (requireInvite (register cfg) = true -> truthy (invite body) = true).
Proof.
  unfold check_invite. unfold_monad. rewrite andb_false_r, orb_false_r.
  destruct (truthy (invite body)); destruct (requireInvite (register cfg));
    cbn; try discriminate; intros [= <-]; auto.
Qed.

(** The guards in their parts. *)
Lemma guards_inv env cfg body w body' w1 :
  guards env cfg body w = (inr body', w1) ->
  exists w0 b1,
    checks_before_date_of_birth env cfg body w = (inr tt, w0) /\
    check_date_of_birth env cfg body w0 = (inr b1, w0) /\
    check_password env cfg b1 w0 = (inr body', w1) /\
    check_invite cfg body' w1 = (inr tt, w1).
Proof.
  intros H. unfold guards in H.
  apply bind_inv in H. destruct H as [[x [_ E]]|[[] [w0 [H0 H]]]];
    [discriminate|].
  apply bind_inv in H. destruct H as [[x [_ E]]|[b1 [w0' [H1 H]]]];
    [discriminate|].
  destruct (date_of_birth_passed _ _ _ _ _ _ H1) as [-> _].
  apply bind_inv in H. destruct H as [[x [_ E]]|[b2 [w2 [H2 H]]]];
    [discriminate|].
  apply bind_inv in H. destruct H as [[x [_ E]]|[[] [w3 [H3 H]]]];
    [discriminate|].
  destruct (invite_passed _ _ _ _ H3) as [-> _].
  unfold ret in H. injection H as <- <-.
  exists w0, b1. auto.
Qed.

(** A payload that passes every guard satisfies every policy of the
    configuration: registration is open, consent was given, and an invite,
    an email, a password and (with a password) a date of birth are present
    where required; with a minimum age, the date of birth is not later than
    the cutoff.  No account has been created yet. *)
Theorem guards_enforce_policies env cfg body w body' w1 :
  guards env cfg body w = (inr body', w1) ->
  accounts w1 = accounts w /\
  allowNewRegistration (register cfg) = true /\ consent body = true /\
  disabled (register cfg) = false /\ allowGuests (register cfg) = true /\
  (requireInvite (register cfg) = true -> truthy (invite body) = true) /\
  (email_required (register cfg) = true ->
   truthy (adjustEmail env (email body)) = true) /\
  (password_required (register cfg) = true ->
   truthy (password body) = true) /\
  (dateOfBirth_required (register cfg) = true ->
   truthy (password body) = true ->
   truthy_dob (date_of_birth body) = true) /\
  (dateOfBirth_required (register cfg) = true ->
   dateOfBirth_minimum (register cfg) <> 0%Z ->
   Date_gt (new_Date env (date_of_birth body))
           (minimum_date env (dateOfBirth_minimum (register cfg))) = false).
Proof.
  intros H. destruct (guards_inv _ _ _ _ _ _ H) as [w0 [b1 [H0 [H1 [H2 H3]]]]].
  destruct (before_passed _ _ _ _ _ H0) as [A0 [P1 [P2 [P3 [P4 P5]]]]].
  destruct (date_of_birth_passed _ _ _ _ _ _ H1) as [_ [Hb1 [D1 D2]]].
  destruct (password_passed _ _ _ _ _ _ H2) as [A2 [Q1 Q2]].
  destruct (invite_passed _ _ _ _ H3) as [_ I1].
  assert (Hpw : password b1 = password body)
    by (destruct Hb1 as [->| ->]; reflexivity).
  assert (Hinv : invite body' = invite body).
  { unfold truthy in Q2. rewrite Hpw in Q2.
    destruct (password body) as [pw|]; [destruct (negb (pw =? EmptyString))|].
    - destruct Q2 as [pw' [h [_ [_ [-> _]]]]].
      destruct Hb1 as [->| ->]; reflexivity.
    - destruct Q2 as [-> _]. destruct Hb1 as [->| ->]; reflexivity.
    - destruct Q2 as [-> _]. destruct Hb1 as [->| ->]; reflexivity. }
  repeat split; auto; try congruence.
  - intros R. rewrite <- Hinv. auto.
  - intros R. rewrite <- Hpw. auto.
Qed.

(** The sample payload with an invite passes. *)
Lemma guards_enforce_policies_witness :
  let body := invited "expired" in
  let w1 := snd (guards sample_env open_config body fresh_world) in
  (exists body', guards sample_env open_config body fresh_world
                 = (inr body', w1)) /\
  accounts w1 = accounts fresh_world /\ consent body = true.
Proof.
  intros body w1.
  assert (Hg : guards sample_env open_config body fresh_world
               = (inr (with_password
                         (with_date_of_birth body
                            (Some (dob_Date (Some 1000000000000%Z))))
                         (Some "$2b$12$wtp9gep9gw")), w1))
    by (vm_compute; reflexivity).
  split; [eexists; exact Hg|].
  destruct (guards_enforce_policies sample_env open_config body fresh_world
              _ w1 Hg) as [H1 [_ [H2 _]]].
  exact (conj H1 H2).
Defined.

(** ** Accounts *)

Lemma keeps_ret {A : Type} (a : A) : keeps_accounts (ret a).
Proof. intros w r w1 [= <- <-]. reflexivity. Qed.

Lemma keeps_exit {A : Type} (x : Exit) : keeps_accounts (@exit A x).
Proof. intros w r w1 [= <- <-]. reflexivity. Qed.

Lemma keeps_throw {A : Type} (e : Error) : keeps_accounts (@throw A e).
Proof. apply keeps_exit. Qed.

Lemma keeps_await {A : Type} c callee (r : string + A) :
  keeps_accounts (await c callee r).
Proof. intros w x w1. unfold await. destruct r; intros [= <- <-]; auto. Qed.

Lemma keeps_bind {A B : Type} (m : M A) (k : A -> M B) :
  keeps_accounts m -> (forall a, keeps_accounts (k a)) ->
  keeps_accounts (bind m k).
Proof.
  intros Hm Hk w r w1 H. apply bind_inv in H.
  destruct H as [[x [H _]]|[a [w0 [H0 H]]]].
  - exact (Hm _ _ _ H).
  - rewrite (Hk a _ _ _ H). exact (Hm _ _ _ H0).
Qed.

Ltac keeps :=
  repeat (first [ apply keeps_bind | apply keeps_ret | apply keeps_throw
                | apply keeps_exit | apply keeps_await
                | match goal with
                  | |- forall _, _ => intro
                  | |- keeps_accounts (if ?c then _ else _) => destruct c
                  | |- keeps_accounts (match ?x with Some _ => _ | None => _ end)
                    => destruct x
                  end ]).

Lemma guards_keep_accounts env cfg body : keeps_accounts (guards env cfg body).
Proof.
  unfold guards, checks_before_date_of_birth, check_allowNewRegistration,
    check_consent, check_disabled, check_allowGuests, check_captcha,
    check_fingerprint, check_proxy, check_email, check_date_of_birth,
    check_password, check_invite.
  keeps.
Qed.

Lemma after_creation_keeps env user body :
  keeps_accounts
    (bind (redeem_invite env user body)
          (fun _ => await (call_generateToken user) "generateToken"
                      (generateToken env user))).
Proof. unfold redeem_invite. keeps. Qed.

(** The route creates at most one account, and none unless every guard has
    passed: after any run, the accounts are as before, or they are as before
    plus the account that [User.register] returned for the body the guards
    let through. *)
Theorem account_only_after_guards env cfg body w r w' :
  router_post env cfg body w = (r, w') ->
  accounts w' = accounts w \/
  exists body' w1 user,
    guards env cfg body w = (inr body', w1) /\
    User_register env body' = inr user /\
    accounts w' = accounts w ++ [user].
Proof.
  intros H. rewrite router_post_guards in H.
  apply bind_inv in H. destruct H as [[x [H _]]|[body' [w1 [Hg H]]]].
  { left. exact (guards_keep_accounts env cfg body _ _ _ H). }
  pose proof (guards_keep_accounts env cfg body _ _ _ Hg) as Hacc.
  apply bind_inv in H. destruct H as [[x [H _]]|[user [w2 [Hc H]]]].
  - left. unfold create_account in H.
    destruct (User_register env body'); [|discriminate].
    injection H as _ <-. exact Hacc.
  - right. exists body', w1, user. split; [exact Hg|].
    unfold create_account in Hc.
    destruct (User_register env body') as [?|u]; [discriminate|].
    injection Hc as <- <-. split; [reflexivity|].
    rewrite (after_creation_keeps env u body' _ _ _ H). cbn. congruence.
Qed.

(** The run with the expired invite: one account, after the guards. *)
Lemma account_only_after_guards_witness :
  let body := invited "expired" in
  let run := router_post sample_env open_config body fresh_world in
  run = (fst run, snd run) /\
  (accounts (snd run) = accounts fresh_world \/
   exists body' w1 user,
     guards sample_env open_config body fresh_world = (inr body', w1) /\
     User_register sample_env body' = inr user /\
     accounts (snd run) = accounts fresh_world ++ [user]).
Proof.
  intros body run. split; [reflexivity|].
  exact (account_only_after_guards sample_env open_config body fresh_world
           (fst run) (snd run) eq_refl).
Defined.

(** A token is the last step: the route answers with one only when the
    guards have passed, [User.register] has returned the new account, the
    invite (if the payload has one) has been redeemed, and [generateToken]
    has resolved for that account. *)
Theorem token_for_new_account env cfg body w token w' :
  router_post env cfg body w = (inr token, w') ->
  exists body' w1 user,
    guards env cfg body w = (inr body', w1) /\
    User_register env body' = inr user /\
    generateToken env user = inr token /\
    accounts w' = accounts w ++ [user] /\
    (forall code, invite body' = Some code -> code <> EmptyString ->
                  Invite_joinGuild env user code = inr tt).
Proof.
  intros H. pose proof H as Hrun. rewrite router_post_guards in H.
  apply bind_inv in H. destruct H as [[x [_ E]]|[body' [w1 [Hg H]]]];
    [discriminate|].
  pose proof (guards_keep_accounts env cfg body _ _ _ Hg) as Hacc.
  apply bind_inv in H. destruct H as [[x [_ E]]|[user [w2 [Hc H]]]];
    [discriminate|].
  unfold create_account in Hc.
  destruct (User_register env body') as [?|u] eqn:Hreg; [discriminate|].
  injection Hc as <- <-.
  pose proof (after_creation_keeps env u body' _ _ _ H) as Hacc2.
  cbn in Hacc2.
  apply bind_inv in H. destruct H as [[x [_ E]]|[[] [w3 [Hr H]]]];
    [discriminate|].
  exists body', w1, u. repeat split; auto.
  - unfold await in H. destruct (generateToken env u); [discriminate|].
    injection H as <- _. reflexivity.
  - congruence.
  - intros code Hcode Hne. unfold redeem_invite, truthy in Hr.
    rewrite Hcode in Hr.
    assert (E : (code =? EmptyString) = false)
      by (apply String.eqb_neq; exact Hne).
    rewrite E in Hr. cbn in Hr. unfold await in Hr.
    destruct (Invite_joinGuild env u code) as [?|[]]; [discriminate|].
    reflexivity.
Qed.

(** A run that ends with a token. *)
Lemma token_for_new_account_witness :
  let body := invited "welcome" in
  let w' := snd (router_post sample_env open_config body fresh_world) in
  router_post sample_env open_config body fresh_world
  = (inr "token-of-id-of-x", w') /\
  exists body' w1 user,
    guards sample_env open_config body fresh_world = (inr body', w1) /\
    User_register sample_env body' = inr user /\
    generateToken sample_env user = inr "token-of-id-of-x" /\
    accounts w' = accounts fresh_world ++ [user].
Proof.
  intros body w'. split; [reflexivity|].
  destruct (token_for_new_account sample_env open_config body fresh_world
              "token-of-id-of-x" w' eq_refl)
    as [body' [w1 [user [H1 [H2 [H3 [H4 _]]]]]]].
  exists body', w1, user. auto.
Defined.

(** ** Calls *)

Lemma cc_ret {A : Type} cfg (a : A) : calls_configured cfg (ret a).
Proof. intros w r w1 [= <- <-] c Hc. auto. Qed.

Lemma cc_exit {A : Type} cfg (x : Exit) : calls_configured cfg (@exit A x).
Proof. intros w r w1 [= <- <-] c Hc. auto. Qed.

Lemma cc_throw {A : Type} cfg (e : Error) : calls_configured cfg (@throw A e).
Proof. apply cc_exit. Qed.

Lemma cc_await {A : Type} cfg c callee (r : string + A) :
  configured cfg c -> calls_configured cfg (await c callee r).
Proof.
  intros Hc w x w1. unfold await.
  destruct r; intros [= <- <-] c0 Hin; cbn in Hin;
    apply in_app_or in Hin; destruct Hin as [Hin|[<-|[]]]; auto.
Qed.

Lemma cc_bind {A B : Type} cfg (m : M A) (k : A -> M B) :
  calls_configured cfg m -> (forall a, calls_configured cfg (k a)) ->
  calls_configured cfg (bind m k).
Proof.
  intros Hm Hk w r w1 H c Hin. apply bind_inv in H.
  destruct H as [[x [H _]]|[a [w0 [H0 H]]]].
  - exact (Hm _ _ _ H c Hin).
  - destruct (Hk a _ _ _ H c Hin) as [Hin0|Hc]; [|auto].
    exact (Hm _ _ _ H0 c Hin0).
Qed.

Lemma cc_create_account cfg env body :
  calls_configured cfg (create_account env body).
Proof.
  intros w r w1. unfold create_account.
  destruct (User_register env body); intros [= <- <-] c Hin; cbn in Hin;
    apply in_app_or in Hin; destruct Hin as [Hin|[<-|[]]]; cbn; auto.
Qed.

Ltac flags :=
  repeat match goal with
         | E : (_ && _)%bool = true |- _ =>
             apply andb_prop in E; destruct E
         | E : negb _ = true |- _ => apply negb_true_iff in E
         end.

Ltac configured_calls :=
  repeat (first [ apply cc_bind | apply cc_ret | apply cc_throw
                | apply cc_exit | apply cc_create_account
                | apply cc_await; cbn; flags; solve [auto]
                | match goal with
                  | |- forall _, _ => intro
                  | |- calls_configured _ (if ?c then _ else _) =>
                      destruct c eqn:?
                  | |- calls_configured _
                         (match ?x with Some _ => _ | None => _ end) =>
                      destruct x
                  end ]).

(** The route calls the captcha verifier only when a captcha is required and
    enabled, looks fingerprints up only when multiple accounts are not
    allowed, and analyses the address only when proxies are blocked: every
    call made in a run, however it ends, is one the configuration asks
    for. *)
Theorem outside_calls_follow_config env cfg body w r w' :
  router_post env cfg body w = (r, w') ->
  forall c, In c (calls w') -> In c (calls w) \/ configured cfg c.
Proof.
  revert w r w'. change (calls_configured cfg (router_post env cfg body)).
  unfold router_post, after_date_of_birth, checks_before_date_of_birth,
    check_allowNewRegistration, check_consent, check_disabled,
    check_allowGuests, check_captcha, check_fingerprint, check_proxy,
    check_email, check_date_of_birth, check_password, check_invite,
    redeem_invite.
  configured_calls.
Qed.

(** With every optional policy off, a full registration calls neither the
    captcha verifier nor the fingerprint lookup nor the address analysis. *)
Lemma outside_calls_follow_config_witness :
  let body := invited "welcome" in
  let run := router_post sample_env open_config body fresh_world in
  run = (fst run, snd run) /\
  forall c, In c (calls (snd run)) ->
            In c (calls fresh_world) \/ configured open_config c.
Proof.
  intros body run. split; [reflexivity|].
  exact (outside_calls_follow_config sample_env open_config body fresh_world
           (fst run) (snd run) eq_refl).
Defined.

(** ** Ways to end *)

Lemma ex_ret {A : Type} P (a : A) : exits_in P (ret a).
Proof. intros w x w1. discriminate. Qed.

Lemma ex_exit {A : Type} (P : Exit -> Prop) (x : Exit) :
  P x -> exits_in P (@exit A x).
Proof. intros H w y w1 [= <- _]. exact H. Qed.

Lemma ex_throw {A : Type} (P : Exit -> Prop) (e : Error) :
  P (Threw e) -> exits_in P (@throw A e).
Proof. apply ex_exit. Qed.

Lemma ex_await {A : Type} (P : Exit -> Prop) c callee (r : string + A) :
  (forall reason, P (Threw (Rejected callee reason))) ->
  exits_in P (await c callee r).
Proof.
  intros H w x w1. unfold await. destruct r; [|discriminate].
  intros [= <- _]. apply H.
Qed.

Lemma ex_bind {A B : Type} P (m : M A) (k : A -> M B) :
  exits_in P m -> (forall a, exits_in P (k a)) -> exits_in P (bind m k).
Proof.
  intros Hm Hk w x w1 H. apply bind_inv in H.
  destruct H as [[y [H [= ->]]]|[a [w0 [_ H]]]].
  - exact (Hm _ _ _ H).
  - exact (Hk a _ _ _ H).
Qed.

Lemma ex_create_account cfg env body :
  exits_in (listed_exit cfg) (create_account env body).
Proof.
  intros w x w1. unfold create_account.
  destruct (User_register env body); [|discriminate].
  intros [= <- _]. cbn. auto 10.
Qed.

Ltac listed :=
  repeat (first [ apply ex_bind | apply ex_ret | apply ex_create_account
                | apply ex_throw; cbn; flags; solve [auto 20]
                | apply ex_exit; cbn; flags; solve [auto 20]
                | apply ex_await; intro; cbn; solve [auto 20]
                | match goal with
                  | |- forall _, _ => intro
                  | |- exits_in _ (if ?c then _ else _) => destruct c eqn:?
                  | |- exits_in _ (match ?x with Some _ => _ | None => _ end)
                    => destruct x
                  end ]).

(** However a registration fails, it fails in one of the listed ways: a
    field error of the ten field-and-code pairs, the blocked-address error,
    the rejection of one of the seven awaited calls, or the 400 captcha
    answer, which carries the configured site key and service and is given
    only when a captcha is required and enabled.  In particular the error
    INVALID_EMAIL of line 99 is never thrown: its test repeats, negated,
    the test of line 96. *)
Theorem exits_are_listed env cfg body w x w' :
  router_post env cfg body w = (inl x, w') ->
  listed_exit cfg x /\
  forall field m, x <> Threw (FieldErrors field "INVALID_EMAIL" m).
Proof.
  intros H.
  assert (L : exits_in (listed_exit cfg) (router_post env cfg body)).
  { unfold router_post, after_date_of_birth, checks_before_date_of_birth,
      check_allowNewRegistration, check_consent, check_disabled,
      check_allowGuests, check_captcha, check_fingerprint, check_proxy,
      check_email, check_date_of_birth, check_password, check_invite,
      redeem_invite.
    listed. }
  pose proof (L _ _ _ H) as Hx. split; [exact Hx|].
  intros field m ->. cbn in Hx.
  repeat (destruct Hx as [Hx|Hx]; [discriminate Hx|]). exact Hx.
Qed.

(** The run with the expired invite ends with the rejection of
    [Invite.joinGuild]. *)
Lemma exits_are_listed_witness :
  let body := invited "expired" in
  let w' := snd (router_post sample_env open_config body fresh_world) in
  router_post sample_env open_config body fresh_world
  = (inl (Threw (Rejected "Invite.joinGuild" "Unknown Invite")), w') /\
  listed_exit open_config (Threw (Rejected "Invite.joinGuild" "Unknown Invite")).
Proof.
  intros body w'. split; [reflexivity|].
  exact (proj1 (exits_are_listed sample_env open_config body fresh_world
                  (Threw (Rejected "Invite.joinGuild" "Unknown Invite")) w'
                  eq_refl)).
Defined.

(** ** What is registered *)

Lemma calls_after_creation env cfg body body' w w1 :
  guards env cfg body w = (inr body', w1) ->
  exists rest,
    calls (snd (router_post env cfg body w))
    = calls w1 ++ call_User_register body' :: rest.
Proof.
  intros Hg. rewrite router_post_guards. rewrite (bind_ok _ _ _ _ _ Hg).
  unfold create_account, redeem_invite, truthy, bind, await, ret.
  destruct (User_register env body') as [?|user]; cbn.
  { exists []. reflexivity. }
  destruct (invite body') as [code|]; cbn;
    [destruct (negb (code =? EmptyString)); cbn;
     [destruct (Invite_joinGuild env user code); cbn|]|];
    try destruct (generateToken env user); cbn;
    eexists; rewrite <- ?app_assoc; reflexivity.
Qed.

(** What [User.register] receives when the guards pass: the payload with its
    name, email, invite and fingerprint as sent (the email is the one of the
    request, not the adjusted one that line 103 looks up), the password
    replaced by its bcrypt hash of cost 12 when there is one, and the date
    of birth as sent or as the [Date] made of it by line 127.  The call to
    [User.register] with that body follows the calls of the guards. *)
Theorem register_receives_guarded_body env cfg body w body' w1 :
  guards env cfg body w = (inr body', w1) ->
  username body' = username body /\ email body' = email body /\
  invite body' = invite body /\ fingerprint body' = fingerprint body /\
  (truthy (password body) = true ->
   exists pw hash, password body = Some pw /\
                   bcrypt_hash env pw 12 = inr hash /\
                   password body' = Some hash) /\
  (truthy (password body) = false -> password body' = password body) /\
  (date_of_birth body' = date_of_birth body \/
   date_of_birth body'
   = Some (dob_Date (new_Date env (date_of_birth body)))) /\
  exists rest,
    calls (snd (router_post env cfg body w))
    = calls w1 ++ call_User_register body' :: rest.
Proof.
  intros Hg. pose proof (calls_after_creation env cfg body body' w w1 Hg) as Hc.
  apply guards_inv in Hg. destruct Hg as [w0 [b1 [_ [Hd [Hp _]]]]].
  apply date_of_birth_passed in Hd. destruct Hd as [_ [Hb1 _]].
  apply password_passed in Hp. destruct Hp as [_ [_ Hp]].
  assert (Hpw : password b1 = password body)
    by (destruct Hb1 as [-> | ->]; reflexivity).
  rewrite Hpw in Hp.
  assert (Hfields :
            username b1 = username body /\ email b1 = email body /\
            invite b1 = invite body /\ fingerprint b1 = fingerprint body /\
            (date_of_birth b1 = date_of_birth body \/
             date_of_birth b1
             = Some (dob_Date (new_Date env (date_of_birth body))))).
  { destruct Hb1 as [-> | ->]; cbn; auto 10. }
  destruct Hfields as [F1 [F2 [F3 [F4 F5]]]].
  destruct (truthy (password body)) eqn:T.
  - destruct Hp as [pw [hash [P1 [P2 [-> _]]]]]. cbn.
    repeat split; auto.
    + intros _. exists pw, hash. auto.
    + discriminate.
  - destruct Hp as [-> _]. repeat split; auto. discriminate.
Qed.

(** The registration with an invite: the hash, not the password, is
    registered. *)
Lemma register_receives_guarded_body_witness :
  let body := invited "welcome" in
  let run := guards sample_env open_config body fresh_world in
  (exists body', run = (inr body', snd run) /\
                 email body' = Some "x@gmail.com" /\
                 password body' = Some "$2b$12$wtp9gep9gw").
Proof.
  intros body run.
  assert (Hg : guards sample_env open_config body fresh_world
               = (inr (with_password
                         (with_date_of_birth body
                            (Some (dob_Date (Some 1000000000000%Z))))
                         (Some "$2b$12$wtp9gep9gw")), snd run))
    by (vm_compute; reflexivity).
  destruct (register_receives_guarded_body sample_env open_config body
              fresh_world _ (snd run) Hg) as [_ [He _]].
  eexists. split; [exact Hg|]. split; [exact He|reflexivity].
Defined.

(** ** Dates that do not parse *)

(** A date of birth that is a text [new Date] cannot parse is never refused:
    the invalid [Date] compares false with the cutoff, so the check passes
    under every policy and minimum age, and the route goes on to the
    password check. *)
Theorem unparseable_date_of_birth_passes env cfg body w s :
  date_of_birth body = Some (dob_text s) -> s <> EmptyString ->
  Date_parse env s = None ->
  let body' :=
    if dateOfBirth_required (register cfg)
       && negb (dateOfBirth_minimum (register cfg) =? 0)%Z
    then with_date_of_birth body (Some (dob_Date None))
    else body in
  check_date_of_birth env cfg body w = (inr body', w) /\
  forall w0, checks_before_date_of_birth env cfg body w0 = (inr tt, w) ->
             router_post env cfg body w0 = after_date_of_birth env cfg body' w.
Proof.
  intros Hdob Hs Hparse body'.
  assert (Hs' : (s =? EmptyString) = false) by (apply String.eqb_neq; exact Hs).
  assert (Hcheck : check_date_of_birth env cfg body w = (inr body', w)).
  { unfold check_date_of_birth, new_Date, truthy_dob, Date_gt, body'.
    rewrite Hdob, Hs', Hparse. cbn. rewrite andb_false_r. cbn.
    destruct (dateOfBirth_required (register cfg)
              && negb (dateOfBirth_minimum (register cfg) =? 0)%Z);
      reflexivity. }
  split; [exact Hcheck|].
  intros w0 Hbefore. unfold router_post.
  rewrite (bind_ok _ _ _ _ _ Hbefore). rewrite (bind_ok _ _ _ _ _ Hcheck).
  reflexivity.
Qed.

(** Thirteen years required, and a date of birth that is no date. *)
Lemma unparseable_date_of_birth_passes_witness :
  let body := born "tomorrow" in
  (date_of_birth body = Some (dob_text "tomorrow") /\
   Date_parse sample_env "tomorrow" = None) /\
  router_post sample_env open_config body fresh_world
  = (inr "token-of-id-of-x",
     snd (router_post sample_env open_config body fresh_world)).
Proof.
  intros body. split; [split; reflexivity|].
  rewrite (proj2 (unparseable_date_of_birth_passes sample_env open_config body
                    (snd (checks_before_date_of_birth sample_env open_config
                            body fresh_world))
                    "tomorrow" eq_refl
                    ltac:(discriminate) eq_refl) fresh_world eq_refl).
  reflexivity.
Defined.

End RegistrationGuards.
